(** * Power-factor-correction control core (pfc.c): embedding and properties

    The control core of the boost PFC converter is translated function by
    function from [src/project/pfc/pfc.c].  Integers are mathematical
    integers with the wrap-around of the C types written out, the control
    context [PFC_T] is passed explicitly, and the effects of a cycle
    (power-stage enable and disable calls, the PWM duty register write and
    the hardware divisions) are recorded in an event log.  A division by
    zero raises the arithmetic-error trap of the device: the cycle then has
    no result. *)

From Stdlib Require Import ZArith List Lia Bool.
Import ListNotations.
Local Open Scope Z_scope.

(** ** Machine integers *)

(** Value of an integer stored in an [int16_t]. *)
Definition wrap16 (x : Z) : Z := (x + 32768) mod 65536 - 32768.

(** Value of an integer stored in a [uint16_t]. *)
Definition wrapU16 (x : Z) : Z := x mod 65536.

(** Value of an integer stored in an [int32_t]. *)
Definition wrap32 (x : Z) : Z := (x + 2147483648) mod 4294967296 - 2147483648.

Definition INT16_MAX : Z := 32767.

Definition int16_range (x : Z) : Prop := -32768 <= x <= 32767.
Definition uint16_range (x : Z) : Prop := 0 <= x <= 65535.

(** ** Effects of a control cycle *)

Inductive event : Type :=
| HAL_PFCPWMDisableOutputs
| HAL_PFCPWMEnableOutputs
| PFC_ENABLE_SIGNAL_high
| PFC_PWM_PDC_write (duty : Z)
| DivF (num den : Z)
| DivSD (num den : Z).

(** A computation returns a value and the events it produced, or traps. *)
Definition M (A : Type) : Type := option (A * list event).

Definition ret {A : Type} (a : A) : M A := Some (a, []).

Definition bind {A B : Type} (m : M A) (f : A -> M B) : M B :=
  match m with
  | None => None
  | Some (a, l) =>
      match f a with
      | None => None
      | Some (b, l') => Some (b, l ++ l')
      end
  end.

Definition emit (e : event) : M unit := Some (tt, [e]).

Notation "x <- m ;; k" := (bind m (fun x => k))
  (at level 61, m at next level, right associativity).
Notation "m ;;; k" := (bind m (fun _ => k))
  (at level 61, right associativity).

(** The divisor of a division event is strictly positive. *)
Definition positive_divisor (e : event) : Prop :=
  match e with
  | DivF _ den => 0 < den
  | DivSD _ den => 0 < den
  | _ => True
  end.

(** The calls made to the power stage, in order. *)
Definition is_power_stage_call (e : event) : bool :=
  match e with
  | HAL_PFCPWMDisableOutputs | HAL_PFCPWMEnableOutputs => true
  | _ => false
  end.

Definition power_stage_calls (l : list event) : list event :=
  filter is_power_stage_call l.

(** ** Compiler builtins of the device *)

(** [__builtin_mulss]: signed 16 x 16 -> 32 bit multiplication; both
    arguments are converted to [int]. *)
Definition builtin_mulss (a b : Z) : Z := wrap16 a * wrap16 b.

(** [__builtin_divsd]: signed 32 / 16 -> 16 bit division, truncating
    towards zero.  A zero divisor raises the arithmetic-error trap. *)
Definition builtin_divsd (num den : Z) : M Z :=
  if den =? 0 then None
  else Some (wrap16 (Z.quot num den), [DivSD num den]).

(** [__builtin_divf]: signed fractional (Q15) division num/den.  A zero
    divisor raises the arithmetic-error trap. *)
Definition builtin_divf (num den : Z) : M Z :=
  if den =? 0 then None
  else Some (wrap16 (Z.quot (num * 32768) den), [DivF num den]).

(** ** Data model

    Modelled from the spec: the structure types are declared in pfc.h,
    which is not among the sources at hand.  The records below have the
    fields that pfc.c reads and writes.  Samples, filter outputs, PI gains,
    references and outputs are signed 16-bit values; the filter sums and
    the PI integral are 32-bit accumulators (a filter sum is the dividend
    of the 32/16-bit __builtin_divsd, the window length its 16-bit signed
    divisor, counted by a signed 16-bit sample counter); the ramp and
    voltage-loop counters, the fault status, the flags and the duty are
    unsigned 16-bit values.  Every field holds an integer, and each
    assignment of the code writes the value wrapped to the width of the
    field. *)

(** The states of the state machine; [PFC_STATE_OTHER] stands for any
    other value of the state field (the default case of the switch). *)
Inductive PFC_STATE_T : Type :=
| PFC_INIT
| PFC_OFFSET_MEAS
| PFC_WAIT_1CYCLE
| PFC_CTRL_RUN
| PFC_FAULT
| PFC_STATE_OTHER.

(** [PFC_AVG_T]: moving-average filter. *)
Module AVG.
Record PFC_AVG_T : Type := mk {
  sum : Z;
  samples : Z;
  sampleLimit : Z;
  output : Z;
  status : Z;
  scaler : Z
}.
Definition set_sum (v : Z) (p : PFC_AVG_T) : PFC_AVG_T :=
  mk v (samples p) (sampleLimit p) (output p) (status p) (scaler p).
Definition set_samples (v : Z) (p : PFC_AVG_T) : PFC_AVG_T :=
  mk (sum p) v (sampleLimit p) (output p) (status p) (scaler p).
Definition set_sampleLimit (v : Z) (p : PFC_AVG_T) : PFC_AVG_T :=
  mk (sum p) (samples p) v (output p) (status p) (scaler p).
Definition set_output (v : Z) (p : PFC_AVG_T) : PFC_AVG_T :=
  mk (sum p) (samples p) (sampleLimit p) v (status p) (scaler p).
Definition set_status (v : Z) (p : PFC_AVG_T) : PFC_AVG_T :=
  mk (sum p) (samples p) (sampleLimit p) (output p) v (scaler p).
Definition set_scaler (v : Z) (p : PFC_AVG_T) : PFC_AVG_T :=
  mk (sum p) (samples p) (sampleLimit p) (output p) (status p) v.
End AVG.
Abbreviation PFC_AVG_T := AVG.PFC_AVG_T.

(** [PFC_RMS_SQUARE_T]: mean-square accumulator. *)
Module RMS.
Record PFC_RMS_SQUARE_T : Type := mk {
  sqrOutput : Z;
  peak : Z;
  samples : Z;
  sampleLimit : Z;
  status : Z;
  sum : Z
}.
Definition set_sqrOutput (v : Z) (p : PFC_RMS_SQUARE_T) : PFC_RMS_SQUARE_T :=
  mk v (peak p) (samples p) (sampleLimit p) (status p) (sum p).
Definition set_peak (v : Z) (p : PFC_RMS_SQUARE_T) : PFC_RMS_SQUARE_T :=
  mk (sqrOutput p) v (samples p) (sampleLimit p) (status p) (sum p).
Definition set_samples (v : Z) (p : PFC_RMS_SQUARE_T) : PFC_RMS_SQUARE_T :=
  mk (sqrOutput p) (peak p) v (sampleLimit p) (status p) (sum p).
Definition set_sampleLimit (v : Z) (p : PFC_RMS_SQUARE_T) : PFC_RMS_SQUARE_T :=
  mk (sqrOutput p) (peak p) (samples p) v (status p) (sum p).
Definition set_status (v : Z) (p : PFC_RMS_SQUARE_T) : PFC_RMS_SQUARE_T :=
  mk (sqrOutput p) (peak p) (samples p) (sampleLimit p) v (sum p).
Definition set_sum (v : Z) (p : PFC_RMS_SQUARE_T) : PFC_RMS_SQUARE_T :=
  mk (sqrOutput p) (peak p) (samples p) (sampleLimit p) (status p) v.
End RMS.
Abbreviation PFC_RMS_SQUARE_T := RMS.PFC_RMS_SQUARE_T.

(** [PFC_PI_T]: PI controller parameters and state. *)
Module PI.
Record PFC_PI_T : Type := mk {
  kp : Z;
  ki : Z;
  kpScale : Z;
  kiScale : Z;
  maxOutput : Z;
  minOutput : Z;
  integralOut : Z;
  reference : Z;
  error : Z;
  output : Z
}.
Definition set_kp (v : Z) (p : PFC_PI_T) : PFC_PI_T :=
  mk v (ki p) (kpScale p) (kiScale p) (maxOutput p) (minOutput p) (integralOut p) (reference p) (error p) (output p).
Definition set_ki (v : Z) (p : PFC_PI_T) : PFC_PI_T :=
  mk (kp p) v (kpScale p) (kiScale p) (maxOutput p) (minOutput p) (integralOut p) (reference p) (error p) (output p).
Definition set_kpScale (v : Z) (p : PFC_PI_T) : PFC_PI_T :=
  mk (kp p) (ki p) v (kiScale p) (maxOutput p) (minOutput p) (integralOut p) (reference p) (error p) (output p).
Definition set_kiScale (v : Z) (p : PFC_PI_T) : PFC_PI_T :=
  mk (kp p) (ki p) (kpScale p) v (maxOutput p) (minOutput p) (integralOut p) (reference p) (error p) (output p).
Definition set_maxOutput (v : Z) (p : PFC_PI_T) : PFC_PI_T :=
  mk (kp p) (ki p) (kpScale p) (kiScale p) v (minOutput p) (integralOut p) (reference p) (error p) (output p).
Definition set_minOutput (v : Z) (p : PFC_PI_T) : PFC_PI_T :=
  mk (kp p) (ki p) (kpScale p) (kiScale p) (maxOutput p) v (integralOut p) (reference p) (error p) (output p).
Definition set_integralOut (v : Z) (p : PFC_PI_T) : PFC_PI_T :=
  mk (kp p) (ki p) (kpScale p) (kiScale p) (maxOutput p) (minOutput p) v (reference p) (error p) (output p).
Definition set_reference (v : Z) (p : PFC_PI_T) : PFC_PI_T :=
  mk (kp p) (ki p) (kpScale p) (kiScale p) (maxOutput p) (minOutput p) (integralOut p) v (error p) (output p).
Definition set_error (v : Z) (p : PFC_PI_T) : PFC_PI_T :=
  mk (kp p) (ki p) (kpScale p) (kiScale p) (maxOutput p) (minOutput p) (integralOut p) (reference p) v (output p).
Definition set_output (v : Z) (p : PFC_PI_T) : PFC_PI_T :=
  mk (kp p) (ki p) (kpScale p) (kiScale p) (maxOutput p) (minOutput p) (integralOut p) (reference p) (error p) v.
End PI.
Abbreviation PFC_PI_T := PI.PFC_PI_T.

(** [PFC_MEASURE_CURRENT_T]: inductor current measurement and its
    calibration result. *)
Module MEASI.
Record PFC_MEASURE_CURRENT_T : Type := mk {
  iL : Z;
  offset : Z;
  status : Z
}.
Definition set_iL (v : Z) (p : PFC_MEASURE_CURRENT_T) : PFC_MEASURE_CURRENT_T :=
  mk v (offset p) (status p).
Definition set_offset (v : Z) (p : PFC_MEASURE_CURRENT_T) : PFC_MEASURE_CURRENT_T :=
  mk (iL p) v (status p).
Definition set_status (v : Z) (p : PFC_MEASURE_CURRENT_T) : PFC_MEASURE_CURRENT_T :=
  mk (iL p) (offset p) v.
End MEASI.
Abbreviation PFC_MEASURE_CURRENT_T := MEASI.PFC_MEASURE_CURRENT_T.

(** [PFC_MEASURE_VOLTAGE_T]: DC-bus and AC-input voltage measurement. *)
Module MEASV.
Record PFC_MEASURE_VOLTAGE_T : Type := mk {
  vdc : Z;
  vac : Z;
  offsetVac : Z
}.
Definition set_vdc (v : Z) (p : PFC_MEASURE_VOLTAGE_T) : PFC_MEASURE_VOLTAGE_T :=
  mk v (vac p) (offsetVac p).
Definition set_vac (v : Z) (p : PFC_MEASURE_VOLTAGE_T) : PFC_MEASURE_VOLTAGE_T :=
  mk (vdc p) v (offsetVac p).
Definition set_offsetVac (v : Z) (p : PFC_MEASURE_VOLTAGE_T) : PFC_MEASURE_VOLTAGE_T :=
  mk (vdc p) (vac p) v.
End MEASV.
Abbreviation PFC_MEASURE_VOLTAGE_T := MEASV.PFC_MEASURE_VOLTAGE_T.

(** [PFC_T]: the control context. *)
Record PFC_T : Type := mkPFC {
  state : PFC_STATE_T;
  faultStatus : Z;
  pfcCurrent : PFC_MEASURE_CURRENT_T;
  pfcVoltage : PFC_MEASURE_VOLTAGE_T;
  vdcAVG : PFC_AVG_T;
  vacAVG : PFC_AVG_T;
  vacRMS : PFC_RMS_SQUARE_T;
  rectifiedVac : Z;
  piVoltage : PFC_PI_T;
  piCurrent : PFC_PI_T;
  rampRate : Z;
  voltLoopExeRate : Z;
  boostDutyRatio : Z;
  iL : Z;
  duty : Z;
  sampleCorrectionEnable : Z;
  averageCurrent : Z;
  currentReference : Z
}.

Definition set_state (v : PFC_STATE_T) (p : PFC_T) : PFC_T :=
  mkPFC v (faultStatus p) (pfcCurrent p) (pfcVoltage p) (vdcAVG p) (vacAVG p)
    (vacRMS p) (rectifiedVac p) (piVoltage p) (piCurrent p) (rampRate p)
    (voltLoopExeRate p) (boostDutyRatio p) (iL p) (duty p)
    (sampleCorrectionEnable p) (averageCurrent p) (currentReference p).
Definition set_faultStatus (v : Z) (p : PFC_T) : PFC_T :=
  mkPFC (state p) v (pfcCurrent p) (pfcVoltage p) (vdcAVG p) (vacAVG p)
    (vacRMS p) (rectifiedVac p) (piVoltage p) (piCurrent p) (rampRate p)
    (voltLoopExeRate p) (boostDutyRatio p) (iL p) (duty p)
    (sampleCorrectionEnable p) (averageCurrent p) (currentReference p).
Definition set_pfcCurrent (v : PFC_MEASURE_CURRENT_T) (p : PFC_T) : PFC_T :=
  mkPFC (state p) (faultStatus p) v (pfcVoltage p) (vdcAVG p) (vacAVG p)
    (vacRMS p) (rectifiedVac p) (piVoltage p) (piCurrent p) (rampRate p)
    (voltLoopExeRate p) (boostDutyRatio p) (iL p) (duty p)
    (sampleCorrectionEnable p) (averageCurrent p) (currentReference p).
Definition set_pfcVoltage (v : PFC_MEASURE_VOLTAGE_T) (p : PFC_T) : PFC_T :=
  mkPFC (state p) (faultStatus p) (pfcCurrent p) v (vdcAVG p) (vacAVG p)
    (vacRMS p) (rectifiedVac p) (piVoltage p) (piCurrent p) (rampRate p)
    (voltLoopExeRate p) (boostDutyRatio p) (iL p) (duty p)
    (sampleCorrectionEnable p) (averageCurrent p) (currentReference p).
Definition set_vdcAVG (v : PFC_AVG_T) (p : PFC_T) : PFC_T :=
  mkPFC (state p) (faultStatus p) (pfcCurrent p) (pfcVoltage p) v (vacAVG p)
    (vacRMS p) (rectifiedVac p) (piVoltage p) (piCurrent p) (rampRate p)
    (voltLoopExeRate p) (boostDutyRatio p) (iL p) (duty p)
    (sampleCorrectionEnable p) (averageCurrent p) (currentReference p).
Definition set_vacAVG (v : PFC_AVG_T) (p : PFC_T) : PFC_T :=
  mkPFC (state p) (faultStatus p) (pfcCurrent p) (pfcVoltage p) (vdcAVG p) v
    (vacRMS p) (rectifiedVac p) (piVoltage p) (piCurrent p) (rampRate p)
    (voltLoopExeRate p) (boostDutyRatio p) (iL p) (duty p)
    (sampleCorrectionEnable p) (averageCurrent p) (currentReference p).
Definition set_vacRMS (v : PFC_RMS_SQUARE_T) (p : PFC_T) : PFC_T :=
  mkPFC (state p) (faultStatus p) (pfcCurrent p) (pfcVoltage p) (vdcAVG p)
    (vacAVG p) v (rectifiedVac p) (piVoltage p) (piCurrent p) (rampRate p)
    (voltLoopExeRate p) (boostDutyRatio p) (iL p) (duty p)
    (sampleCorrectionEnable p) (averageCurrent p) (currentReference p).
Definition set_rectifiedVac (v : Z) (p : PFC_T) : PFC_T :=
  mkPFC (state p) (faultStatus p) (pfcCurrent p) (pfcVoltage p) (vdcAVG p)
    (vacAVG p) (vacRMS p) v (piVoltage p) (piCurrent p) (rampRate p)
    (voltLoopExeRate p) (boostDutyRatio p) (iL p) (duty p)
    (sampleCorrectionEnable p) (averageCurrent p) (currentReference p).
Definition set_piVoltage (v : PFC_PI_T) (p : PFC_T) : PFC_T :=
  mkPFC (state p) (faultStatus p) (pfcCurrent p) (pfcVoltage p) (vdcAVG p)
    (vacAVG p) (vacRMS p) (rectifiedVac p) v (piCurrent p) (rampRate p)
    (voltLoopExeRate p) (boostDutyRatio p) (iL p) (duty p)
    (sampleCorrectionEnable p) (averageCurrent p) (currentReference p).
Definition set_piCurrent (v : PFC_PI_T) (p : PFC_T) : PFC_T :=
  mkPFC (state p) (faultStatus p) (pfcCurrent p) (pfcVoltage p) (vdcAVG p)
    (vacAVG p) (vacRMS p) (rectifiedVac p) (piVoltage p) v (rampRate p)
    (voltLoopExeRate p) (boostDutyRatio p) (iL p) (duty p)
    (sampleCorrectionEnable p) (averageCurrent p) (currentReference p).
Definition set_rampRate (v : Z) (p : PFC_T) : PFC_T :=
  mkPFC (state p) (faultStatus p) (pfcCurrent p) (pfcVoltage p) (vdcAVG p)
    (vacAVG p) (vacRMS p) (rectifiedVac p) (piVoltage p) (piCurrent p) v
    (voltLoopExeRate p) (boostDutyRatio p) (iL p) (duty p)
    (sampleCorrectionEnable p) (averageCurrent p) (currentReference p).
Definition set_voltLoopExeRate (v : Z) (p : PFC_T) : PFC_T :=
  mkPFC (state p) (faultStatus p) (pfcCurrent p) (pfcVoltage p) (vdcAVG p)
    (vacAVG p) (vacRMS p) (rectifiedVac p) (piVoltage p) (piCurrent p)
    (rampRate p) v (boostDutyRatio p) (iL p) (duty p)
    (sampleCorrectionEnable p) (averageCurrent p) (currentReference p).
Definition set_boostDutyRatio (v : Z) (p : PFC_T) : PFC_T :=
  mkPFC (state p) (faultStatus p) (pfcCurrent p) (pfcVoltage p) (vdcAVG p)
    (vacAVG p) (vacRMS p) (rectifiedVac p) (piVoltage p) (piCurrent p)
    (rampRate p) (voltLoopExeRate p) v (iL p) (duty p)
    (sampleCorrectionEnable p) (averageCurrent p) (currentReference p).
Definition set_iL (v : Z) (p : PFC_T) : PFC_T :=
  mkPFC (state p) (faultStatus p) (pfcCurrent p) (pfcVoltage p) (vdcAVG p)
    (vacAVG p) (vacRMS p) (rectifiedVac p) (piVoltage p) (piCurrent p)
    (rampRate p) (voltLoopExeRate p) (boostDutyRatio p) v (duty p)
    (sampleCorrectionEnable p) (averageCurrent p) (currentReference p).
Definition set_duty (v : Z) (p : PFC_T) : PFC_T :=
  mkPFC (state p) (faultStatus p) (pfcCurrent p) (pfcVoltage p) (vdcAVG p)
    (vacAVG p) (vacRMS p) (rectifiedVac p) (piVoltage p) (piCurrent p)
    (rampRate p) (voltLoopExeRate p) (boostDutyRatio p) (iL p) v
    (sampleCorrectionEnable p) (averageCurrent p) (currentReference p).
Definition set_sampleCorrectionEnable (v : Z) (p : PFC_T) : PFC_T :=
  mkPFC (state p) (faultStatus p) (pfcCurrent p) (pfcVoltage p) (vdcAVG p)
    (vacAVG p) (vacRMS p) (rectifiedVac p) (piVoltage p) (piCurrent p)
    (rampRate p) (voltLoopExeRate p) (boostDutyRatio p) (iL p) (duty p) v
    (averageCurrent p) (currentReference p).
Definition set_averageCurrent (v : Z) (p : PFC_T) : PFC_T :=
  mkPFC (state p) (faultStatus p) (pfcCurrent p) (pfcVoltage p) (vdcAVG p)
    (vacAVG p) (vacRMS p) (rectifiedVac p) (piVoltage p) (piCurrent p)
    (rampRate p) (voltLoopExeRate p) (boostDutyRatio p) (iL p) (duty p)
    (sampleCorrectionEnable p) v (currentReference p).
Definition set_currentReference (v : Z) (p : PFC_T) : PFC_T :=
  mkPFC (state p) (faultStatus p) (pfcCurrent p) (pfcVoltage p) (vdcAVG p)
    (vacAVG p) (vacRMS p) (rectifiedVac p) (piVoltage p) (piCurrent p)
    (rampRate p) (voltLoopExeRate p) (boostDutyRatio p) (iL p) (duty p)
    (sampleCorrectionEnable p) (averageCurrent p) v.

(** Samples delivered by the ADC for one interrupt. *)
Record ADCBUF : Type := mkADCBUF {
  ADCBUF_VDC : Z;
  ADCBUF_PFC_VAC : Z;
  ADCBUF_PFC_IL : Z
}.

(** ** PI controller *)

(** Modelled from the spec: PFC_PIController is defined in a file that is
    not among the sources at hand.  The control functions below take the
    controller as a parameter; this model of it follows section 4.4:
    proportional = (error*kp) >> kpScale, integral += (error*ki) >> kiScale
    with the integral accumulator kept within the output bounds, and
    output = clamp(proportional + integral, minOutput, maxOutput); error
    and output are exposed in the structure. *)
Definition PFC_PIController_model (pData : PFC_PI_T) (error : Z) : PFC_PI_T :=
  let pData := PI.set_error error pData in
  let propOut :=
    Z.shiftr (builtin_mulss error (PI.kp pData)) (PI.kpScale pData) in
  let integral :=
    wrap32 (PI.integralOut pData
            + Z.shiftr (builtin_mulss error (PI.ki pData)) (PI.kiScale pData)) in
  let integral :=
    if PI.maxOutput pData <? integral then PI.maxOutput pData
    else if integral <? PI.minOutput pData then PI.minOutput pData
    else integral in
  let pData := PI.set_integralOut integral pData in
  let out := propOut + integral in
  let out :=
    if PI.maxOutput pData <? out then PI.maxOutput pData
    else if out <? PI.minOutput pData then PI.minOutput pData
    else out in
  PI.set_output (wrap16 out) pData.

(** ** Configuration

    Modelled from the spec: the header pfc.h, which defines the macros
    below, and the current-offset calibration routines are not part of the
    sources at hand, and neither is the PI controller.  The macros are
    taken as parameters; the two calibration routines act on the
    current-measurement structure they are handed and on nothing else, the
    PI controller on the PI structure it is handed. *)
Class PFC_Config : Type := {
  PFC_FAULT_NONE : Z;
  PFC_FAULT_OP_OV : Z;
  PFC_FAULT_IP_UV : Z;
  PFC_FAULT_IP_OV : Z;
  PFC_OUTPUT_OVER_VOLTAGE_LIMIT : Z;
  PFC_INPUT_UNDER_VOLTAGE_LIMIT_LO : Z;
  PFC_INPUT_UNDER_VOLTAGE_LIMIT_HI : Z;
  PFC_INPUT_OVER_VOLTAGE_LIMIT_LO : Z;
  PFC_INPUT_OVER_VOLTAGE_LIMIT_HI : Z;
  PFC_OUPUT_VOLTAGE_REFERENCE : Z;
  RAMP_COUNT : Z;
  RAMP_RATE : Z;
  PFC_MIN_CURRENTREF_PEAK_Q15 : Z;
  PFC_LOOPTIME_TCY : Z;
  PFC_MAX_DUTY : Z;
  PFC_MIN_DUTY : Z;
  KI_I_INTGRAL_OUT_MAX : Z;
  VOLTAGE_LOOP_EXE_RATE : Z;
  KP_V : Z;
  KI_V : Z;
  KP_V_SCALE : Z;
  KI_V_SCALE : Z;
  KP_I : Z;
  KI_I : Z;
  KP_I_SCALE : Z;
  KI_I_SCALE : Z;
  KMUL : Z;
  PFC_RMS_SQUARE_COUNTMAX : Z;
  PFC_AVG_SCALER : Z;
  PFC_INPUT_FREQUENCY_COUNTER : Z;
  Q15_0_9999 : Z; (* Q15(0.9999) *)
  Q15_0_999 : Z; (* Q15(0.999) *)
  DEBUG_PFC_DUTY : Z;
  (* conditional compilation *)
  ENABLE_PFC_CURRENT_OFFSET_CORRECTION : bool;
  PFC_POWER_CONTROL : bool;
  DEBUG_BOOST : bool;
  (* PI controller: void PFC_PIController(PFC_PI_T *, int16_t) *)
  PFC_PIController : PFC_PI_T -> Z -> PFC_PI_T;
  (* calibration collaborator *)
  PFC_MeasureCurrentInit : PFC_MEASURE_CURRENT_T -> PFC_MEASURE_CURRENT_T;
  PFC_MeasureCurrentOffset : PFC_MEASURE_CURRENT_T -> PFC_MEASURE_CURRENT_T
}.

(** ** The control functions *)

Section Control.

Context {cfg : PFC_Config}.

(** [PFC_Average]: moving average of an input signal. *)
Definition PFC_Average (pData : PFC_AVG_T) (input : Z) : M PFC_AVG_T :=
  let pData := AVG.set_sum (wrap32 (AVG.sum pData + input)) pData in
  let pData := AVG.set_samples (wrap16 (AVG.samples pData + 1)) pData in
  if AVG.sampleLimit pData <=? AVG.samples pData then
    q <- builtin_divsd (AVG.sum pData) (AVG.sampleLimit pData) ;;
    let pData := AVG.set_output (wrap16 q) pData in
    let pData := AVG.set_status 1 pData in
    let pData := AVG.set_sum 0 pData in
    let pData := AVG.set_samples 0 pData in
    ret pData
  else ret pData.

(** [PFC_SquaredRMSCalculate]: mean of the squared input signal. *)
Definition PFC_SquaredRMSCalculate (pData : PFC_RMS_SQUARE_T) (input : Z)
  : M PFC_RMS_SQUARE_T :=
  let pData :=
    RMS.set_sum
      (wrap32 (RMS.sum pData
               + wrap16 (Z.shiftr (builtin_mulss input input) 15))) pData in
  if RMS.samples pData <? RMS.sampleLimit pData then
    ret (RMS.set_samples (wrap16 (RMS.samples pData + 1)) pData)
  else
    q <- builtin_divsd (RMS.sum pData) (RMS.sampleLimit pData) ;;
    let pData := RMS.set_sqrOutput (wrap16 q) pData in
    let pData := RMS.set_status 1 pData in
    let pData := RMS.set_samples 0 pData in
    let pData := RMS.set_sum 0 pData in
    ret pData.

(** [PFC_SignalRectification]: rectified input AC voltage. *)
Definition PFC_SignalRectification (pSignal : PFC_MEASURE_VOLTAGE_T) : Z :=
  let output := wrap16 (MEASV.vac pSignal - MEASV.offsetVac pSignal) in
  if output <? 0 then wrap16 (- output) else output.

(** [PFC_FaultCheck]: accumulate the fault bits of the detected conditions. *)
Definition PFC_FaultCheck (pData : PFC_T) : PFC_T :=
  let pData :=
    if PFC_OUTPUT_OVER_VOLTAGE_LIMIT <=? AVG.output (vdcAVG pData)
    then set_faultStatus (wrapU16 (faultStatus pData + PFC_FAULT_OP_OV)) pData
    else pData in
  let pData :=
    if RMS.sqrOutput (vacRMS pData) <? PFC_INPUT_UNDER_VOLTAGE_LIMIT_LO
    then set_faultStatus (wrapU16 (faultStatus pData + PFC_FAULT_IP_UV)) pData
    else pData in
  let pData :=
    if PFC_INPUT_OVER_VOLTAGE_LIMIT_HI <=? RMS.sqrOutput (vacRMS pData)
    then set_faultStatus (wrapU16 (faultStatus pData + PFC_FAULT_IP_OV)) pData
    else pData in
  pData.

(** [PFC_ParamsInit]: initialise the control parameters. *)
Definition PFC_ParamsInit (pfcData : PFC_T) : PFC_T :=
  let pfcData :=
    set_vacRMS (RMS.set_sampleLimit (wrap16 PFC_RMS_SQUARE_COUNTMAX)
                  (vacRMS pfcData)) pfcData in
  let pfcData :=
    set_vdcAVG (AVG.set_scaler (wrap16 PFC_AVG_SCALER) (vdcAVG pfcData))
      pfcData in
  let pfcData :=
    set_vdcAVG (AVG.set_sampleLimit
                  (wrap16 (Z.shiftl 1 (AVG.scaler (vdcAVG pfcData))))
                  (vdcAVG pfcData)) pfcData in
  let pfcData :=
    set_vacAVG (AVG.set_sampleLimit (wrap16 PFC_INPUT_FREQUENCY_COUNTER)
                  (vacAVG pfcData)) pfcData in
  let piCurrent' :=
    PI.set_minOutput 0
      (PI.set_maxOutput INT16_MAX
         (PI.set_kiScale (wrap16 KI_I_SCALE)
            (PI.set_kpScale (wrap16 KP_I_SCALE)
               (PI.set_ki (wrap16 KI_I)
                  (PI.set_kp (wrap16 KP_I) (piCurrent pfcData)))))) in
  let pfcData := set_piCurrent piCurrent' pfcData in
  let piVoltage' :=
    PI.set_minOutput 0
      (PI.set_maxOutput INT16_MAX
         (PI.set_kiScale (wrap16 KI_V_SCALE)
            (PI.set_kpScale (wrap16 KP_V_SCALE)
               (PI.set_ki (wrap16 KI_V)
                  (PI.set_kp (wrap16 KP_V) (piVoltage pfcData)))))) in
  let pfcData := set_piVoltage piVoltage' pfcData in
  let pfcData := set_state PFC_INIT pfcData in
  let pfcData := set_faultStatus (wrapU16 PFC_FAULT_NONE) pfcData in
  set_sampleCorrectionEnable 0 pfcData.

(** [PFC_ResetParams]: reset the filters, the integrators and the duty. *)
Definition PFC_ResetParams (pData : PFC_T) : PFC_T :=
  let pData :=
    set_vdcAVG (AVG.set_status 0
                  (AVG.set_samples 0 (AVG.set_sum 0 (vdcAVG pData)))) pData in
  let pData :=
    set_vacAVG (AVG.set_samples 0 (AVG.set_sum 0 (vacAVG pData))) pData in
  let pData :=
    set_vacRMS (RMS.set_status 0
                  (RMS.set_peak 0
                     (RMS.set_samples 0 (RMS.set_sum 0 (vacRMS pData)))))
      pData in
  let pData :=
    set_piVoltage (PI.set_integralOut 0 (piVoltage pData)) pData in
  let pData :=
    set_piCurrent (PI.set_integralOut 0 (piCurrent pData)) pData in
  set_duty 0 pData.

(** [PFC_CurrentSampleCorrection]: average current in discontinuous
    conduction mode. *)
Definition PFC_CurrentSampleCorrection (pData : PFC_T) : M Z :=
  let output := Q15_0_9999 in
  output <-
    (if 0 <? boostDutyRatio pData
     then builtin_divf (PI.output (piCurrent pData)) (boostDutyRatio pData)
     else ret output) ;;
  if 0 <? output
  then ret (wrap16 (Z.shiftr (builtin_mulss (iL pData) output) 15))
  else ret (iL pData).

(** [PFC_CurrentControlLoop]: current control loop and duty computation. *)
Definition PFC_CurrentControlLoop (pData : PFC_T) : M PFC_T :=
  let pData := if iL pData <? 0 then set_iL 1 pData else pData in
  pData <-
    (if sampleCorrectionEnable pData =? 1
     then avg <- PFC_CurrentSampleCorrection pData ;;
          ret (set_averageCurrent avg pData)
     else ret (set_averageCurrent (iL pData) pData)) ;;
  let pData :=
    set_piCurrent
      (PFC_PIController (piCurrent pData)
         (wrap16 (currentReference pData - averageCurrent pData))) pData in
  let duty' :=
    wrapU16
      (Z.shiftr (builtin_mulss (PI.output (piCurrent pData)) PFC_LOOPTIME_TCY)
         15) in
  if PFC_MAX_DUTY <? duty' then
    let pData := set_duty (wrapU16 PFC_MAX_DUTY) pData in
    ret (set_piCurrent
           (PI.set_integralOut (wrap32 KI_I_INTGRAL_OUT_MAX) (piCurrent pData))
           pData)
  else if duty' <? PFC_MIN_DUTY then
    ret (set_duty (wrapU16 PFC_MIN_DUTY) pData)
  else
    ret (set_duty duty' pData).

(** [PFC_CurrentRefGenerate]: decimated voltage loop and current reference
    for the current control loop. *)
Definition PFC_CurrentRefGenerate (pData : PFC_T) : M PFC_T :=
  let pData :=
    if VOLTAGE_LOOP_EXE_RATE <? voltLoopExeRate pData then
      let pData :=
        set_piVoltage
          (PI.set_error
             (wrap16 (PI.reference (piVoltage pData)
                      - AVG.output (vdcAVG pData))) (piVoltage pData))
          pData in
      let pData :=
        if (700 <? PI.error (piVoltage pData))
           || (PI.error (piVoltage pData) <? -700)
        then set_piVoltage
               (PI.set_ki (wrap16 (Z.shiftr KI_V 1)) (piVoltage pData)) pData
        else set_piVoltage (PI.set_ki (wrap16 KI_V) (piVoltage pData)) pData in
      let pData :=
        set_piVoltage
          (PFC_PIController (piVoltage pData) (PI.error (piVoltage pData)))
          pData in
      set_voltLoopExeRate 0 pData
    else
      set_voltLoopExeRate (wrapU16 (voltLoopExeRate pData + 1)) pData in
  pData <-
    (if PFC_POWER_CONTROL then
       let tempResult :=
         wrap16 (Z.shiftr
                   (builtin_mulss (PI.output (piVoltage pData))
                      (rectifiedVac pData)) 18) in
       tempResult <-
         (if 0 <? RMS.sqrOutput (vacRMS pData)
          then builtin_divf tempResult (RMS.sqrOutput (vacRMS pData))
          else ret tempResult) ;;
       ret (set_currentReference
              (wrap16 (Z.shiftr (builtin_mulss tempResult KMUL) 12)) pData)
     else ret pData) ;;
  if Q15_0_999 <? currentReference pData
  then ret (set_currentReference (wrap16 Q15_0_999) pData)
  else if currentReference pData <? 0
  then ret (set_currentReference 0 pData)
  else ret pData.

(** The signal conditioning that opens every call of [PFC_StateMachine]:
    both moving averages, the rectifier and the mean-square accumulator. *)
Definition PFC_SignalConditioning (pfcData : PFC_T) : M PFC_T :=
  vdcAVG' <- PFC_Average (vdcAVG pfcData) (MEASV.vdc (pfcVoltage pfcData)) ;;
  let pfcData := set_vdcAVG vdcAVG' pfcData in
  vacAVG' <- PFC_Average (vacAVG pfcData) (MEASV.vac (pfcVoltage pfcData)) ;;
  let pfcData := set_vacAVG vacAVG' pfcData in
  let pfcData :=
    set_pfcVoltage
      (MEASV.set_offsetVac (AVG.output (vacAVG pfcData)) (pfcVoltage pfcData))
      pfcData in
  let pfcData :=
    set_rectifiedVac (PFC_SignalRectification (pfcVoltage pfcData)) pfcData in
  vacRMS' <- PFC_SquaredRMSCalculate (vacRMS pfcData) (rectifiedVac pfcData) ;;
  ret (set_vacRMS vacRMS' pfcData).

(** The soft start of the voltage reference (case PFC_CTRL_RUN). *)
Definition PFC_SoftStart (pfcData : PFC_T) : PFC_T :=
  if PI.reference (piVoltage pfcData) <? PFC_OUPUT_VOLTAGE_REFERENCE then
    if rampRate pfcData =? 0 then
      let pfcData :=
        set_piVoltage
          (PI.set_reference
             (wrap16 (PI.reference (piVoltage pfcData) + RAMP_COUNT))
             (piVoltage pfcData)) pfcData in
      set_rampRate (wrapU16 RAMP_RATE) pfcData
    else set_rampRate (wrapU16 (rampRate pfcData - 1)) pfcData
  else
    set_piVoltage
      (PI.set_reference (wrap16 PFC_OUPUT_VOLTAGE_REFERENCE)
         (piVoltage pfcData)) pfcData.

(** The body of case PFC_CTRL_RUN once no fault has been detected. *)
Definition PFC_RunNoFault (pfcData : PFC_T) : M PFC_T :=
  let pfcData := PFC_SoftStart pfcData in
  pfcData <- PFC_CurrentRefGenerate pfcData ;;
  pfcData <-
    (if 0 <? MEASV.vdc (pfcVoltage pfcData) then
       r <- builtin_divf
              (wrap16 (MEASV.vdc (pfcVoltage pfcData) - rectifiedVac pfcData))
              (MEASV.vdc (pfcVoltage pfcData)) ;;
       ret (set_boostDutyRatio r pfcData)
     else ret pfcData) ;;
  pfcData <- PFC_CurrentControlLoop pfcData ;;
  if PI.output (piVoltage pfcData) <? PFC_MIN_CURRENTREF_PEAK_Q15 then
    let pfcData := set_duty 0 pfcData in
    ret (set_piCurrent (PI.set_integralOut 0 (piCurrent pfcData)) pfcData)
  else ret pfcData.

(** Case PFC_CTRL_RUN of the state switch. *)
Definition PFC_CaseCtrlRun (pfcData : PFC_T) : M (PFC_T * PFC_STATE_T) :=
  let pfcData :=
    if ENABLE_PFC_CURRENT_OFFSET_CORRECTION
    then set_iL (wrap16 (MEASI.iL (pfcCurrent pfcData)
                         - MEASI.offset (pfcCurrent pfcData))) pfcData
    else pfcData in
  let pfcData := PFC_FaultCheck pfcData in
  if faultStatus pfcData =? PFC_FAULT_NONE then
    pfcData <- PFC_RunNoFault pfcData ;;
    ret (pfcData, PFC_CTRL_RUN)
  else ret (pfcData, PFC_FAULT).

(** Case PFC_FAULT of the state switch. *)
Definition PFC_CaseFault (pfcData : PFC_T) : M (PFC_T * PFC_STATE_T) :=
  let pfcData := set_duty 0 pfcData in
  emit HAL_PFCPWMDisableOutputs ;;;
  let pfcData :=
    if PFC_INPUT_UNDER_VOLTAGE_LIMIT_HI <=? RMS.sqrOutput (vacRMS pfcData)
    then set_faultStatus
           (wrapU16 (Z.land (faultStatus pfcData) (Z.lnot PFC_FAULT_IP_UV)))
           pfcData
    else pfcData in
  let pfcData :=
    if RMS.sqrOutput (vacRMS pfcData) <? PFC_INPUT_OVER_VOLTAGE_LIMIT_LO
    then set_faultStatus
           (wrapU16 (Z.land (faultStatus pfcData) (Z.lnot PFC_FAULT_IP_OV)))
           pfcData
    else pfcData in
  if faultStatus pfcData =? PFC_FAULT_NONE then
    let pfcData :=
      set_piVoltage (PI.set_integralOut 0 (piVoltage pfcData)) pfcData in
    let pfcData :=
      set_piCurrent (PI.set_integralOut 0 (piCurrent pfcData)) pfcData in
    let pfcData :=
      set_piVoltage
        (PI.set_reference (AVG.output (vdcAVG pfcData)) (piVoltage pfcData))
        pfcData in
    emit HAL_PFCPWMEnableOutputs ;;;
    ret (pfcData, PFC_CTRL_RUN)
  else ret (pfcData, PFC_FAULT).

(** The state switch of [PFC_StateMachine]: the context after the case
    of [pfcState] and the next state. *)
Definition PFC_StateSwitch (pfcState : PFC_STATE_T) (pfcData : PFC_T)
  : M (PFC_T * PFC_STATE_T) :=
  match pfcState with
  | PFC_INIT =>
      let pfcData := PFC_ResetParams pfcData in
      emit HAL_PFCPWMDisableOutputs ;;;
      let pfcData :=
        set_pfcCurrent (PFC_MeasureCurrentInit (pfcCurrent pfcData))
          pfcData in
      ret (pfcData, PFC_OFFSET_MEAS)
  | PFC_OFFSET_MEAS =>
      let pfcData :=
        set_pfcCurrent (PFC_MeasureCurrentOffset (pfcCurrent pfcData))
          pfcData in
      if (MEASI.status (pfcCurrent pfcData) =? 1)
         && (AVG.status (vacAVG pfcData) =? 1)
      then
        let pfcData :=
          set_piVoltage
            (PI.set_reference (AVG.output (vdcAVG pfcData))
               (piVoltage pfcData)) pfcData in
        let pfcData :=
          set_pfcVoltage
            (MEASV.set_offsetVac (AVG.output (vacAVG pfcData))
               (pfcVoltage pfcData)) pfcData in
        ret (pfcData, PFC_WAIT_1CYCLE)
      else ret (pfcData, PFC_OFFSET_MEAS)
  | PFC_WAIT_1CYCLE =>
      if RMS.status (vacRMS pfcData) =? 1 then
        emit HAL_PFCPWMEnableOutputs ;;;
        ret (pfcData, PFC_CTRL_RUN)
      else ret (pfcData, PFC_WAIT_1CYCLE)
  | PFC_CTRL_RUN => PFC_CaseCtrlRun pfcData
  | PFC_FAULT => PFC_CaseFault pfcData
  | PFC_STATE_OTHER => ret (pfcData, PFC_STATE_OTHER)
  end.

(** [PFC_StateMachine]: one control cycle. *)
Definition PFC_StateMachine (pfcData : PFC_T) : M PFC_T :=
  let pfcState := state pfcData in
  pfcData <- PFC_SignalConditioning pfcData ;;
  r <- PFC_StateSwitch pfcState pfcData ;;
  ret (set_state (snd r) (fst r)).

(** The samples of the ADC buffers, loaded into the control context. *)
Definition PFC_LoadSamples (adc : ADCBUF) (pfcParam : PFC_T) : PFC_T :=
  let pfcParam :=
    set_pfcVoltage
      (MEASV.set_vdc (wrap16 (ADCBUF_VDC adc)) (pfcVoltage pfcParam))
      pfcParam in
  let pfcParam :=
    set_pfcVoltage
      (MEASV.set_vac (wrap16 (ADCBUF_PFC_VAC adc)) (pfcVoltage pfcParam))
      pfcParam in
  set_pfcCurrent
    (MEASI.set_iL (wrap16 (ADCBUF_PFC_IL adc)) (pfcCurrent pfcParam))
    pfcParam.

(** [PFC_ADCInterrupt]: load the samples, run the state machine and write
    the duty register. *)
Definition PFC_ADCInterrupt (adc : ADCBUF) (pfcParam : PFC_T) : M PFC_T :=
  let pfcParam := PFC_LoadSamples adc pfcParam in
  pfcParam <- PFC_StateMachine pfcParam ;;
  pfcParam <-
    (if DEBUG_BOOST then
       emit PFC_ENABLE_SIGNAL_high ;;;
       ret (set_duty (wrapU16 DEBUG_PFC_DUTY) pfcParam)
     else ret pfcParam) ;;
  emit (PFC_PWM_PDC_write (duty pfcParam)) ;;;
  ret pfcParam.

(** The control contexts the device can be in: [PFC_ServiceInit] runs
    [PFC_ParamsInit] on the (arbitrary) initial content of the context, and
    every ADC interrupt then runs one cycle on fresh samples. *)
Inductive reachable : PFC_T -> Prop :=
| reachable_init (p0 : PFC_T) : reachable (PFC_ParamsInit p0)
| reachable_cycle (p : PFC_T) (adc : ADCBUF) (p' : PFC_T) (l : list event) :
    reachable p -> PFC_ADCInterrupt adc p = Some (p', l) -> reachable p'.

(** [ok m Q]: the computation [m] returns without a trap, every division
    it performs has a strictly positive divisor, and its result
    satisfies [Q]. *)
Definition ok {A : Type} (m : M A) (Q : A -> Prop) : Prop :=
  exists a l, m = Some (a, l) /\ Forall positive_divisor l /\ Q a.

(** The fields written by [PFC_SignalConditioning]. *)
Definition conditioning_frame (p p' : PFC_T) : Prop :=
  p' = set_vacRMS (vacRMS p')
         (set_rectifiedVac (rectifiedVac p')
            (set_pfcVoltage
               (MEASV.set_offsetVac (MEASV.offsetVac (pfcVoltage p'))
                  (pfcVoltage p))
               (set_vacAVG (vacAVG p') (set_vdcAVG (vdcAVG p') p)))).

(** The fields written by [PFC_CurrentRefGenerate]. *)
Definition current_ref_frame (p p' : PFC_T) : Prop :=
  p' = set_currentReference (currentReference p')
         (set_voltLoopExeRate (voltLoopExeRate p')
            (set_piVoltage (piVoltage p') p)).

(** The fields written by [PFC_CurrentControlLoop]. *)
Definition current_loop_frame (p p' : PFC_T) : Prop :=
  p' = set_duty (duty p')
         (set_piCurrent (piCurrent p')
            (set_averageCurrent (averageCurrent p') (set_iL (iL p') p))).

(** The fields written by [PFC_RunNoFault]. *)
Definition run_frame (p p' : PFC_T) : Prop :=
  p' = set_duty (duty p')
         (set_piCurrent (piCurrent p')
            (set_averageCurrent (averageCurrent p')
               (set_iL (iL p')
                  (set_boostDutyRatio (boostDutyRatio p')
                     (set_currentReference (currentReference p')
                        (set_voltLoopExeRate (voltLoopExeRate p')
                           (set_piVoltage (piVoltage p')
                              (set_rampRate (rampRate p') p)))))))).

(** The PI controller leaves the reference of its structure alone. *)
Definition PIController_keeps_reference : Prop :=
  forall (q : PFC_PI_T) (e : Z),
    PI.reference (PFC_PIController q e) = PI.reference q.

(** The fault bits are pairwise disjoint and fit the 16-bit fault status;
    the empty status is 0. *)
Definition fault_bits_disjoint : Prop :=
  PFC_FAULT_NONE = 0
  /\ 0 <= PFC_FAULT_OP_OV /\ 0 <= PFC_FAULT_IP_UV /\ 0 <= PFC_FAULT_IP_OV
  /\ PFC_FAULT_OP_OV + PFC_FAULT_IP_UV + PFC_FAULT_IP_OV <= 65535
  /\ Z.land PFC_FAULT_OP_OV PFC_FAULT_IP_UV = 0
  /\ Z.land PFC_FAULT_OP_OV PFC_FAULT_IP_OV = 0
  /\ Z.land PFC_FAULT_IP_UV PFC_FAULT_IP_OV = 0.

(** The fields written by case PFC_FAULT. *)
Definition fault_frame (p p' : PFC_T) : Prop :=
  p' = set_piCurrent (piCurrent p')
         (set_piVoltage (piVoltage p')
            (set_faultStatus (faultStatus p') (set_duty (duty p') p))).

(** The window lengths of the three filters. *)
Definition window_lengths (p : PFC_T) : Z * Z * Z :=
  (AVG.sampleLimit (vdcAVG p), AVG.sampleLimit (vacAVG p),
   RMS.sampleLimit (vacRMS p)).

(** The window lengths that [PFC_ParamsInit] configures are positive. *)
Definition windows_positive : Prop :=
  0 < wrap16 PFC_RMS_SQUARE_COUNTMAX
  /\ 0 < wrap16 (Z.shiftl 1 (wrap16 PFC_AVG_SCALER))
  /\ 0 < wrap16 PFC_INPUT_FREQUENCY_COUNTER.

(** The three filters have a positive window length. *)
Definition filters_configured (pfcData : PFC_T) : Prop :=
  0 < AVG.sampleLimit (vdcAVG pfcData)
  /\ 0 < AVG.sampleLimit (vacAVG pfcData)
  /\ 0 < RMS.sampleLimit (vacRMS pfcData).

(** The bitwise union of a selection of the three fault bits. *)
Definition fault_union (op_ov ip_uv ip_ov : bool) : Z :=
  Z.lor (if op_ov then PFC_FAULT_OP_OV else 0)
    (Z.lor (if ip_uv then PFC_FAULT_IP_UV else 0)
       (if ip_ov then PFC_FAULT_IP_OV else 0)).

(** The empty fault status goes with every state but PFC_FAULT, and the
    fault status is a bitwise union of fault bits. *)
Definition fault_invariant (st : PFC_STATE_T) (p : PFC_T) : Prop :=
  (st <> PFC_FAULT -> faultStatus p = PFC_FAULT_NONE)
  /\ exists a b c, faultStatus p = fault_union a b c.

(** Some bit of the mask [bit] is set in the fault status. *)
Definition fault_bit_set (bit : Z) (pfcData : PFC_T) : Prop :=
  Z.land (faultStatus pfcData) bit <> 0.

(** One interrupt that starts and ends in PFC_CTRL_RUN: a cycle in which
    no fault is detected. *)
Definition fault_free_cycle (p p' : PFC_T) : Prop :=
  state p = PFC_CTRL_RUN /\ state p' = PFC_CTRL_RUN
  /\ exists adc l, PFC_ADCInterrupt adc p = Some (p', l).

(** [n] consecutive fault-free cycles. *)
Inductive fault_free_run : nat -> PFC_T -> PFC_T -> Prop :=
| fault_free_run_O (p : PFC_T) : fault_free_run O p p
| fault_free_run_S (n : nat) (p p' p'' : PFC_T) :
    fault_free_cycle p p' -> fault_free_run n p' p'' ->
    fault_free_run (S n) p p''.

(** The interrupts of a list of successive samples. *)
Fixpoint PFC_Cycles (adcs : list ADCBUF) (p : PFC_T) : M PFC_T :=
  match adcs with
  | [] => ret p
  | adc :: adcs' => p' <- PFC_ADCInterrupt adc p ;; PFC_Cycles adcs' p'
  end.

(** State and soft-start reference at the end of a computation. *)
Definition state_and_reference (m : M PFC_T) : option (PFC_STATE_T * Z) :=
  option_map (fun r => (state (fst r), PI.reference (piVoltage (fst r)))) m.

(** The successive samples of a list fed to a filter. *)
Fixpoint feed_samples {A : Type} (f : A -> Z -> M A) (xs : list Z) (a : A)
  : M A :=
  match xs with
  | [] => ret a
  | x :: xs' => a' <- f a x ;; feed_samples f xs' a'
  end.

(** [n] successive calls of a function of the control context. *)
Fixpoint repeat_M {A : Type} (f : A -> M A) (n : nat) (a : A) : M A :=
  match n with
  | O => ret a
  | S n' => a' <- f a ;; repeat_M f n' a'
  end.

(** Sum of a list of samples. *)
Definition Zsum (xs : list Z) : Z := fold_right Z.add 0 xs.

(** The moving-average filter is inside a window: the sample counter is
    below the window length and the sum is that of so many 16-bit
    samples. *)
Definition avg_in_window (p : PFC_AVG_T) : Prop :=
  1 <= AVG.sampleLimit p <= 32767
  /\ 0 <= AVG.samples p < AVG.sampleLimit p
  /\ -32768 * AVG.samples p <= AVG.sum p <= 32767 * AVG.samples p.

(** A squared-RMS accumulator inside a window: the window length fits
    the 16-bit counter, the counter has not passed it, and the sum is
    bounded by the accumulated scaled squares. *)
Definition rms_in_window (p : PFC_RMS_SQUARE_T) : Prop :=
  1 <= RMS.sampleLimit p <= 32767
  /\ 0 <= RMS.samples p <= RMS.sampleLimit p
  /\ 0 <= RMS.sum p <= 32767 * RMS.samples p.

(** The state changes that one cycle can make. *)
Definition allowed_transition (s s' : PFC_STATE_T) : bool :=
  match s, s' with
  | PFC_INIT, PFC_OFFSET_MEAS
  | PFC_OFFSET_MEAS, PFC_OFFSET_MEAS
  | PFC_OFFSET_MEAS, PFC_WAIT_1CYCLE
  | PFC_WAIT_1CYCLE, PFC_WAIT_1CYCLE
  | PFC_WAIT_1CYCLE, PFC_CTRL_RUN
  | PFC_CTRL_RUN, PFC_CTRL_RUN
  | PFC_CTRL_RUN, PFC_FAULT
  | PFC_FAULT, PFC_FAULT
  | PFC_FAULT, PFC_CTRL_RUN
  | PFC_STATE_OTHER, PFC_STATE_OTHER => true
  | _, _ => false
  end.

(** An event is a hardware division. *)
Definition is_division (e : event) : bool :=
  match e with
  | DivF _ _ | DivSD _ _ => true
  | _ => false
  end.

(** A computation whose events are hardware divisions only. *)
Definition divisions_only {A : Type} (m : M A) : Prop :=
  forall a l, m = Some (a, l) -> forallb is_division l = true.

(** The writes of the PWM duty register, in order. *)
Definition pdc_writes (l : list event) : list Z :=
  flat_map (fun e => match e with
                     | PFC_PWM_PDC_write d => [d]
                     | _ => []
                     end) l.

(** A duty that is 0 or within the duty limits. *)
Definition duty_admissible (d : Z) : Prop :=
  d = 0 \/ PFC_MIN_DUTY <= d <= PFC_MAX_DUTY.

(** The duty limits are ordered and fit the 16-bit duty. *)
Definition duty_limits_ordered : Prop :=
  0 <= PFC_MIN_DUTY /\ PFC_MIN_DUTY <= PFC_MAX_DUTY /\ PFC_MAX_DUTY <= 65535.

(** [n] calls of a filter on the same input. *)
Fixpoint repeat_call {A : Type} (f : A -> Z -> M A) (n : nat) (a : A) (x : Z)
  : M A :=
  match n with
  | O => ret a
  | S n' => a' <- f a x ;; repeat_call f n' a' x
  end.

End Control.

(** ** An example configuration

    Modelled from the spec: the values of the macros of pfc.h are not
    known; this configuration gives them values that respect what the
    spec says of them (disjoint power-of-two fault bits, hysteretic
    recovery thresholds, MIN_DUTY below MAX_DUTY).  The calibration
    stand-ins take the present current sample as offset and report ready
    at once.  It is used to run the control functions on concrete
    inputs. *)
Definition example_config : PFC_Config := {|
  PFC_FAULT_NONE := 0;
  PFC_FAULT_OP_OV := 1;
  PFC_FAULT_IP_UV := 2;
  PFC_FAULT_IP_OV := 4;
  PFC_OUTPUT_OVER_VOLTAGE_LIMIT := 28000;
  PFC_INPUT_UNDER_VOLTAGE_LIMIT_LO := 300;
  PFC_INPUT_UNDER_VOLTAGE_LIMIT_HI := 400;
  PFC_INPUT_OVER_VOLTAGE_LIMIT_LO := 9000;
  PFC_INPUT_OVER_VOLTAGE_LIMIT_HI := 10000;
  PFC_OUPUT_VOLTAGE_REFERENCE := 25000;
  RAMP_COUNT := 10;
  RAMP_RATE := 50;
  PFC_MIN_CURRENTREF_PEAK_Q15 := 100;
  PFC_LOOPTIME_TCY := 2000;
  PFC_MAX_DUTY := 1900;
  PFC_MIN_DUTY := 0;
  KI_I_INTGRAL_OUT_MAX := 30000;
  VOLTAGE_LOOP_EXE_RATE := 20;
  KP_V := 8000;
  KI_V := 200;
  KP_V_SCALE := 1;
  KI_V_SCALE := 4;
  KP_I := 6000;
  KI_I := 400;
  KP_I_SCALE := 1;
  KI_I_SCALE := 4;
  KMUL := 3000;
  PFC_RMS_SQUARE_COUNTMAX := 400;
  PFC_AVG_SCALER := 4;
  PFC_INPUT_FREQUENCY_COUNTER := 400;
  Q15_0_9999 := 32764;
  Q15_0_999 := 32734;
  DEBUG_PFC_DUTY := 0;
  ENABLE_PFC_CURRENT_OFFSET_CORRECTION := true;
  PFC_POWER_CONTROL := true;
  DEBUG_BOOST := false;
  PFC_PIController := PFC_PIController_model;
  PFC_MeasureCurrentInit :=
    fun p => MEASI.set_status 0 (MEASI.set_offset 0 p);
  PFC_MeasureCurrentOffset :=
    fun p => MEASI.set_status 1 (MEASI.set_offset (MEASI.iL p) p)
|}.

(** The example configuration with the window length of the AC-input
    filter set to 0. *)
Definition zero_window_config : PFC_Config := {|
  PFC_FAULT_NONE := 0;
  PFC_FAULT_OP_OV := 1;
  PFC_FAULT_IP_UV := 2;
  PFC_FAULT_IP_OV := 4;
  PFC_OUTPUT_OVER_VOLTAGE_LIMIT := 28000;
  PFC_INPUT_UNDER_VOLTAGE_LIMIT_LO := 300;
  PFC_INPUT_UNDER_VOLTAGE_LIMIT_HI := 400;
  PFC_INPUT_OVER_VOLTAGE_LIMIT_LO := 9000;
  PFC_INPUT_OVER_VOLTAGE_LIMIT_HI := 10000;
  PFC_OUPUT_VOLTAGE_REFERENCE := 25000;
  RAMP_COUNT := 10;
  RAMP_RATE := 50;
  PFC_MIN_CURRENTREF_PEAK_Q15 := 100;
  PFC_LOOPTIME_TCY := 2000;
  PFC_MAX_DUTY := 1900;
  PFC_MIN_DUTY := 0;
  KI_I_INTGRAL_OUT_MAX := 30000;
  VOLTAGE_LOOP_EXE_RATE := 20;
  KP_V := 8000;
  KI_V := 200;
  KP_V_SCALE := 1;
  KI_V_SCALE := 4;
  KP_I := 6000;
  KI_I := 400;
  KP_I_SCALE := 1;
  KI_I_SCALE := 4;
  KMUL := 3000;
  PFC_RMS_SQUARE_COUNTMAX := 400;
  PFC_AVG_SCALER := 4;
  PFC_INPUT_FREQUENCY_COUNTER := 0;
  Q15_0_9999 := 32764;
  Q15_0_999 := 32734;
  DEBUG_PFC_DUTY := 0;
  ENABLE_PFC_CURRENT_OFFSET_CORRECTION := true;
  PFC_POWER_CONTROL := true;
  DEBUG_BOOST := false;
  PFC_PIController := PFC_PIController_model;
  PFC_MeasureCurrentInit :=
    fun p => MEASI.set_status 0 (MEASI.set_offset 0 p);
  PFC_MeasureCurrentOffset :=
    fun p => MEASI.set_status 1 (MEASI.set_offset (MEASI.iL p) p)
|}.

(** A control context in PFC_CTRL_RUN under [example_config]: both
    windows half-way, input RMS-squared and DC bus within their limits,
    no fault.  [ref], [rr] and [bdr] are the soft-start reference, the
    ramp counter and the boost duty ratio; [vdc_s] and [sce] the DC-bus
    sample and the sample-correction switch. *)
Definition example_run (ref rr bdr vdc_s sce : Z) : PFC_T := {|
  state := PFC_CTRL_RUN;
  faultStatus := 0;
  pfcCurrent := MEASI.mk 1200 100 1;
  pfcVoltage := MEASV.mk vdc_s 18000 16384;
  vdcAVG := AVG.mk 40000 2 16 20000 1 4;
  vacAVG := AVG.mk 3276800 200 400 16384 1 0;
  vacRMS := RMS.mk 5000 0 200 400 1 1000000;
  rectifiedVac := 1500;
  piVoltage := PI.mk 8000 200 1 4 32767 0 1000 ref 0 9000;
  piCurrent := PI.mk 6000 400 1 4 32767 0 500 0 0 4000;
  rampRate := rr;
  voltLoopExeRate := 3;
  boostDutyRatio := bdr;
  iL := 1100;
  duty := 700;
  sampleCorrectionEnable := sce;
  averageCurrent := 1100;
  currentReference := 2000
|}.

(** A control context in PFC_FAULT under [example_config], with fault
    status [fs] and input RMS-squared [sq]. *)
Definition example_fault (fs sq : Z) : PFC_T := {|
  state := PFC_FAULT;
  faultStatus := fs;
  pfcCurrent := MEASI.mk 1200 100 1;
  pfcVoltage := MEASV.mk 20000 18000 16384;
  vdcAVG := AVG.mk 40000 2 16 20000 1 4;
  vacAVG := AVG.mk 3276800 200 400 16384 1 0;
  vacRMS := RMS.mk sq 0 200 400 1 1000000;
  rectifiedVac := 1500;
  piVoltage := PI.mk 8000 200 1 4 32767 0 1000 25000 0 9000;
  piCurrent := PI.mk 6000 400 1 4 32767 0 500 0 0 4000;
  rampRate := 0;
  voltLoopExeRate := 3;
  boostDutyRatio := 8000;
  iL := 1100;
  duty := 700;
  sampleCorrectionEnable := 0;
  averageCurrent := 1100;
  currentReference := 2000
|}.

(** Samples of one interrupt: DC bus, AC input, inductor current. *)
Definition example_adc : ADCBUF := mkADCBUF 20000 18000 1200.

(** Samples with the AC input well above its initial offset. *)
Definition example_adc_start : ADCBUF := mkADCBUF 20000 24384 1200.

(** The context after [n] interrupts on [example_adc_start] from the
    context that [PFC_ParamsInit] makes of the fault context. *)
Definition example_started (n : nat) : PFC_T :=
  match @PFC_Cycles example_config (repeat example_adc_start n)
          (@PFC_ParamsInit example_config (example_fault 0 5000)) with
  | Some (p, _) => p
  | None => example_fault 0 5000
  end.

(** The context after one interrupt on [example_adc] from the run context
    with reference 24000 and ramp counter 0. *)
Definition example_run_next : PFC_T :=
  Eval vm_compute in
    match @PFC_ADCInterrupt example_config example_adc
            (example_run 24000 0 8000 20000 0) with
    | Some (p, _) => p
    | None => example_run 24000 0 8000 20000 0
    end.

(** A moving-average filter after reset, with window length [N]. *)
Definition avg_reset (N : Z) (out scal : Z) : PFC_AVG_T :=
  AVG.mk 0 0 N out 0 scal.

(** A mean-square accumulator after reset, with window length [N]. *)
Definition rms_reset (N : Z) (out pk : Z) : PFC_RMS_SQUARE_T :=
  RMS.mk out pk 0 N 0 0.

(** ** Machine-integer and monad lemmas *)

Lemma wrap16_id (x : Z) : int16_range x -> wrap16 x = x.
Proof.
  unfold int16_range, wrap16. intros H.
  rewrite Z.mod_small by lia. lia.
Qed.

Lemma wrapU16_id (x : Z) : uint16_range x -> wrapU16 x = x.
Proof.
  unfold uint16_range, wrapU16. intros H. apply Z.mod_small. lia.
Qed.

Lemma wrap32_id (x : Z) : -2147483648 <= x <= 2147483647 -> wrap32 x = x.
Proof.
  unfold wrap32. intros H. rewrite Z.mod_small by lia. lia.
Qed.

Lemma wrap16_range (x : Z) : int16_range (wrap16 x).
Proof.
  unfold int16_range, wrap16.
  pose proof (Z.mod_pos_bound (x + 32768) 65536 ltac:(lia)). lia.
Qed.

Lemma wrapU16_range (x : Z) : uint16_range (wrapU16 x).
Proof.
  unfold uint16_range, wrapU16.
  pose proof (Z.mod_pos_bound x 65536 ltac:(lia)). lia.
Qed.

Lemma ret_inv {A : Type} (a b : A) (l : list event) :
  ret a = Some (b, l) -> b = a /\ l = [].
Proof. unfold ret. intros H. inversion H. auto. Qed.

Lemma bind_inv {A B : Type} (m : M A) (f : A -> M B) (b : B) (l : list event) :
  bind m f = Some (b, l) ->
  exists a l1 l2, m = Some (a, l1) /\ f a = Some (b, l2) /\ l = l1 ++ l2.
Proof.
  unfold bind. destruct m as [[a l1]|]; [|discriminate].
  destruct (f a) as [[b' l2]|] eqn:E; [|discriminate].
  intros H. inversion H. subst. eauto 6.
Qed.

Lemma bind_Some {A B : Type} (m : M A) (f : A -> M B) a l1 b l2 :
  m = Some (a, l1) -> f a = Some (b, l2) -> bind m f = Some (b, l1 ++ l2).
Proof. intros -> E. unfold bind. rewrite E. reflexivity. Qed.

Lemma bind_ret_l {A B : Type} (a : A) (f : A -> M B) : bind (ret a) f = f a.
Proof.
  unfold bind, ret. destruct (f a) as [[b l]|]; reflexivity.
Qed.

Lemma bind_assoc {A B C : Type} (m : M A) (f : A -> M B) (g : B -> M C) :
  bind (bind m f) g = bind m (fun a => bind (f a) g).
Proof.
  unfold bind. destruct m as [[a l1]|]; [|reflexivity].
  destruct (f a) as [[b l2]|]; [|reflexivity].
  destruct (g b) as [[c l3]|]; [|reflexivity].
  now rewrite app_assoc.
Qed.

Lemma bind_ret_r {A : Type} (m : M A) : bind m ret = m.
Proof.
  unfold bind, ret. destruct m as [[a l]|]; [|reflexivity].
  now rewrite app_nil_r.
Qed.

Lemma emit_inv (e : event) (u : unit) (l : list event) :
  emit e = Some (u, l) -> l = [e].
Proof. unfold emit. intros H. now inversion H. Qed.

Lemma builtin_divsd_inv (num den q : Z) (l : list event) :
  builtin_divsd num den = Some (q, l) ->
  den <> 0 /\ q = wrap16 (Z.quot num den) /\ l = [DivSD num den].
Proof.
  unfold builtin_divsd. destruct (den =? 0) eqn:E; [discriminate|].
  intros H. inversion H. apply Z.eqb_neq in E. auto.
Qed.

Lemma builtin_divf_inv (num den q : Z) (l : list event) :
  builtin_divf num den = Some (q, l) ->
  den <> 0 /\ q = wrap16 (Z.quot (num * 32768) den) /\ l = [DivF num den].
Proof.
  unfold builtin_divf. destruct (den =? 0) eqn:E; [discriminate|].
  intros H. inversion H. apply Z.eqb_neq in E. auto.
Qed.

Lemma builtin_divsd_Some (num den : Z) :
  den <> 0 ->
  builtin_divsd num den = Some (wrap16 (Z.quot num den), [DivSD num den]).
Proof.
  intros H. unfold builtin_divsd. apply Z.eqb_neq in H. now rewrite H.
Qed.

Lemma builtin_divf_Some (num den : Z) :
  den <> 0 ->
  builtin_divf num den
  = Some (wrap16 (Z.quot (num * 32768) den), [DivF num den]).
Proof.
  intros H. unfold builtin_divf. apply Z.eqb_neq in H. now rewrite H.
Qed.

(** Reduce field accesses on updated records. *)
Ltac rsimpl :=
  cbn [AVG.sum AVG.set_sum AVG.samples AVG.set_samples AVG.sampleLimit
    AVG.set_sampleLimit AVG.output AVG.set_output AVG.status AVG.set_status
    AVG.scaler AVG.set_scaler RMS.sqrOutput RMS.set_sqrOutput RMS.peak
    RMS.set_peak RMS.samples RMS.set_samples RMS.sampleLimit
    RMS.set_sampleLimit RMS.status RMS.set_status RMS.sum RMS.set_sum PI.kp
    PI.set_kp PI.ki PI.set_ki PI.kpScale PI.set_kpScale PI.kiScale
    PI.set_kiScale PI.maxOutput PI.set_maxOutput PI.minOutput
    PI.set_minOutput PI.integralOut PI.set_integralOut PI.reference
    PI.set_reference PI.error PI.set_error PI.output PI.set_output MEASI.iL
    MEASI.set_iL MEASI.offset MEASI.set_offset MEASI.status MEASI.set_status
    MEASV.vdc MEASV.set_vdc MEASV.vac MEASV.set_vac MEASV.offsetVac
    MEASV.set_offsetVac state set_state faultStatus set_faultStatus
    pfcCurrent set_pfcCurrent pfcVoltage set_pfcVoltage vdcAVG set_vdcAVG
    vacAVG set_vacAVG vacRMS set_vacRMS rectifiedVac set_rectifiedVac
    piVoltage set_piVoltage piCurrent set_piCurrent rampRate set_rampRate
    voltLoopExeRate set_voltLoopExeRate boostDutyRatio set_boostDutyRatio iL
    set_iL duty set_duty sampleCorrectionEnable set_sampleCorrectionEnable
    averageCurrent set_averageCurrent currentReference set_currentReference
    fst snd].

Ltac rsimpl_in H :=
  cbn [AVG.sum AVG.set_sum AVG.samples AVG.set_samples AVG.sampleLimit
    AVG.set_sampleLimit AVG.output AVG.set_output AVG.status AVG.set_status
    AVG.scaler AVG.set_scaler RMS.sqrOutput RMS.set_sqrOutput RMS.peak
    RMS.set_peak RMS.samples RMS.set_samples RMS.sampleLimit
    RMS.set_sampleLimit RMS.status RMS.set_status RMS.sum RMS.set_sum PI.kp
    PI.set_kp PI.ki PI.set_ki PI.kpScale PI.set_kpScale PI.kiScale
    PI.set_kiScale PI.maxOutput PI.set_maxOutput PI.minOutput
    PI.set_minOutput PI.integralOut PI.set_integralOut PI.reference
    PI.set_reference PI.error PI.set_error PI.output PI.set_output MEASI.iL
    MEASI.set_iL MEASI.offset MEASI.set_offset MEASI.status MEASI.set_status
    MEASV.vdc MEASV.set_vdc MEASV.vac MEASV.set_vac MEASV.offsetVac
    MEASV.set_offsetVac state set_state faultStatus set_faultStatus
    pfcCurrent set_pfcCurrent pfcVoltage set_pfcVoltage vdcAVG set_vdcAVG
    vacAVG set_vacAVG vacRMS set_vacRMS rectifiedVac set_rectifiedVac
    piVoltage set_piVoltage piCurrent set_piCurrent rampRate set_rampRate
    voltLoopExeRate set_voltLoopExeRate boostDutyRatio set_boostDutyRatio iL
    set_iL duty set_duty sampleCorrectionEnable set_sampleCorrectionEnable
    averageCurrent set_averageCurrent currentReference set_currentReference
    fst snd] in H.

(** Invert every monadic equation among the hypotheses. *)
Ltac minv :=
  repeat match goal with
  | H : bind _ _ = Some (_, _) |- _ =>
      let a := fresh "a" in
      let l1 := fresh "l" in
      let l2 := fresh "l" in
      let E1 := fresh "E" in
      let E2 := fresh "E" in
      let El := fresh "El" in
      apply bind_inv in H; destruct H as (a & l1 & l2 & E1 & E2 & El)
  | H : ret _ = Some (_, _) |- _ =>
      apply ret_inv in H; destruct H as [? ?]
  | H : emit _ = Some (_, _) |- _ => apply emit_inv in H
  | H : builtin_divsd _ _ = Some (_, _) |- _ =>
      apply builtin_divsd_inv in H; destruct H as (? & ? & ?)
  | H : builtin_divf _ _ = Some (_, _) |- _ =>
      apply builtin_divf_inv in H; destruct H as (? & ? & ?)
  end.

Lemma repeat_call_snoc {A : Type} (f : A -> Z -> M A) (n : nat) (a : A) (x : Z) :
  repeat_call f (S n) a x = bind (repeat_call f n a x) (fun a' => f a' x).
Proof.
  revert a. induction n as [|n IH]; intros a.
  - cbn [repeat_call].
    rewrite bind_ret_l.
    change (fun a' : A => ret a') with (@ret A).
    now rewrite bind_ret_r.
  - change (repeat_call f (S (S n)) a x)
      with (bind (f a x) (fun a' => repeat_call f (S n) a' x)).
    change (repeat_call f (S n) a x)
      with (bind (f a x) (fun a' => repeat_call f n a' x)).
    rewrite bind_assoc. unfold bind at 1 3.
    destruct (f a x) as [[a1 l1]|]; [|reflexivity].
    now rewrite IH.
Qed.

(** ** Moving-average filter *)

Lemma PFC_Average_accumulate (N out sc V : Z) (k : nat) :
  int16_range V -> N <= 32767 -> Z.of_nat k < N ->
  repeat_call PFC_Average k (avg_reset N out sc) V
  = Some (AVG.mk (Z.of_nat k * V) (Z.of_nat k) N out 0 sc, []).
Proof.
  intros HV HN. induction k as [|k IH]; intros Hk.
  - reflexivity.
  - rewrite repeat_call_snoc, IH by lia.
    unfold bind, PFC_Average. cbn [AVG.sum AVG.samples AVG.sampleLimit
      AVG.set_sum AVG.set_samples AVG.output AVG.status AVG.scaler].
    unfold int16_range in HV.
    assert (Hs : (Z.of_nat k + 1) * -32768 <= (Z.of_nat k + 1) * V
                 <= (Z.of_nat k + 1) * 32767)
      by (split; apply Z.mul_le_mono_nonneg_l; lia).
    rewrite (wrap32_id (Z.of_nat k * V + V)) by lia.
    rewrite (wrap16_id (Z.of_nat k + 1)) by (unfold int16_range; lia).
    destruct (N <=? Z.of_nat k + 1) eqn:E; [apply Z.leb_le in E; lia|].
    unfold ret, AVG.set_samples, AVG.set_sum. rsimpl.
    rewrite Nat2Z.inj_succ. do 2 f_equal. f_equal; lia.
Qed.

Lemma PFC_Average_complete (N out sc V : Z) :
  int16_range V -> 1 <= N <= 32767 ->
  repeat_call PFC_Average (Z.to_nat N) (avg_reset N out sc) V
  = Some (AVG.mk 0 0 N V 1 sc, [DivSD (N * V) N]).
Proof.
  intros HV HN.
  replace (Z.to_nat N) with (S (Z.to_nat (N - 1))) by lia.
  rewrite repeat_call_snoc.
  rewrite (PFC_Average_accumulate N out sc V (Z.to_nat (N - 1)) HV) by lia.
  unfold bind, PFC_Average. cbn [AVG.sum AVG.samples AVG.sampleLimit
    AVG.set_sum AVG.set_samples AVG.output AVG.status AVG.scaler].
  unfold int16_range in HV.
  rewrite Z2Nat.id by lia.
  replace ((N - 1) * V + V) with (V * N) by lia.
  assert (Hs : N * -32768 <= N * V <= N * 32767)
    by (split; apply Z.mul_le_mono_nonneg_l; lia).
  rewrite (wrap32_id (V * N)) by lia.
  replace (N - 1 + 1) with N by lia.
  rewrite (wrap16_id N) by (unfold int16_range; lia).
  rewrite Z.leb_refl.
  rewrite builtin_divsd_Some by lia.
  rewrite Z.quot_mul by lia.
  rewrite !wrap16_id by (unfold int16_range; lia).
  unfold bind, ret, AVG.set_samples, AVG.set_sum, AVG.set_status,
    AVG.set_output. rsimpl.
  rewrite (wrap16_id V) by (unfold int16_range; lia).
  now rewrite (Z.mul_comm N V).
Qed.

(** C6. For a constant input V and a window length N >= 1, N calls of
    PFC_Average on a reset filter leave status at 0 during the first N-1
    calls and, at the N-th call, set output to V (the sum N*V divided by
    N), status to 1 and sum and samples back to 0. *)
Theorem PFC_Average_constant_input (p : PFC_AVG_T) (V : Z) :
  AVG.sum p = 0 -> AVG.samples p = 0 -> AVG.status p = 0 ->
  1 <= AVG.sampleLimit p <= 32767 -> int16_range V ->
  (forall k : nat, (k < Z.to_nat (AVG.sampleLimit p))%nat ->
     exists pk, repeat_call PFC_Average k p V = Some (pk, [])
                /\ AVG.status pk = 0)
  /\ exists p',
       repeat_call PFC_Average (Z.to_nat (AVG.sampleLimit p)) p V
       = Some (p', [DivSD (AVG.sampleLimit p * V) (AVG.sampleLimit p)])
       /\ AVG.output p' = V /\ AVG.status p' = 1
       /\ AVG.sum p' = 0 /\ AVG.samples p' = 0.
Proof.
  destruct p as [s n N out st sc]. cbn. intros -> -> -> HN HV.
  change (AVG.mk 0 0 N out 0 sc) with (avg_reset N out sc). split.
  - intros k Hk. eexists. split.
    + apply PFC_Average_accumulate; [assumption | lia | lia].
    + reflexivity.
  - eexists. split.
    + apply PFC_Average_complete; assumption.
    + cbn. auto.
Qed.

Lemma PFC_Average_constant_input_witness :
  exists p',
    repeat_call PFC_Average 4 (avg_reset 4 0 2) 1000
    = Some (p', [DivSD 4000 4])
    /\ AVG.output p' = 1000 /\ AVG.status p' = 1
    /\ AVG.sum p' = 0 /\ AVG.samples p' = 0.
Proof.
  apply (PFC_Average_constant_input (avg_reset 4 0 2) 1000);
    cbn; unfold int16_range; try reflexivity; lia.
Defined.

(** C7 (as stated, refuted).  A filter with window length 2 is fed the
    constant 7 from reset: the second call completes the window and sets
    status; the third call completes nothing (its event log is empty and
    samples becomes 1) and yet leaves status at 1, not 0. *)
Lemma PFC_Average_status_not_one_shot :
  repeat_call PFC_Average 2 (avg_reset 2 0 1) 7
  = Some ({| AVG.sum := 0; AVG.samples := 0; AVG.sampleLimit := 2;
         AVG.output := 7; AVG.status := 1; AVG.scaler := 1 |},
          [DivSD 14 2])
  /\ PFC_Average
       {| AVG.sum := 0; AVG.samples := 0; AVG.sampleLimit := 2;
         AVG.output := 7; AVG.status := 1; AVG.scaler := 1 |} 7
     = Some ({| AVG.sum := 7; AVG.samples := 1; AVG.sampleLimit := 2;
         AVG.output := 7; AVG.status := 1; AVG.scaler := 1 |}, [])
  /\ AVG.status
       {| AVG.sum := 7; AVG.samples := 1; AVG.sampleLimit := 2;
         AVG.output := 7; AVG.status := 1; AVG.scaler := 1 |}
     <> 0.
Proof.
  split; [reflexivity|]. split; [reflexivity|]. cbn. discriminate.
Qed.

(** C7 (amended).  PFC_Average sets status to 1 on the call that
    completes a window and never clears it: a call that completes nothing
    leaves status as it was, so once set it stays 1 over all later calls.
    Only PFC_ResetParams puts a status back to 0, for the DC-bus filter
    (and the mean-square accumulator) but not for the AC filter. *)
Theorem PFC_Average_status_sticky (p : PFC_AVG_T) (x : Z) :
  AVG.sampleLimit p <> 0 ->
  (exists p' l,
     PFC_Average p x = Some (p', l)
     /\ (AVG.sampleLimit p <= wrap16 (AVG.samples p + 1) ->
         AVG.status p' = 1)
     /\ (wrap16 (AVG.samples p + 1) < AVG.sampleLimit p ->
         AVG.status p' = AVG.status p)
     /\ (AVG.status p = 1 -> AVG.status p' = 1))
  /\ (forall pData : PFC_T,
        AVG.status (vdcAVG (PFC_ResetParams pData)) = 0
        /\ AVG.status (vacAVG (PFC_ResetParams pData))
           = AVG.status (vacAVG pData)).
Proof.
  intros HN. split; [|intros pData; split; reflexivity].
  unfold PFC_Average. rsimpl.
  destruct (AVG.sampleLimit p <=? wrap16 (AVG.samples p + 1)) eqn:E.
  - rewrite builtin_divsd_Some by assumption. unfold bind, ret.
    do 2 eexists. split; [reflexivity|]. rsimpl.
    apply Z.leb_le in E. repeat split; auto. lia.
  - do 2 eexists. split; [reflexivity|]. rsimpl.
    apply Z.leb_gt in E. repeat split; auto. lia.
Qed.

Lemma PFC_Average_status_sticky_witness :
  exists p' l,
    PFC_Average
      {| AVG.sum := 0; AVG.samples := 0; AVG.sampleLimit := 2;
         AVG.output := 7; AVG.status := 1; AVG.scaler := 1 |} 7
    = Some (p', l)
    /\ (2 <= wrap16 (0 + 1) -> AVG.status p' = 1)
    /\ (wrap16 (0 + 1) < 2 -> AVG.status p' = 1)
    /\ (1 = 1 -> AVG.status p' = 1).
Proof.
  apply (PFC_Average_status_sticky (AVG.mk 0 0 2 7 1 1) 7).
  cbn. lia.
Defined.

(** ** Mean-square accumulator *)

(** The sample squared and scaled down by one Q15 multiply-shift. *)
Lemma scaled_square_range (A : Z) :
  0 <= A <= 32767 ->
  0 <= Z.shiftr (builtin_mulss A A) 15 <= 32766.
Proof.
  intros HA. unfold builtin_mulss.
  rewrite wrap16_id by (unfold int16_range; lia).
  rewrite Z.shiftr_div_pow2 by lia. change (2 ^ 15) with 32768.
  assert (0 <= A * A <= 32767 * 32767) by nia.
  split.
  - apply Z.div_pos; lia.
  - apply Z.lt_succ_r. apply Z.div_lt_upper_bound; lia.
Qed.

Lemma PFC_SquaredRMSCalculate_accumulate (N out pk A : Z) (k : nat) :
  0 <= A <= 32767 -> N <= 32767 -> Z.of_nat k <= N ->
  repeat_call PFC_SquaredRMSCalculate k (rms_reset N out pk) A
  = Some (RMS.mk out pk (Z.of_nat k) N 0
            (Z.of_nat k * Z.shiftr (builtin_mulss A A) 15), []).
Proof.
  intros HA HN. pose proof (scaled_square_range A HA) as Hq.
  induction k as [|k IH]; intros Hk.
  - reflexivity.
  - rewrite repeat_call_snoc, IH by lia.
    unfold bind, PFC_SquaredRMSCalculate. rsimpl.
    set (q := Z.shiftr (builtin_mulss A A) 15) in *.
    rewrite (wrap16_id q) by (unfold int16_range; lia).
    assert (Hs : 0 <= (Z.of_nat k + 1) * q <= (Z.of_nat k + 1) * 32766)
      by (split; [apply Z.mul_nonneg_nonneg
                 | apply Z.mul_le_mono_nonneg_l]; lia).
    rewrite (wrap32_id (Z.of_nat k * q + q)) by lia.
    destruct (Z.of_nat k <? N) eqn:E; [|apply Z.ltb_ge in E; lia].
    rewrite (wrap16_id (Z.of_nat k + 1)) by (unfold int16_range; lia).
    unfold ret, RMS.set_samples, RMS.set_sum. rsimpl.
    rewrite Nat2Z.inj_succ. do 2 f_equal. f_equal; lia.
Qed.

(** What the accumulator really does on a constant input: the window
    closes at call N+1, and the sum of N+1 samples is divided by N. *)
Lemma PFC_SquaredRMSCalculate_window (N out pk A : Z) :
  0 <= A <= 32767 -> 1 <= N <= 32767 ->
  let q := Z.shiftr (builtin_mulss A A) 15 in
  repeat_call PFC_SquaredRMSCalculate (Z.to_nat N) (rms_reset N out pk) A
  = Some (RMS.mk out pk N N 0 (N * q), [])
  /\ repeat_call PFC_SquaredRMSCalculate (S (Z.to_nat N)) (rms_reset N out pk) A
     = Some (RMS.mk (wrap16 (wrap16 (Z.quot ((N + 1) * q) N))) pk 0 N 1 0,
             [DivSD ((N + 1) * q) N]).
Proof.
  intros HA HN q.
  pose proof (scaled_square_range A HA) as Hq. fold q in Hq.
  assert (E : repeat_call PFC_SquaredRMSCalculate (Z.to_nat N)
                (rms_reset N out pk) A
              = Some (RMS.mk out pk N N 0 (N * q), [])).
  { rewrite PFC_SquaredRMSCalculate_accumulate by lia.
    fold q. now rewrite Z2Nat.id by lia. }
  split; [exact E|].
  rewrite repeat_call_snoc, E.
  unfold bind, PFC_SquaredRMSCalculate. rsimpl. fold q.
  rewrite (wrap16_id q) by (unfold int16_range; lia).
  assert (Hs : 0 <= (N + 1) * q <= (N + 1) * 32766)
    by (split; [apply Z.mul_nonneg_nonneg
               | apply Z.mul_le_mono_nonneg_l]; lia).
  rewrite (wrap32_id (N * q + q)) by lia.
  rewrite Z.ltb_irrefl.
  rewrite builtin_divsd_Some by lia.
  unfold ret, RMS.set_samples, RMS.set_sum, RMS.set_status,
    RMS.set_sqrOutput. rsimpl.
  replace (N * q + q) with ((N + 1) * q) by lia. reflexivity.
Qed.

(** C5 (the code at the failing input).  Window length 4, constant
    rectified input 16384 (0.5 in Q15), whose scaled square is 8192.  After
    4 calls the window is still open: status 0, sqrOutput untouched,
    samples 4.  The 5th call closes it and divides the sum of 5 samples by
    4: sqrOutput is 10240, not 8192. *)
Theorem PFC_SquaredRMSCalculate_window_off_by_one :
  wrap16 (Z.shiftr (builtin_mulss 16384 16384) 15) = 8192
  /\ repeat_call PFC_SquaredRMSCalculate 4 (rms_reset 4 0 0) 16384
     = Some ({| RMS.sqrOutput := 0; RMS.peak := 0; RMS.samples := 4;
         RMS.sampleLimit := 4; RMS.status := 0; RMS.sum := 32768 |},
             [])
  /\ repeat_call PFC_SquaredRMSCalculate 5 (rms_reset 4 0 0) 16384
     = Some ({| RMS.sqrOutput := 10240; RMS.peak := 0; RMS.samples := 0;
         RMS.sampleLimit := 4; RMS.status := 1; RMS.sum := 0 |},
             [DivSD 40960 4]).
Proof. repeat split; reflexivity. Qed.

(** ** Full-wave rectifier *)

Lemma PFC_SignalConditioning_rectified (pfcData p' : PFC_T) (l : list event) :
  PFC_SignalConditioning pfcData = Some (p', l) ->
  rectifiedVac p' = PFC_SignalRectification (pfcVoltage p')
  /\ exists lr,
       PFC_SquaredRMSCalculate (vacRMS pfcData) (rectifiedVac p')
       = Some (vacRMS p', lr).
Proof.
  unfold PFC_SignalConditioning. intros H.
  apply bind_inv in H. destruct H as (a1 & l1 & l1' & E1 & H & _).
  apply bind_inv in H. destruct H as (a2 & l2 & l2' & E2 & H & _).
  apply bind_inv in H. destruct H as (a3 & l3 & l3' & E3 & H & _).
  apply ret_inv in H. destruct H as [-> _].
  split; [reflexivity|]. exists l3. exact E3.
Qed.

(** C10. When vac - offsetVac evaluates to -32768 in 16-bit arithmetic,
    the negation wraps around to -32768 again and the rectifier returns a
    negative value (vac = -32768 with offsetVac = 0 is such an input); in
    a control cycle that negative value is stored as rectifiedVac and is
    the sample handed to the mean-square accumulator. *)
Theorem PFC_SignalRectification_negative :
  (forall pSignal : PFC_MEASURE_VOLTAGE_T,
      wrap16 (MEASV.vac pSignal - MEASV.offsetVac pSignal) = -32768 ->
      PFC_SignalRectification pSignal = -32768
      /\ PFC_SignalRectification pSignal < 0)
  /\ (forall (pfcData p' : PFC_T) (l : list event),
         PFC_SignalConditioning pfcData = Some (p', l) ->
         wrap16 (MEASV.vac (pfcVoltage p') - MEASV.offsetVac (pfcVoltage p'))
         = -32768 ->
         rectifiedVac p' = -32768
         /\ exists lr,
              PFC_SquaredRMSCalculate (vacRMS pfcData) (-32768)
              = Some (vacRMS p', lr)).
Proof.
  assert (Hrect : forall pSignal : PFC_MEASURE_VOLTAGE_T,
             wrap16 (MEASV.vac pSignal - MEASV.offsetVac pSignal) = -32768 ->
             PFC_SignalRectification pSignal = -32768).
  { intros pSignal H. unfold PFC_SignalRectification. rewrite H.
    reflexivity. }
  split.
  - intros pSignal H. rewrite (Hrect pSignal H). split; reflexivity.
  - intros pfcData p' l E H.
    destruct (PFC_SignalConditioning_rectified _ _ _ E) as [R [lr A]].
    rewrite (Hrect _ H) in R. rewrite R in A. eauto.
Qed.

Lemma PFC_SignalRectification_negative_witness :
  let pSignal :=
    {| MEASV.vdc := 0; MEASV.vac := -32768; MEASV.offsetVac := 0 |} in
  PFC_SignalRectification pSignal = -32768
  /\ PFC_SignalRectification pSignal < 0.
Proof.
  destruct PFC_SignalRectification_negative as [H _].
  apply (H (MEASV.mk 0 (-32768) 0)).
  reflexivity.
Defined.

(** ** Properties of the control functions, for every configuration *)

(** Split on a conditional of hypothesis [H]. *)
Tactic Notation "case_if_in" hyp(H) :=
  match type of H with
  | context [if ?b then _ else _] =>
      let E := fresh "C" in destruct b eqn:E
  end.

(** Split on a conditional of the goal. *)
Ltac case_if :=
  match goal with
  | |- context [if ?b then _ else _] =>
      let E := fresh "C" in destruct b eqn:E
  end.

(** Turn boolean comparisons among the hypotheses into propositions. *)
Ltac bool2prop :=
  repeat match goal with
  | H : (_ <? _) = true |- _ => apply Z.ltb_lt in H
  | H : (_ <? _) = false |- _ => apply Z.ltb_ge in H
  | H : (_ <=? _) = true |- _ => apply Z.leb_le in H
  | H : (_ <=? _) = false |- _ => apply Z.leb_gt in H
  | H : (_ =? _) = true |- _ => apply Z.eqb_eq in H
  | H : (_ =? _) = false |- _ => apply Z.eqb_neq in H
  end.

(** Normalise field accesses on updated records and compare. *)
Ltac fnorm :=
  lazy beta iota delta
    [AVG.sum AVG.set_sum AVG.samples AVG.set_samples AVG.sampleLimit
    AVG.set_sampleLimit AVG.output AVG.set_output AVG.status AVG.set_status
    AVG.scaler AVG.set_scaler RMS.sqrOutput RMS.set_sqrOutput RMS.peak
    RMS.set_peak RMS.samples RMS.set_samples RMS.sampleLimit
    RMS.set_sampleLimit RMS.status RMS.set_status RMS.sum RMS.set_sum PI.kp
    PI.set_kp PI.ki PI.set_ki PI.kpScale PI.set_kpScale PI.kiScale
    PI.set_kiScale PI.maxOutput PI.set_maxOutput PI.minOutput
    PI.set_minOutput PI.integralOut PI.set_integralOut PI.reference
    PI.set_reference PI.error PI.set_error PI.output PI.set_output MEASI.iL
    MEASI.set_iL MEASI.offset MEASI.set_offset MEASI.status MEASI.set_status
    MEASV.vdc MEASV.set_vdc MEASV.vac MEASV.set_vac MEASV.offsetVac
    MEASV.set_offsetVac state set_state faultStatus set_faultStatus
    pfcCurrent set_pfcCurrent pfcVoltage set_pfcVoltage vdcAVG set_vdcAVG
    vacAVG set_vacAVG vacRMS set_vacRMS rectifiedVac set_rectifiedVac
    piVoltage set_piVoltage piCurrent set_piCurrent rampRate set_rampRate
    voltLoopExeRate set_voltLoopExeRate boostDutyRatio set_boostDutyRatio iL
    set_iL duty set_duty sampleCorrectionEnable set_sampleCorrectionEnable
    averageCurrent set_averageCurrent currentReference set_currentReference
    fst snd].

Ltac by_fields := fnorm; reflexivity.

(** Two control contexts with the same fields are equal. *)
Lemma PFC_T_ext (p q : PFC_T) :
  state p = state q ->
  faultStatus p = faultStatus q ->
  pfcCurrent p = pfcCurrent q ->
  pfcVoltage p = pfcVoltage q ->
  vdcAVG p = vdcAVG q ->
  vacAVG p = vacAVG q ->
  vacRMS p = vacRMS q ->
  rectifiedVac p = rectifiedVac q ->
  piVoltage p = piVoltage q ->
  piCurrent p = piCurrent q ->
  rampRate p = rampRate q ->
  voltLoopExeRate p = voltLoopExeRate q ->
  boostDutyRatio p = boostDutyRatio q ->
  iL p = iL q ->
  duty p = duty q ->
  sampleCorrectionEnable p = sampleCorrectionEnable q ->
  averageCurrent p = averageCurrent q ->
  currentReference p = currentReference q ->
  p = q.
Proof.
  destruct p, q. cbn. intros. subst. reflexivity.
Qed.

(** Compare two control contexts field by field. *)
Ltac frame_eq p := apply PFC_T_ext; by_fields.

Lemma ok_ret {A : Type} (a : A) (Q : A -> Prop) : Q a -> ok (ret a) Q.
Proof. intros H. exists a, []. repeat split; auto. Qed.

Lemma ok_bind {A B : Type} (m : M A) (f : A -> M B)
      (Q1 : A -> Prop) (Q2 : B -> Prop) :
  ok m Q1 -> (forall a, Q1 a -> ok (f a) Q2) -> ok (bind m f) Q2.
Proof.
  intros (a & l1 & E1 & H1 & Ha) Hf.
  destruct (Hf a Ha) as (b & l2 & E2 & H2 & Hb).
  exists b, (l1 ++ l2). split; [now apply bind_Some with (a := a)|].
  split; [|exact Hb]. apply Forall_app. now split.
Qed.

Lemma ok_weaken {A : Type} (m : M A) (Q Q' : A -> Prop) :
  ok m Q -> (forall a, Q a -> Q' a) -> ok m Q'.
Proof. intros (a & l & E & Hl & Ha) H. exists a, l. auto. Qed.

Lemma ok_emit (e : event) (Q : unit -> Prop) :
  positive_divisor e -> Q tt -> ok (emit e) Q.
Proof.
  intros He HQ. exists tt, [e]. repeat split; auto.
Qed.

Lemma ok_divf (num den : Z) :
  0 < den ->
  ok (builtin_divf num den) (fun q => q = wrap16 (Z.quot (num * 32768) den)).
Proof.
  intros H. do 2 eexists. split; [apply builtin_divf_Some; lia|].
  split; [repeat constructor; exact H | reflexivity].
Qed.

Lemma ok_divsd (num den : Z) :
  0 < den ->
  ok (builtin_divsd num den) (fun q => q = wrap16 (Z.quot num den)).
Proof.
  intros H. do 2 eexists. split; [apply builtin_divsd_Some; lia|].
  split; [repeat constructor; exact H | reflexivity].
Qed.

Lemma ok_inv {A : Type} (m : M A) (Q : A -> Prop) (a : A) (l : list event) :
  ok m Q -> m = Some (a, l) -> Q a /\ Forall positive_divisor l.
Proof.
  intros (a' & l' & E & Hl & Ha) E'. rewrite E in E'. inversion E'; subst.
  auto.
Qed.

Section Properties.

Context {cfg : PFC_Config}.

(** *** Current sample correction and current control loop *)

Lemma PFC_CurrentSampleCorrection_ok (pData : PFC_T) :
  ok (PFC_CurrentSampleCorrection pData) (fun _ => True).
Proof.
  unfold PFC_CurrentSampleCorrection.
  eapply ok_bind with (Q1 := fun _ => True).
  - case_if.
    + apply Z.ltb_lt in C. eapply ok_weaken; [apply ok_divf; exact C|auto].
    + now apply ok_ret.
  - intros output _. case_if; now apply ok_ret.
Qed.

(** The scaled PI output, before it is stored in a [uint16_t]. *)
Lemma scaled_output_range (a b : Z) :
  -32767 <= Z.shiftr (builtin_mulss a b) 15 <= 32768.
Proof.
  unfold builtin_mulss.
  pose proof (wrap16_range a) as Ha. pose proof (wrap16_range b) as Hb.
  unfold int16_range in *.
  rewrite Z.shiftr_div_pow2 by lia. change (2 ^ 15) with 32768.
  assert (-32768 * 32767 <= wrap16 a * wrap16 b <= 32768 * 32768) by nia.
  split.
  - apply Z.div_le_lower_bound; lia.
  - apply Z.lt_succ_r. apply Z.div_lt_upper_bound; lia.
Qed.

Lemma ok_result {A : Type} (m : M A) (Q : A -> Prop) :
  ok m Q -> ok m (fun a => Q a /\ exists l, m = Some (a, l)).
Proof.
  intros (a & l & E & Hl & Ha). exists a, l. rewrite E. eauto.
Qed.

Lemma PFC_CurrentControlLoop_ok (pData : PFC_T) :
  ok (PFC_CurrentControlLoop pData)
     (fun p' =>
        current_loop_frame pData p'
        /\ (0 <= PFC_MIN_DUTY -> PFC_MIN_DUTY <= PFC_MAX_DUTY ->
            PFC_MAX_DUTY <= 65535 ->
            PFC_MIN_DUTY <= duty p' <= PFC_MAX_DUTY)
        /\ (PFC_MAX_DUTY
            < wrapU16 (Z.shiftr (builtin_mulss (PI.output (piCurrent p'))
                                   PFC_LOOPTIME_TCY) 15) ->
            PI.integralOut (piCurrent p') = wrap32 KI_I_INTGRAL_OUT_MAX)
        /\ PI.output (piCurrent p')
           = PI.output
               (PFC_PIController (piCurrent pData)
                  (wrap16 (currentReference pData - averageCurrent p')))
        /\ iL p' = (if iL pData <? 0 then 1 else iL pData)
        /\ (sampleCorrectionEnable pData = 1 ->
            exists lq,
              PFC_CurrentSampleCorrection (set_iL (iL p') pData)
              = Some (averageCurrent p', lq))).
Proof.
  unfold PFC_CurrentControlLoop.
  set (p1 := if iL pData <? 0 then set_iL 1 pData else pData).
  assert (Hp1 : p1 = set_iL (if iL pData <? 0 then 1 else iL pData) pData).
  { unfold p1. destruct (iL pData <? 0); [reflexivity|frame_eq pData]. }
  assert (Hsce : sampleCorrectionEnable p1 = sampleCorrectionEnable pData).
  { rewrite Hp1. by_fields. }
  eapply ok_bind with
    (Q1 := fun p2 =>
             p2 = set_averageCurrent (averageCurrent p2) p1
             /\ (sampleCorrectionEnable pData = 1 ->
                 exists lq, PFC_CurrentSampleCorrection p1
                            = Some (averageCurrent p2, lq))).
  - rewrite Hsce. case_if.
    + eapply ok_bind;
        [apply ok_result, (PFC_CurrentSampleCorrection_ok p1)|].
      intros avg [_ [lq Hlq]]. apply ok_ret. split; [reflexivity|].
      intros _. exists lq. exact Hlq.
    + apply ok_ret. split; [reflexivity|].
      apply Z.eqb_neq in C. intros H. contradiction.
  - intros p2 [Hp2 Hcsc].
    set (p3 := set_piCurrent _ p2).
    assert (Hfr : forall q : PFC_T,
               q = set_duty (duty q) (set_piCurrent (piCurrent q) p3) ->
               current_loop_frame pData q).
    { intros q Hq. unfold current_loop_frame. rewrite Hq. unfold p3.
      rewrite Hp2, Hp1. frame_eq pData. }
    assert (Hout : forall q : PFC_T,
               PI.output (piCurrent q) = PI.output (piCurrent p3) ->
               averageCurrent q = averageCurrent p2 ->
               PI.output (piCurrent q)
               = PI.output
                   (PFC_PIController (piCurrent pData)
                      (wrap16 (currentReference pData - averageCurrent q)))).
    { intros q -> ->. unfold p3. rsimpl. rewrite Hp2, Hp1. by_fields. }
    assert (HiL : forall q : PFC_T,
               iL q = iL p3 ->
               iL q = (if iL pData <? 0 then 1 else iL pData)).
    { intros q ->. unfold p3. rewrite Hp2, Hp1. by_fields. }
    assert (Hsc : forall q : PFC_T,
               iL q = iL p3 -> averageCurrent q = averageCurrent p2 ->
               sampleCorrectionEnable pData = 1 ->
               exists lq,
                 PFC_CurrentSampleCorrection (set_iL (iL q) pData)
                 = Some (averageCurrent q, lq)).
    { intros q Hq -> Hen. rewrite (HiL q Hq), <- Hp1. auto. }
    set (d := wrapU16 _).
    pose proof (wrapU16_range
      (Z.shiftr (builtin_mulss (PI.output (piCurrent p3)) PFC_LOOPTIME_TCY)
         15)) as Hd. fold d in Hd. unfold uint16_range in Hd.
    repeat case_if; bool2prop; apply ok_ret;
      (split; [apply Hfr; unfold p3; frame_eq p2|]);
      (split; [intros Hmin Hle Hmax|
               split; [|split; [apply Hout; reflexivity|
                                split; [apply HiL; reflexivity
                                       |apply Hsc; reflexivity]]]]);
      rsimpl.
    all: fold d; try reflexivity;
      try rewrite wrapU16_id by (unfold uint16_range; lia); lia.
Qed.

(** C1. Whatever the PI controller computes, the duty produced by
    PFC_CurrentControlLoop lies in [PFC_MIN_DUTY, PFC_MAX_DUTY], and when
    the PI output scaled by the loop period exceeds PFC_MAX_DUTY (as the
    mathematical value or as the uint16_t the code compares), the
    current-loop integral is KI_I_INTGRAL_OUT_MAX at the end of the same
    call. *)
Theorem PFC_CurrentControlLoop_duty_limits (pData : PFC_T) :
  0 <= PFC_MIN_DUTY -> PFC_MIN_DUTY <= PFC_MAX_DUTY -> PFC_MAX_DUTY <= 65535 ->
  -2147483648 <= KI_I_INTGRAL_OUT_MAX <= 2147483647 ->
  exists p' l,
    PFC_CurrentControlLoop pData = Some (p', l)
    /\ PI.output (piCurrent p')
       = PI.output
           (PFC_PIController (piCurrent pData)
              (wrap16 (currentReference pData - averageCurrent p')))
    /\ PFC_MIN_DUTY <= duty p' <= PFC_MAX_DUTY
    /\ (PFC_MAX_DUTY
        < Z.shiftr (builtin_mulss (PI.output (piCurrent p')) PFC_LOOPTIME_TCY)
            15 ->
        PI.integralOut (piCurrent p') = KI_I_INTGRAL_OUT_MAX)
    /\ (PFC_MAX_DUTY
        < wrapU16 (Z.shiftr (builtin_mulss (PI.output (piCurrent p'))
                               PFC_LOOPTIME_TCY) 15) ->
        PI.integralOut (piCurrent p') = KI_I_INTGRAL_OUT_MAX).
Proof.
  intros Hmin Hle Hmax Hki.
  destruct (PFC_CurrentControlLoop_ok pData)
    as (p' & l & E & _ & _ & Hduty & Hint & Hout & _).
  exists p', l. split; [exact E|]. split; [exact Hout|].
  split; [auto|].
  rewrite (wrap32_id KI_I_INTGRAL_OUT_MAX) in Hint by exact Hki.
  split; [|exact Hint].
  intros Hs. apply Hint.
  pose proof (scaled_output_range (PI.output (piCurrent p')) PFC_LOOPTIME_TCY).
  rewrite wrapU16_id by (unfold uint16_range; lia). exact Hs.
Qed.

(** *** Filters and signal conditioning *)

Lemma PFC_Average_ok (p : PFC_AVG_T) (x : Z) :
  0 < AVG.sampleLimit p ->
  ok (PFC_Average p x)
     (fun p' => AVG.sampleLimit p' = AVG.sampleLimit p).
Proof.
  intros HN. unfold PFC_Average. rsimpl. case_if.
  - eapply ok_bind; [apply ok_divsd; exact HN|].
    intros q _. now apply ok_ret.
  - now apply ok_ret.
Qed.

Lemma PFC_SquaredRMSCalculate_ok (p : PFC_RMS_SQUARE_T) (x : Z) :
  0 < RMS.sampleLimit p ->
  ok (PFC_SquaredRMSCalculate p x)
     (fun p' => RMS.sampleLimit p' = RMS.sampleLimit p).
Proof.
  intros HN. unfold PFC_SquaredRMSCalculate. rsimpl. case_if.
  - now apply ok_ret.
  - eapply ok_bind; [apply ok_divsd; exact HN|].
    intros q _. now apply ok_ret.
Qed.

Lemma PFC_SignalConditioning_ok (p : PFC_T) :
  filters_configured p ->
  ok (PFC_SignalConditioning p)
     (fun p' => conditioning_frame p p' /\ filters_configured p').
Proof.
  intros (H1 & H2 & H3). unfold PFC_SignalConditioning.
  eapply ok_bind; [apply PFC_Average_ok; exact H1|].
  intros a1 Ha1. rsimpl.
  eapply ok_bind; [apply PFC_Average_ok; exact H2|].
  intros a2 Ha2. rsimpl.
  eapply ok_bind; [apply PFC_SquaredRMSCalculate_ok; exact H3|].
  intros a3 Ha3. apply ok_ret. split.
  - unfold conditioning_frame. frame_eq p.
  - cbv beta in Ha1. rsimpl_in Ha2. rsimpl_in Ha3.
    unfold filters_configured. rsimpl. lia.
Qed.

(** *** Current reference generation *)

Lemma PFC_CurrentRefGenerate_ok (p : PFC_T) :
  ok (PFC_CurrentRefGenerate p)
     (fun p' =>
        current_ref_frame p p'
        /\ (PIController_keeps_reference ->
            PI.reference (piVoltage p') = PI.reference (piVoltage p))).
Proof.
  unfold PFC_CurrentRefGenerate.
  set (p1 := if VOLTAGE_LOOP_EXE_RATE <? voltLoopExeRate p then _ else _).
  assert (H1 : p1 = set_voltLoopExeRate (voltLoopExeRate p1)
                      (set_piVoltage (piVoltage p1) p)).
  { unfold p1. repeat case_if; frame_eq p. }
  assert (H2 : PIController_keeps_reference ->
               PI.reference (piVoltage p1) = PI.reference (piVoltage p)).
  { intros HPI. unfold p1. repeat case_if; rsimpl;
      rewrite ?HPI; by_fields. }
  clearbody p1.
  eapply ok_bind with
    (Q1 := fun p2 => p2 = set_currentReference (currentReference p2) p1).
  - case_if.
    + eapply ok_bind with (Q1 := fun _ => True).
      * case_if.
        -- apply Z.ltb_lt in C0.
           eapply ok_weaken; [apply ok_divf; exact C0|auto].
        -- now apply ok_ret.
      * intros t _. now apply ok_ret.
    + apply ok_ret. frame_eq p1.
  - intros p2 Hp2.
    assert (Hfr : forall q : PFC_T,
               q = set_currentReference (currentReference q) p2 ->
               current_ref_frame p q
               /\ (PIController_keeps_reference ->
                   PI.reference (piVoltage q) = PI.reference (piVoltage p))).
    { intros q Hq. split.
      - unfold current_ref_frame. rewrite Hq, Hp2, H1. frame_eq p.
      - intros HPI. rewrite Hq, Hp2. rsimpl. auto. }
    repeat case_if; apply ok_ret; apply Hfr; frame_eq p2.
Qed.

(** *** Case PFC_CTRL_RUN *)

Lemma PFC_CurrentSampleCorrection_ext (a b : PFC_T) :
  boostDutyRatio a = boostDutyRatio b ->
  PI.output (piCurrent a) = PI.output (piCurrent b) ->
  iL a = iL b ->
  PFC_CurrentSampleCorrection a = PFC_CurrentSampleCorrection b.
Proof.
  intros H1 H2 H3. unfold PFC_CurrentSampleCorrection.
  now rewrite H1, H2, H3.
Qed.

Lemma PFC_SoftStart_frame (p : PFC_T) :
  PFC_SoftStart p
  = set_rampRate (rampRate (PFC_SoftStart p))
      (set_piVoltage
         (PI.set_reference (PI.reference (piVoltage (PFC_SoftStart p)))
            (piVoltage p)) p).
Proof.
  unfold PFC_SoftStart. repeat case_if; rsimpl.
  all: unfold PI.set_reference; destruct p as [? ? ? ? ? ? ? ? pv ? ? ? ? ? ? ? ? ?];
    destruct pv; reflexivity.
Qed.

Lemma PFC_RunNoFault_ok (p : PFC_T) :
  ok (PFC_RunNoFault p)
     (fun p' =>
        run_frame p p'
        /\ rampRate p' = rampRate (PFC_SoftStart p)
        /\ (PIController_keeps_reference ->
            PI.reference (piVoltage p')
            = PI.reference (piVoltage (PFC_SoftStart p)))
        /\ iL p' = (if iL p <? 0 then 1 else iL p)
        /\ (MEASV.vdc (pfcVoltage p) <= 0 ->
            boostDutyRatio p' = boostDutyRatio p
            /\ (sampleCorrectionEnable p = 1 ->
                exists lq,
                  PFC_CurrentSampleCorrection (set_iL (iL p') p)
                  = Some (averageCurrent p', lq)))).
Proof.
  unfold PFC_RunNoFault.
  pose proof (PFC_SoftStart_frame p) as H1.
  set (p1 := PFC_SoftStart p) in *.
  eapply ok_bind; [apply PFC_CurrentRefGenerate_ok|].
  intros p2 [H2 R2]. cbv beta in *.
  eapply ok_bind with
    (Q1 := fun p3 =>
             p3 = set_boostDutyRatio (boostDutyRatio p3) p2
             /\ (MEASV.vdc (pfcVoltage p2) <= 0 -> p3 = p2)).
  - case_if.
    + apply Z.ltb_lt in C.
      eapply ok_bind; [apply ok_divf; exact C|].
      intros r _. apply ok_ret. split; [reflexivity|lia].
    + apply ok_ret. split; [frame_eq p2|reflexivity].
  - intros p3 [H3 B3].
    eapply ok_bind; [apply PFC_CurrentControlLoop_ok|].
    intros p4 (H4 & _ & _ & _ & I4 & S4). cbv beta in *.
    unfold current_ref_frame in H2. unfold current_loop_frame in H4.
    assert (Hvdc : MEASV.vdc (pfcVoltage p2) = MEASV.vdc (pfcVoltage p)).
    { rewrite H2, H1. by_fields. }
    assert (HiL3 : iL p3 = iL p).
    { rewrite H3, H2, H1. by_fields. }
    assert (Hsce : sampleCorrectionEnable p3 = sampleCorrectionEnable p).
    { rewrite H3, H2, H1. by_fields. }
    assert (Hall : forall q : PFC_T,
               q = set_duty (duty q) (set_piCurrent (piCurrent q) p4) ->
               run_frame p q
               /\ rampRate q = rampRate p1
               /\ (PIController_keeps_reference ->
                   PI.reference (piVoltage q) = PI.reference (piVoltage p1))
               /\ iL q = (if iL p <? 0 then 1 else iL p)
               /\ (MEASV.vdc (pfcVoltage p) <= 0 ->
                   boostDutyRatio q = boostDutyRatio p
                   /\ (sampleCorrectionEnable p = 1 ->
                       exists lq,
                         PFC_CurrentSampleCorrection (set_iL (iL q) p)
                         = Some (averageCurrent q, lq)))).
    { intros q Hq.
      assert (HiLq : iL q = iL p4) by (rewrite Hq; by_fields).
      assert (Havq : averageCurrent q = averageCurrent p4)
        by (rewrite Hq; by_fields).
      split; [|split; [|split; [|split]]].
      - unfold run_frame. rewrite Hq, H4, H3, H2, H1. frame_eq p.
      - rewrite Hq, H4, H3, H2. by_fields.
      - intros HPI. rewrite <- (R2 HPI). rewrite Hq, H4, H3. by_fields.
      - rewrite HiLq, I4, HiL3. by_fields.
      - intros Hle. rewrite <- Hvdc in Hle. specialize (B3 Hle). subst p3.
        split.
        + rewrite Hq, H4, H2, H1. by_fields.
        + intros Hen. rewrite <- Hsce in Hen.
          destruct (S4 Hen) as [lq Hlq]. exists lq.
          rewrite HiLq, Havq, <- Hlq.
          apply PFC_CurrentSampleCorrection_ext;
            rewrite H2, H1; by_fields. }
    case_if; apply ok_ret; apply Hall; frame_eq p4.
Qed.

(** *** Fault bits *)

Lemma add_disjoint (x y : Z) : Z.land x y = 0 -> x + y = Z.lor x y.
Proof. intros H. pose proof (Z.add_lor_land x y). lia. Qed.

Lemma land_lnot_disjoint (x y : Z) : Z.land x y = 0 -> Z.land x (Z.lnot y) = x.
Proof. intros H. pose proof (Z.sub_land_same_l x y). lia. Qed.

Lemma land_lnot_range (x y : Z) :
  0 <= x -> 0 <= Z.land x (Z.lnot y) <= x.
Proof.
  intros H. pose proof (Z.sub_land_same_l x y).
  assert (0 <= Z.land x y) by (apply Z.land_nonneg; auto).
  assert (0 <= Z.land x (Z.lnot y)) by (apply Z.land_nonneg; auto).
  lia.
Qed.

Lemma wrapU16_land_lnot (x y : Z) :
  uint16_range x -> wrapU16 (Z.land x (Z.lnot y)) = Z.land x (Z.lnot y).
Proof.
  unfold uint16_range. intros H.
  pose proof (land_lnot_range x y ltac:(lia)).
  apply wrapU16_id. unfold uint16_range. lia.
Qed.

Lemma lor_range (x y : Z) : 0 <= x -> 0 <= y -> 0 <= Z.lor x y <= x + y.
Proof.
  intros Hx Hy. pose proof (Z.add_lor_land x y).
  assert (0 <= Z.land x y) by (apply Z.land_nonneg; auto).
  assert (0 <= Z.lor x y) by (apply Z.lor_nonneg; auto).
  lia.
Qed.

Lemma fault_union_range (a b c : bool) :
  fault_bits_disjoint -> uint16_range (fault_union a b c).
Proof.
  intros (_ & H1 & H2 & H3 & Hs & _). unfold fault_union, uint16_range.
  set (x := if a then PFC_FAULT_OP_OV else 0).
  set (y := if b then PFC_FAULT_IP_UV else 0).
  set (z := if c then PFC_FAULT_IP_OV else 0).
  assert (0 <= x <= PFC_FAULT_OP_OV) by (unfold x; destruct a; lia).
  assert (0 <= y <= PFC_FAULT_IP_UV) by (unfold y; destruct b; lia).
  assert (0 <= z <= PFC_FAULT_IP_OV) by (unfold z; destruct c; lia).
  pose proof (lor_range y z ltac:(lia) ltac:(lia)).
  pose proof (lor_range x (Z.lor y z) ltac:(lia) ltac:(lia)).
  lia.
Qed.

Lemma fault_union_clear_uv (a b c : bool) :
  fault_bits_disjoint ->
  Z.land (fault_union a b c) (Z.lnot PFC_FAULT_IP_UV) = fault_union a false c.
Proof.
  intros (_ & _ & _ & _ & _ & D1 & D2 & D3). unfold fault_union.
  rewrite !Z.land_lor_distr_l.
  f_equal; [|f_equal].
  - destruct a; [now apply land_lnot_disjoint | apply Z.land_0_l].
  - destruct b; [apply Z.land_lnot_diag | apply Z.land_0_l].
  - destruct c; [|apply Z.land_0_l].
    apply land_lnot_disjoint. now rewrite Z.land_comm.
Qed.

Lemma fault_union_clear_ov (a b c : bool) :
  fault_bits_disjoint ->
  Z.land (fault_union a b c) (Z.lnot PFC_FAULT_IP_OV) = fault_union a b false.
Proof.
  intros (_ & _ & _ & _ & _ & D1 & D2 & D3). unfold fault_union.
  rewrite !Z.land_lor_distr_l.
  f_equal; [|f_equal].
  - destruct a; [now apply land_lnot_disjoint | apply Z.land_0_l].
  - destruct b; [now apply land_lnot_disjoint | apply Z.land_0_l].
  - destruct c; [apply Z.land_lnot_diag | apply Z.land_0_l].
Qed.

Lemma fault_union_sum (a b c : bool) :
  fault_bits_disjoint ->
  (if a then PFC_FAULT_OP_OV else 0) + (if b then PFC_FAULT_IP_UV else 0)
  + (if c then PFC_FAULT_IP_OV else 0) = fault_union a b c.
Proof.
  intros (_ & _ & _ & _ & _ & D1 & D2 & D3). unfold fault_union.
  set (x := if a then PFC_FAULT_OP_OV else 0).
  set (y := if b then PFC_FAULT_IP_UV else 0).
  set (z := if c then PFC_FAULT_IP_OV else 0).
  assert (Hxy : Z.land x y = 0)
    by (unfold x, y; destruct a, b;
        rewrite ?Z.land_0_l, ?Z.land_0_r; auto).
  assert (Hxz : Z.land x z = 0)
    by (unfold x, z; destruct a, c;
        rewrite ?Z.land_0_l, ?Z.land_0_r; auto).
  assert (Hyz : Z.land y z = 0)
    by (unfold y, z; destruct b, c;
        rewrite ?Z.land_0_l, ?Z.land_0_r; auto).
  rewrite <- (add_disjoint y z Hyz).
  rewrite <- add_disjoint; [lia|].
  rewrite (add_disjoint y z Hyz), Z.land_lor_distr_r, Hxy, Hxz.
  reflexivity.
Qed.

Lemma PFC_FaultCheck_frame (p : PFC_T) :
  PFC_FaultCheck p = set_faultStatus (faultStatus (PFC_FaultCheck p)) p.
Proof.
  unfold PFC_FaultCheck. repeat case_if; frame_eq p.
Qed.

(** Called with an empty fault status, [PFC_FaultCheck] returns the
    bitwise union of the bits of the conditions it detects. *)
Lemma PFC_FaultCheck_union (p : PFC_T) :
  fault_bits_disjoint ->
  faultStatus p = PFC_FAULT_NONE ->
  faultStatus (PFC_FaultCheck p)
  = fault_union
      (PFC_OUTPUT_OVER_VOLTAGE_LIMIT <=? AVG.output (vdcAVG p))
      (RMS.sqrOutput (vacRMS p) <? PFC_INPUT_UNDER_VOLTAGE_LIMIT_LO)
      (PFC_INPUT_OVER_VOLTAGE_LIMIT_HI <=? RMS.sqrOutput (vacRMS p)).
Proof.
  intros Hd Hfs.
  rewrite <- (fault_union_sum _ _ _ Hd).
  destruct Hd as (H0 & H1 & H2 & H3 & Hs & _).
  unfold PFC_FaultCheck. cbv zeta.
  destruct (PFC_OUTPUT_OVER_VOLTAGE_LIMIT <=? AVG.output (vdcAVG p));
    rsimpl;
    destruct (RMS.sqrOutput (vacRMS p) <? PFC_INPUT_UNDER_VOLTAGE_LIMIT_LO);
    rsimpl;
    destruct (PFC_INPUT_OVER_VOLTAGE_LIMIT_HI <=? RMS.sqrOutput (vacRMS p));
    rsimpl; rewrite Hfs, H0;
    repeat match goal with
           | |- context [wrapU16 ?x] =>
               rewrite (wrapU16_id x) by (unfold uint16_range; lia)
           end; lia.
Qed.

(** *** Case PFC_FAULT *)

Lemma PFC_CaseFault_spec (p : PFC_T) :
  exists q st l,
    PFC_CaseFault p = Some ((q, st), l)
    /\ fault_frame p q
    /\ duty q = 0
    /\ faultStatus q
       = (let fs1 :=
            if PFC_INPUT_UNDER_VOLTAGE_LIMIT_HI <=? RMS.sqrOutput (vacRMS p)
            then wrapU16 (Z.land (faultStatus p) (Z.lnot PFC_FAULT_IP_UV))
            else faultStatus p in
          if RMS.sqrOutput (vacRMS p) <? PFC_INPUT_OVER_VOLTAGE_LIMIT_LO
          then wrapU16 (Z.land fs1 (Z.lnot PFC_FAULT_IP_OV))
          else fs1)
    /\ (faultStatus q = PFC_FAULT_NONE ->
        st = PFC_CTRL_RUN
        /\ l = [HAL_PFCPWMDisableOutputs; HAL_PFCPWMEnableOutputs]
        /\ PI.integralOut (piVoltage q) = 0
        /\ PI.integralOut (piCurrent q) = 0
        /\ PI.reference (piVoltage q) = AVG.output (vdcAVG p))
    /\ (faultStatus q <> PFC_FAULT_NONE ->
        st = PFC_FAULT /\ l = [HAL_PFCPWMDisableOutputs]).
Proof.
  unfold PFC_CaseFault, emit, bind, ret. cbv zeta.
  set (p1 := if PFC_INPUT_UNDER_VOLTAGE_LIMIT_HI <=? _ then _ else _).
  assert (H1 : p1 = set_faultStatus (faultStatus p1) (set_duty 0 p)).
  { unfold p1. case_if; frame_eq p. }
  assert (F1 : faultStatus p1
               = if PFC_INPUT_UNDER_VOLTAGE_LIMIT_HI
                    <=? RMS.sqrOutput (vacRMS p)
                 then wrapU16 (Z.land (faultStatus p)
                                 (Z.lnot PFC_FAULT_IP_UV))
                 else faultStatus p).
  { unfold p1. rsimpl. case_if; reflexivity. }
  assert (V1 : vacRMS p1 = vacRMS p) by (rewrite H1; by_fields).
  clearbody p1. rewrite V1.
  set (p2 := if RMS.sqrOutput (vacRMS p) <? _ then _ else _).
  assert (H2 : p2 = set_faultStatus (faultStatus p2) (set_duty 0 p)).
  { unfold p2. case_if; rewrite H1; frame_eq p. }
  assert (F2 : faultStatus p2
               = if RMS.sqrOutput (vacRMS p) <? PFC_INPUT_OVER_VOLTAGE_LIMIT_LO
                 then wrapU16 (Z.land (faultStatus p1)
                                 (Z.lnot PFC_FAULT_IP_OV))
                 else faultStatus p1).
  { unfold p2. case_if; reflexivity. }
  clearbody p2. rewrite <- F1, <- F2.
  destruct (faultStatus p2 =? PFC_FAULT_NONE) eqn:C; bool2prop.
  - do 3 eexists. split; [reflexivity|]. rsimpl.
    split; [unfold fault_frame; rewrite H2; frame_eq p|].
    split; [rewrite H2; by_fields|]. split; [by_fields|].
    split; [|intros Hn; contradiction].
    intros _. repeat split. rewrite H2. by_fields.
  - do 3 eexists. split; [reflexivity|]. rsimpl.
    split; [unfold fault_frame; rewrite H2; frame_eq p|].
    split; [rewrite H2; by_fields|]. split; [by_fields|].
    split; [intros Hn; contradiction|]. auto.
Qed.

(** *** The state machine *)

Lemma PFC_Average_calls (p p' : PFC_AVG_T) (x : Z) (l : list event) :
  PFC_Average p x = Some (p', l) -> power_stage_calls l = [].
Proof.
  unfold PFC_Average. rsimpl. case_if; intros H; minv; subst; reflexivity.
Qed.

Lemma PFC_SquaredRMSCalculate_calls
      (p p' : PFC_RMS_SQUARE_T) (x : Z) (l : list event) :
  PFC_SquaredRMSCalculate p x = Some (p', l) -> power_stage_calls l = [].
Proof.
  unfold PFC_SquaredRMSCalculate. rsimpl.
  case_if; intros H; minv; subst; reflexivity.
Qed.

Lemma power_stage_calls_app (l1 l2 : list event) :
  power_stage_calls (l1 ++ l2) = power_stage_calls l1 ++ power_stage_calls l2.
Proof. apply filter_app. Qed.

Lemma PFC_SignalConditioning_calls (p p' : PFC_T) (l : list event) :
  PFC_SignalConditioning p = Some (p', l) -> power_stage_calls l = [].
Proof.
  unfold PFC_SignalConditioning. intros H. minv. cbv beta in *. minv. subst.
  rewrite !power_stage_calls_app.
  erewrite PFC_Average_calls by eassumption.
  erewrite PFC_Average_calls by eassumption.
  erewrite PFC_SquaredRMSCalculate_calls by eassumption.
  reflexivity.
Qed.

Lemma PFC_StateMachine_compose (p pc : PFC_T) (l1 l2 : list event)
      (r : PFC_T * PFC_STATE_T) :
  PFC_SignalConditioning p = Some (pc, l1) ->
  PFC_StateSwitch (state p) pc = Some (r, l2) ->
  PFC_StateMachine p = Some (set_state (snd r) (fst r), l1 ++ l2).
Proof.
  intros E1 E2. unfold PFC_StateMachine.
  apply bind_Some with (a := pc); [exact E1|].
  replace l2 with (l2 ++ []) by apply app_nil_r.
  apply bind_Some with (a := r); [exact E2|reflexivity].
Qed.

Lemma PFC_StateMachine_inv (p p' : PFC_T) (l : list event) :
  PFC_StateMachine p = Some (p', l) ->
  exists pc l1 r l2,
    PFC_SignalConditioning p = Some (pc, l1)
    /\ PFC_StateSwitch (state p) pc = Some (r, l2)
    /\ p' = set_state (snd r) (fst r) /\ l = l1 ++ l2.
Proof.
  unfold PFC_StateMachine. intros H. minv. cbv beta in *. minv. subst.
  rewrite app_nil_r. eauto 10.
Qed.

Lemma land_clear_same (x a : Z) : Z.land (Z.land x (Z.lnot a)) a = 0.
Proof.
  rewrite <- Z.land_assoc, (Z.land_comm (Z.lnot a) a), Z.land_lnot_diag.
  apply Z.land_0_r.
Qed.

Lemma land_clear_other (x a b : Z) :
  Z.land a b = 0 -> Z.land (Z.land x (Z.lnot b)) a = Z.land x a.
Proof.
  intros H. rewrite <- Z.land_assoc, (Z.land_comm (Z.lnot b) a).
  now rewrite (land_lnot_disjoint a b H).
Qed.

(** The fault status after the recovery tests of case PFC_FAULT, bit by
    bit. *)
Lemma fault_recovery_bits (fs sq : Z) :
  uint16_range fs ->
  Z.land PFC_FAULT_IP_UV PFC_FAULT_IP_OV = 0 ->
  let fs1 :=
    if PFC_INPUT_UNDER_VOLTAGE_LIMIT_HI <=? sq
    then wrapU16 (Z.land fs (Z.lnot PFC_FAULT_IP_UV)) else fs in
  let fs2 :=
    if sq <? PFC_INPUT_OVER_VOLTAGE_LIMIT_LO
    then wrapU16 (Z.land fs1 (Z.lnot PFC_FAULT_IP_OV)) else fs1 in
  (Z.land fs2 PFC_FAULT_IP_UV <> 0 <->
   Z.land fs PFC_FAULT_IP_UV <> 0 /\ sq < PFC_INPUT_UNDER_VOLTAGE_LIMIT_HI)
  /\ (Z.land fs2 PFC_FAULT_IP_OV <> 0 <->
      Z.land fs PFC_FAULT_IP_OV <> 0 /\ PFC_INPUT_OVER_VOLTAGE_LIMIT_LO <= sq).
Proof.
  intros Hfs Hd fs1 fs2.
  assert (Hd' : Z.land PFC_FAULT_IP_OV PFC_FAULT_IP_UV = 0)
    by now rewrite Z.land_comm.
  assert (R1 : uint16_range fs1).
  { unfold fs1. case_if; [|exact Hfs]. apply wrapU16_range. }
  unfold fs2, fs1.
  destruct (PFC_INPUT_UNDER_VOLTAGE_LIMIT_HI <=? sq) eqn:C1;
    destruct (sq <? PFC_INPUT_OVER_VOLTAGE_LIMIT_LO) eqn:C2; bool2prop;
    rewrite ?wrapU16_land_lnot by (try apply wrapU16_range; exact Hfs);
    rewrite ?land_clear_same, ?(land_clear_other _ _ _ Hd),
      ?(land_clear_other _ _ _ Hd'), ?land_clear_same;
    split; split; try tauto; try lia; intros [? ?]; try lia; auto.
Qed.

(** C2. In state PFC_FAULT every cycle sets duty to 0 and first calls
    HAL_PFCPWMDisableOutputs.  The input under-voltage bit survives the
    cycle exactly when it was set and RMS-squared is below
    PFC_INPUT_UNDER_VOLTAGE_LIMIT_HI; the input over-voltage bit exactly
    when it was set and RMS-squared is at least
    PFC_INPUT_OVER_VOLTAGE_LIMIT_LO.  When the fault status ends the cycle
    empty, both PI integrals are 0, the voltage reference is the DC-bus
    average of this cycle, the state is PFC_CTRL_RUN and the power stage
    has been enabled again; otherwise the state stays PFC_FAULT and the
    power stage stays disabled. *)
Theorem PFC_StateMachine_fault_state (pfcData : PFC_T) :
  state pfcData = PFC_FAULT ->
  filters_configured pfcData ->
  uint16_range (faultStatus pfcData) ->
  Z.land PFC_FAULT_IP_UV PFC_FAULT_IP_OV = 0 ->
  exists p' l,
    PFC_StateMachine pfcData = Some (p', l)
    /\ duty p' = 0
    /\ hd_error (power_stage_calls l) = Some HAL_PFCPWMDisableOutputs
    /\ (fault_bit_set PFC_FAULT_IP_UV p' <->
        fault_bit_set PFC_FAULT_IP_UV pfcData
        /\ RMS.sqrOutput (vacRMS p') < PFC_INPUT_UNDER_VOLTAGE_LIMIT_HI)
    /\ (fault_bit_set PFC_FAULT_IP_OV p' <->
        fault_bit_set PFC_FAULT_IP_OV pfcData
        /\ PFC_INPUT_OVER_VOLTAGE_LIMIT_LO <= RMS.sqrOutput (vacRMS p'))
    /\ (faultStatus p' = PFC_FAULT_NONE ->
        PI.integralOut (piVoltage p') = 0
        /\ PI.integralOut (piCurrent p') = 0
        /\ PI.reference (piVoltage p') = AVG.output (vdcAVG p')
        /\ state p' = PFC_CTRL_RUN
        /\ power_stage_calls l
           = [HAL_PFCPWMDisableOutputs; HAL_PFCPWMEnableOutputs])
    /\ (faultStatus p' <> PFC_FAULT_NONE ->
        state p' = PFC_FAULT
        /\ power_stage_calls l = [HAL_PFCPWMDisableOutputs]).
Proof.
  intros Hst Hcf Hfs Hd.
  destruct (PFC_SignalConditioning_ok pfcData Hcf)
    as (pc & l1 & E1 & _ & Hfr & _).
  destruct (PFC_CaseFault_spec pc)
    as (q & st & lf & E2 & Hff & Hduty & Hfsq & Hclr & Hnot).
  pose proof (PFC_SignalConditioning_calls _ _ _ E1) as Hl1.
  assert (Hfpc : faultStatus pc = faultStatus pfcData)
    by (rewrite Hfr; by_fields).
  assert (Hrms : vacRMS q = vacRMS pc) by (rewrite Hff; by_fields).
  assert (Havg : vdcAVG q = vdcAVG pc) by (rewrite Hff; by_fields).
  exists (set_state st q), (l1 ++ lf).
  split.
  { apply (PFC_StateMachine_compose _ pc _ _ (q, st)); [exact E1|].
    rewrite Hst. exact E2. }
  rewrite power_stage_calls_app, Hl1. cbn [app].
  unfold fault_bit_set. rsimpl. rewrite Hrms, Havg.
  rewrite Hfpc in Hfsq.
  pose proof (fault_recovery_bits (faultStatus pfcData)
                (RMS.sqrOutput (vacRMS pc)) Hfs Hd) as [Huv Hov].
  cbv zeta in Huv, Hov, Hfsq. rewrite <- Hfsq in Huv, Hov.
  split; [exact Hduty|].
  split.
  { destruct (Z.eq_dec (faultStatus q) PFC_FAULT_NONE) as [e|n].
    - destruct (Hclr e) as (_ & -> & _). reflexivity.
    - destruct (Hnot n) as (_ & ->). reflexivity. }
  split; [exact Huv|]. split; [exact Hov|].
  split.
  - intros e. destruct (Hclr e) as (-> & -> & I1 & I2 & R).
    repeat split; auto.
  - intros n. destruct (Hnot n) as (-> & ->). split; reflexivity.
Qed.

Lemma PFC_SoftStart_ext (a b : PFC_T) :
  PI.reference (piVoltage a) = PI.reference (piVoltage b) ->
  rampRate a = rampRate b ->
  rampRate (PFC_SoftStart a) = rampRate (PFC_SoftStart b)
  /\ PI.reference (piVoltage (PFC_SoftStart a))
     = PI.reference (piVoltage (PFC_SoftStart b)).
Proof.
  intros H1 H2. unfold PFC_SoftStart. rewrite H1, H2.
  repeat case_if; rsimpl; auto.
Qed.

Lemma PFC_FaultCheck_ext (a b : PFC_T) :
  vdcAVG a = vdcAVG b -> vacRMS a = vacRMS b ->
  faultStatus a = faultStatus b ->
  faultStatus (PFC_FaultCheck a) = faultStatus (PFC_FaultCheck b).
Proof.
  intros H1 H2 H3. unfold PFC_FaultCheck. cbv zeta. rewrite H1.
  destruct (PFC_OUTPUT_OVER_VOLTAGE_LIMIT <=? AVG.output (vdcAVG b));
    rsimpl; rewrite ?H2;
    destruct (RMS.sqrOutput (vacRMS b) <? PFC_INPUT_UNDER_VOLTAGE_LIMIT_LO);
    rsimpl; rewrite ?H2;
    destruct (PFC_INPUT_OVER_VOLTAGE_LIMIT_HI <=? RMS.sqrOutput (vacRMS b));
    rsimpl; rewrite ?H3; reflexivity.
Qed.

Lemma PFC_CaseCtrlRun_ok (p : PFC_T) :
  ok (PFC_CaseCtrlRun p)
     (fun r =>
        faultStatus (fst r) = faultStatus (PFC_FaultCheck p)
        /\ vdcAVG (fst r) = vdcAVG p /\ vacRMS (fst r) = vacRMS p
        /\ window_lengths (fst r) = window_lengths p
        /\ ((snd r = PFC_CTRL_RUN
             /\ faultStatus (fst r) = PFC_FAULT_NONE
             /\ rampRate (fst r) = rampRate (PFC_SoftStart p)
             /\ (PIController_keeps_reference ->
                 PI.reference (piVoltage (fst r))
                 = PI.reference (piVoltage (PFC_SoftStart p)))
             /\ (MEASV.vdc (pfcVoltage p) <= 0 ->
                 boostDutyRatio (fst r) = boostDutyRatio p
                 /\ (sampleCorrectionEnable p = 1 ->
                     exists lq,
                       PFC_CurrentSampleCorrection (set_iL (iL (fst r)) p)
                       = Some (averageCurrent (fst r), lq))))
            \/ (snd r = PFC_FAULT
                /\ faultStatus (fst r) <> PFC_FAULT_NONE))).
Proof.
  unfold PFC_CaseCtrlRun.
  set (p0 := if ENABLE_PFC_CURRENT_OFFSET_CORRECTION then _ else p).
  assert (H0 : p0 = set_iL (iL p0) p).
  { unfold p0. case_if; frame_eq p. }
  pose proof (PFC_FaultCheck_frame p0) as Hf.
  assert (Hfs : faultStatus (PFC_FaultCheck p0)
                = faultStatus (PFC_FaultCheck p)).
  { apply PFC_FaultCheck_ext; rewrite H0; by_fields. }
  clearbody p0.
  set (pf := PFC_FaultCheck p0) in *.
  destruct (faultStatus pf =? PFC_FAULT_NONE) eqn:C; bool2prop.
  - eapply ok_bind; [apply PFC_RunNoFault_ok|].
    intros q (Hq & Hrr & Href & HiL & Hb). cbv beta in *.
    apply ok_ret. rsimpl. unfold run_frame in Hq.
    assert (Hfq : faultStatus q = faultStatus pf)
      by (rewrite Hq; by_fields).
    destruct (PFC_SoftStart_ext pf p) as [S1 S2];
      [rewrite Hf, H0; by_fields .. |].
    split; [now rewrite Hfq|].
    split; [rewrite Hq, Hf, H0; by_fields|].
    split; [rewrite Hq, Hf, H0; by_fields|].
    split; [unfold window_lengths; rewrite Hq, Hf, H0; by_fields|].
    left. split; [by_fields|]. split; [now rewrite Hfq|].
    split; [now rewrite Hrr|].
    split; [intros HPI; now rewrite (Href HPI)|].
    intros Hv.
    assert (Hv' : MEASV.vdc (pfcVoltage pf) <= 0)
      by (rewrite Hf, H0; exact Hv).
    destruct (Hb Hv') as [B1 B2]. split.
    + rewrite B1, Hf, H0. by_fields.
    + intros Hen.
      assert (Hen' : sampleCorrectionEnable pf = 1)
        by (rewrite Hf, H0; exact Hen).
      destruct (B2 Hen') as [lq Hlq]. exists lq. rewrite <- Hlq.
      apply PFC_CurrentSampleCorrection_ext; rewrite Hf, H0; by_fields.
  - apply ok_ret. rsimpl.
    split; [exact Hfs|].
    split; [rewrite Hf, H0; by_fields|].
    split; [rewrite Hf, H0; by_fields|].
    split; [unfold window_lengths; rewrite Hf, H0; by_fields|].
    right. split; [reflexivity|exact C].
Qed.

Lemma PFC_StateSwitch_ok (st : PFC_STATE_T) (p : PFC_T) :
  ok (PFC_StateSwitch st p)
     (fun r => window_lengths (fst r) = window_lengths p).
Proof.
  destruct st; cbn [PFC_StateSwitch].
  - eapply ok_bind; [apply ok_emit with (Q := fun _ => True); exact I|].
    intros _ _. now apply ok_ret.
  - case_if; now apply ok_ret.
  - case_if.
    + eapply ok_bind; [apply ok_emit with (Q := fun _ => True); exact I|].
      intros _ _. now apply ok_ret.
    + now apply ok_ret.
  - eapply ok_weaken; [apply PFC_CaseCtrlRun_ok|].
    intros r (_ & _ & _ & H & _). exact H.
  - destruct (PFC_CaseFault_spec p) as (q & s & l & E & Hfr & _).
    exists (q, s), l. split; [exact E|]. split.
    + unfold PFC_CaseFault, emit, bind, ret in E.
      repeat case_if_in E; inversion E; repeat constructor.
    + unfold window_lengths. rsimpl. rewrite Hfr. by_fields.
  - now apply ok_ret.
Qed.

Lemma filters_configured_window (p q : PFC_T) :
  window_lengths q = window_lengths p ->
  filters_configured p -> filters_configured q.
Proof.
  unfold window_lengths, filters_configured. intros H. inversion H.
  congruence.
Qed.

(** A cycle on a context with configured filters completes without a
    trap, divides by strictly positive divisors only and keeps the
    filters configured. *)
Lemma PFC_StateMachine_ok (p : PFC_T) :
  filters_configured p ->
  ok (PFC_StateMachine p) (fun p' => filters_configured p').
Proof.
  intros Hc. unfold PFC_StateMachine.
  eapply ok_bind; [apply PFC_SignalConditioning_ok; exact Hc|].
  intros pc [_ Hpc]. cbv beta.
  eapply ok_bind; [apply PFC_StateSwitch_ok|].
  intros r Hr. cbv beta in Hr. apply ok_ret.
  apply (filters_configured_window pc); [|exact Hpc].
  rewrite <- Hr. by_fields.
Qed.

(** What a cycle that starts in PFC_CTRL_RUN does to the control
    context. *)
Lemma PFC_StateMachine_run (p p' : PFC_T) (l : list event) :
  state p = PFC_CTRL_RUN ->
  PFC_StateMachine p = Some (p', l) ->
  faultStatus p'
  = faultStatus (PFC_FaultCheck (set_faultStatus (faultStatus p) p'))
  /\ ((state p' = PFC_CTRL_RUN
       /\ faultStatus p' = PFC_FAULT_NONE
       /\ rampRate p' = rampRate (PFC_SoftStart p)
       /\ (PIController_keeps_reference ->
           PI.reference (piVoltage p')
           = PI.reference (piVoltage (PFC_SoftStart p)))
       /\ (MEASV.vdc (pfcVoltage p) <= 0 ->
           boostDutyRatio p' = boostDutyRatio p
           /\ (sampleCorrectionEnable p = 1 ->
               exists lq,
                 PFC_CurrentSampleCorrection (set_iL (iL p') p)
                 = Some (averageCurrent p', lq))))
      \/ (state p' = PFC_FAULT /\ faultStatus p' <> PFC_FAULT_NONE)).
Proof.
  intros Hst H.
  destruct (PFC_StateMachine_inv _ _ _ H)
    as (pc & l1 & r & l2 & E1 & E2 & -> & ->).
  rewrite Hst in E2. cbn [PFC_StateSwitch] in E2.
  destruct (ok_inv _ _ _ _ (PFC_CaseCtrlRun_ok pc) E2)
    as [(Hfs & Hdc & Hrms & _ & Hcase) _].
  assert (Hc : conditioning_frame p pc).
  { unfold PFC_SignalConditioning in E1. minv. cbv beta in *. minv.
    subst. unfold conditioning_frame. frame_eq p. }
  unfold conditioning_frame in Hc. rsimpl. split.
  - rewrite Hfs. apply PFC_FaultCheck_ext; rsimpl; auto.
    rewrite Hc. by_fields.
  - destruct Hcase as [(S & F & RR & REF & B)|(S & F)]; [left|right; auto].
    destruct (PFC_SoftStart_ext pc p) as [S1 S2];
      [rewrite Hc; by_fields .. |].
    split; [exact S|]. split; [exact F|].
    split; [now rewrite RR|].
    split; [intros HPI; now rewrite (REF HPI)|].
    intros Hv.
    assert (Hv' : MEASV.vdc (pfcVoltage pc) <= 0)
      by (rewrite Hc; exact Hv).
    destruct (B Hv') as [B1 B2]. split.
    + rewrite B1, Hc. by_fields.
    + intros Hen.
      assert (Hen' : sampleCorrectionEnable pc = 1)
        by (rewrite Hc; exact Hen).
      destruct (B2 Hen') as [lq Hlq]. exists lq. rewrite <- Hlq.
      apply PFC_CurrentSampleCorrection_ext; rewrite Hc; by_fields.
Qed.

(** *** The interrupt and the reachable contexts *)

Lemma PFC_LoadSamples_frame (adc : ADCBUF) (p : PFC_T) :
  PFC_LoadSamples adc p
  = set_pfcCurrent (pfcCurrent (PFC_LoadSamples adc p))
      (set_pfcVoltage (pfcVoltage (PFC_LoadSamples adc p)) p).
Proof. unfold PFC_LoadSamples. frame_eq p. Qed.

Lemma PFC_ADCInterrupt_inv (adc : ADCBUF) (p p' : PFC_T) (l : list event) :
  PFC_ADCInterrupt adc p = Some (p', l) ->
  exists q lq,
    PFC_StateMachine (PFC_LoadSamples adc p) = Some (q, lq)
    /\ p' = set_duty (duty p') q.
Proof.
  unfold PFC_ADCInterrupt. intros H.
  apply bind_inv in H. destruct H as (q & lq & l1 & Eq & H & _).
  apply bind_inv in H. destruct H as (q' & l2 & l3 & Ed & H & _).
  apply bind_inv in H. destruct H as (u & l4 & l5 & _ & H & _).
  apply ret_inv in H. destruct H as [-> _].
  exists q, lq. split; [exact Eq|].
  destruct DEBUG_BOOST.
  - apply bind_inv in Ed. destruct Ed as (u' & l6 & l7 & _ & Ed & _).
    apply ret_inv in Ed. destruct Ed as [-> _]. frame_eq q.
  - apply ret_inv in Ed. destruct Ed as [-> _]. frame_eq q.
Qed.

Lemma PFC_ADCInterrupt_ok (adc : ADCBUF) (p : PFC_T) :
  filters_configured p ->
  ok (PFC_ADCInterrupt adc p) (fun p' => filters_configured p').
Proof.
  intros Hc. unfold PFC_ADCInterrupt.
  eapply ok_bind.
  - apply PFC_StateMachine_ok.
    apply (filters_configured_window p); [|exact Hc].
    rewrite PFC_LoadSamples_frame. by_fields.
  - intros q Hq. cbv beta in Hq.
    eapply ok_bind with (Q1 := fun q' => filters_configured q').
    + case_if.
      * eapply ok_bind; [apply ok_emit with (Q := fun _ => True); exact I|].
        intros _ _. apply ok_ret. exact Hq.
      * apply ok_ret. exact Hq.
    + intros q' Hq'.
      eapply ok_bind; [apply ok_emit with (Q := fun _ => True); exact I|].
      intros _ _. apply ok_ret. exact Hq'.
Qed.

Lemma reachable_filters_configured (p : PFC_T) :
  windows_positive -> reachable p -> filters_configured p.
Proof.
  intros (W1 & W2 & W3) H. induction H as [p0|p adc p' l Hr IH E].
  - unfold filters_configured, PFC_ParamsInit. rsimpl. auto.
  - destruct (ok_inv _ _ _ _ (PFC_ADCInterrupt_ok adc p IH) E) as [Hc _].
    exact Hc.
Qed.

(** C3. The three fractional divisions are guarded for every control
    context: PFC_CurrentSampleCorrection, PFC_CurrentRefGenerate and the
    no-fault body of PFC_CTRL_RUN (which computes boostDutyRatio) always
    return, and every division they perform has a strictly positive
    divisor.  The two integer divisions by the window length of a filter
    have no guard of their own: provided the window lengths that
    PFC_ParamsInit configures are positive, every interrupt from every
    reachable context returns without an arithmetic trap and divides by
    strictly positive divisors only. *)
Theorem divisions_guarded :
  (forall pData : PFC_T,
      ok (PFC_CurrentSampleCorrection pData) (fun _ => True))
  /\ (forall pData : PFC_T,
         ok (PFC_CurrentRefGenerate pData) (fun _ => True))
  /\ (forall pData : PFC_T, ok (PFC_RunNoFault pData) (fun _ => True))
  /\ (windows_positive ->
      forall p : PFC_T, reachable p ->
      forall adc : ADCBUF,
      exists p' l,
        PFC_ADCInterrupt adc p = Some (p', l)
        /\ Forall positive_divisor l).
Proof.
  split; [exact PFC_CurrentSampleCorrection_ok|].
  split; [intros pData; eapply ok_weaken;
            [apply PFC_CurrentRefGenerate_ok|auto]|].
  split; [intros pData; eapply ok_weaken;
            [apply PFC_RunNoFault_ok|auto]|].
  intros W p Hr adc.
  destruct (PFC_ADCInterrupt_ok adc p (reachable_filters_configured p W Hr))
    as (p' & l & E & Hl & _).
  eauto.
Qed.

(** *** Fault status invariant *)

Lemma fault_union_none : fault_union false false false = 0.
Proof. reflexivity. Qed.

Lemma PFC_StateSwitch_invariant (st : PFC_STATE_T) (p : PFC_T)
      (r : PFC_T * PFC_STATE_T) (l : list event) :
  fault_bits_disjoint -> fault_invariant st p ->
  PFC_StateSwitch st p = Some (r, l) ->
  fault_invariant (snd r) (fst r).
Proof.
  intros Hd [Hnone Hun] H.
  assert (Hkeep : faultStatus (fst r) = faultStatus p ->
                  snd r <> PFC_FAULT -> st <> PFC_FAULT ->
                  fault_invariant (snd r) (fst r)).
  { intros E _ Hst. split; rewrite E; auto. }
  destruct st; cbn [PFC_StateSwitch] in H.
  - unfold emit, bind, ret in H. inversion H; subst.
    apply Hkeep; [reflexivity|discriminate|discriminate].
  - case_if_in H; minv; subst;
      (apply Hkeep; [reflexivity|discriminate|discriminate]).
  - case_if_in H; unfold emit, bind, ret in H; inversion H; subst;
      (apply Hkeep; [reflexivity|discriminate|discriminate]).
  - destruct (ok_inv _ _ _ _ (PFC_CaseCtrlRun_ok p) H)
      as [(Hfs & _ & _ & _ & Hcase) _].
    rewrite (PFC_FaultCheck_union p Hd) in Hfs
      by (apply Hnone; discriminate).
    split.
    + intros Hs. destruct Hcase as [(_ & F & _)|(S & _)];
        [exact F|contradiction].
    + eauto.
  - destruct (PFC_CaseFault_spec p)
      as (q & s & lf & E & _ & _ & Hfs & Hclr & Hnot).
    rewrite E in H. inversion H; subst. rsimpl.
    destruct Hun as (a & b & c & Hu).
    split.
    + intros Hs. destruct (Z.eq_dec (faultStatus q) PFC_FAULT_NONE) as [e|n];
        [exact e|]. destruct (Hnot n) as [S _]. contradiction.
    + cbv zeta in Hfs. rewrite Hu in Hfs.
      exists a.
      destruct (PFC_INPUT_UNDER_VOLTAGE_LIMIT_HI
                <=? RMS.sqrOutput (vacRMS p));
        destruct (RMS.sqrOutput (vacRMS p)
                  <? PFC_INPUT_OVER_VOLTAGE_LIMIT_LO);
        rewrite ?wrapU16_land_lnot in Hfs
          by (try apply wrapU16_range; apply fault_union_range; exact Hd);
        rewrite ?(fault_union_clear_uv _ _ _ Hd) in Hfs;
        rewrite ?(fault_union_clear_ov _ _ _ Hd) in Hfs; eauto.
  - minv. subst. apply Hkeep; [reflexivity|discriminate|discriminate].
Qed.

Lemma PFC_ADCInterrupt_invariant (adc : ADCBUF) (p p' : PFC_T)
      (l : list event) :
  fault_bits_disjoint -> fault_invariant (state p) p ->
  PFC_ADCInterrupt adc p = Some (p', l) ->
  fault_invariant (state p') p'.
Proof.
  intros Hd Hinv H.
  destruct (PFC_ADCInterrupt_inv _ _ _ _ H) as (q & lq & E & Hp').
  destruct (PFC_StateMachine_inv _ _ _ E)
    as (pc & l1 & r & l2 & E1 & E2 & Hq & _).
  assert (Hc : faultStatus pc = faultStatus p).
  { unfold PFC_SignalConditioning in E1. minv. cbv beta in *. minv.
    subst. reflexivity. }
  assert (Hs : state (PFC_LoadSamples adc p) = state p) by reflexivity.
  rewrite Hs in E2.
  assert (Hinv' : fault_invariant (state p) pc).
  { destruct Hinv as [H1 H2]. split; rewrite Hc; auto. }
  pose proof (PFC_StateSwitch_invariant _ _ _ _ Hd Hinv' E2) as [I1 I2].
  rewrite Hp', Hq. split; rsimpl; auto.
Qed.

(** C8. In every reachable control context the fault status is empty
    unless the state is PFC_FAULT (so PFC_FaultCheck, called in
    PFC_CTRL_RUN only, always starts from PFC_FAULT_NONE), the fault
    status is a bitwise union of fault bits, and a cycle that starts in
    PFC_CTRL_RUN ends with exactly the union of the bits of the
    conditions that hold on the filter outputs of that cycle. *)
Theorem fault_status_is_union (p : PFC_T) :
  fault_bits_disjoint -> reachable p ->
  (state p = PFC_CTRL_RUN -> faultStatus p = PFC_FAULT_NONE)
  /\ (state p <> PFC_FAULT -> faultStatus p = PFC_FAULT_NONE)
  /\ (exists a b c, faultStatus p = fault_union a b c)
  /\ (forall adc p' l,
        state p = PFC_CTRL_RUN ->
        PFC_ADCInterrupt adc p = Some (p', l) ->
        faultStatus p'
        = fault_union
            (PFC_OUTPUT_OVER_VOLTAGE_LIMIT <=? AVG.output (vdcAVG p'))
            (RMS.sqrOutput (vacRMS p') <? PFC_INPUT_UNDER_VOLTAGE_LIMIT_LO)
            (PFC_INPUT_OVER_VOLTAGE_LIMIT_HI <=? RMS.sqrOutput (vacRMS p'))).
Proof.
  intros Hd Hr.
  assert (Hinv : fault_invariant (state p) p).
  { induction Hr as [p0|p adc p' l Hr IH E].
    - assert (E : faultStatus (PFC_ParamsInit p0) = PFC_FAULT_NONE).
      { destruct Hd as [H0 _]. unfold PFC_ParamsInit. rsimpl.
        rewrite H0. reflexivity. }
      split.
      + intros _. exact E.
      + exists false, false, false. rewrite fault_union_none, E.
        now destruct Hd.
    - exact (PFC_ADCInterrupt_invariant _ _ _ _ Hd IH E). }
  destruct Hinv as [H1 H2].
  split; [intros Hs; apply H1; rewrite Hs; discriminate|].
  split; [exact H1|]. split; [exact H2|].
  intros adc p' l Hs E.
  destruct (PFC_ADCInterrupt_inv _ _ _ _ E) as (q & lq & Eq & Hp').
  assert (Hsl : state (PFC_LoadSamples adc p) = PFC_CTRL_RUN) by exact Hs.
  destruct (PFC_StateMachine_run _ _ _ Hsl Eq) as [Hfs _].
  assert (Hfl : faultStatus (PFC_LoadSamples adc p) = PFC_FAULT_NONE).
  { change (faultStatus p = PFC_FAULT_NONE). apply H1. rewrite Hs.
    discriminate. }
  rewrite Hfl in Hfs.
  rewrite (PFC_FaultCheck_union _ Hd) in Hfs by reflexivity.
  rewrite Hp'. exact Hfs.
Qed.

(** *** Soft start *)

Lemma fault_free_cycle_soft_start (p p' : PFC_T) :
  PIController_keeps_reference ->
  fault_free_cycle p p' ->
  rampRate p' = rampRate (PFC_SoftStart p)
  /\ PI.reference (piVoltage p')
     = PI.reference (piVoltage (PFC_SoftStart p)).
Proof.
  intros HPI (Hs & Hs' & adc & l & E).
  destruct (PFC_ADCInterrupt_inv _ _ _ _ E) as (q & lq & Eq & Hp').
  assert (Hsl : state (PFC_LoadSamples adc p) = PFC_CTRL_RUN) by exact Hs.
  assert (Hsq : state q = PFC_CTRL_RUN) by (rewrite Hp' in Hs'; exact Hs').
  destruct (PFC_StateMachine_run _ _ _ Hsl Eq) as [_ [H|[S _]]].
  - destruct H as (_ & _ & RR & REF & _).
    destruct (PFC_SoftStart_ext (PFC_LoadSamples adc p) p) as [S1 S2];
      [reflexivity .. |].
    rewrite Hp'. rsimpl. rewrite RR, (REF HPI). auto.
  - rewrite Hsq in S. discriminate.
Qed.

(** The soft start on a context whose reference and ramp counter are in
    the range of their types. *)
Lemma PFC_SoftStart_cases (p : PFC_T) :
  int16_range PFC_OUPUT_VOLTAGE_REFERENCE ->
  0 <= RAMP_COUNT -> PFC_OUPUT_VOLTAGE_REFERENCE + RAMP_COUNT <= 32768 ->
  uint16_range RAMP_RATE ->
  int16_range (PI.reference (piVoltage p)) -> uint16_range (rampRate p) ->
  let r := PI.reference (piVoltage p) in
  let r' := PI.reference (piVoltage (PFC_SoftStart p)) in
  let k' := rampRate (PFC_SoftStart p) in
  (r < PFC_OUPUT_VOLTAGE_REFERENCE -> rampRate p <> 0 ->
   r' = r /\ k' = rampRate p - 1)
  /\ (r < PFC_OUPUT_VOLTAGE_REFERENCE -> rampRate p = 0 ->
      r' = r + RAMP_COUNT /\ r' < PFC_OUPUT_VOLTAGE_REFERENCE + RAMP_COUNT
      /\ k' = RAMP_RATE)
  /\ (PFC_OUPUT_VOLTAGE_REFERENCE <= r ->
      r' = PFC_OUPUT_VOLTAGE_REFERENCE /\ k' = rampRate p)
  /\ int16_range r' /\ uint16_range k'.
Proof.
  unfold int16_range, uint16_range. intros HT HC HTC HR Hr Hk. cbv zeta.
  unfold PFC_SoftStart.
  destruct (PI.reference (piVoltage p) <? PFC_OUPUT_VOLTAGE_REFERENCE) eqn:C1;
    [destruct (rampRate p =? 0) eqn:C2|]; bool2prop; rsimpl.
  - rewrite (wrap16_id (PI.reference (piVoltage p) + RAMP_COUNT))
      by (unfold int16_range; lia).
    rewrite (wrapU16_id RAMP_RATE) by exact HR.
    repeat split; try lia.
  - rewrite (wrapU16_id (rampRate p - 1)) by (unfold uint16_range; lia).
    repeat split; try lia.
  - rewrite (wrap16_id PFC_OUPUT_VOLTAGE_REFERENCE) by exact HT.
    repeat split; try lia.
Qed.

(** C4 (amended).  In a fault-free PFC_CTRL_RUN cycle with the reference
    below PFC_OUPUT_VOLTAGE_REFERENCE, the reference either stays as it is
    (the ramp counter is decremented) or, when the counter is 0, grows by
    exactly RAMP_COUNT and the counter is reloaded with RAMP_RATE; while
    the counter holds k, the next k fault-free cycles leave the reference
    unchanged, so two steps are more than RAMP_RATE cycles apart.  The
    last step may carry the reference above the target, by less than
    RAMP_COUNT; from a reference at or above the target, the next
    fault-free cycle sets it to exactly the target, where it stays. *)
Theorem soft_start_ramp :
  PIController_keeps_reference ->
  int16_range PFC_OUPUT_VOLTAGE_REFERENCE ->
  0 <= RAMP_COUNT -> PFC_OUPUT_VOLTAGE_REFERENCE + RAMP_COUNT <= 32768 ->
  uint16_range RAMP_RATE ->
  (forall p p' : PFC_T,
      fault_free_cycle p p' ->
      int16_range (PI.reference (piVoltage p)) ->
      uint16_range (rampRate p) ->
      let r := PI.reference (piVoltage p) in
      let r' := PI.reference (piVoltage p') in
      (r < PFC_OUPUT_VOLTAGE_REFERENCE -> rampRate p <> 0 ->
       r' = r /\ rampRate p' = rampRate p - 1)
      /\ (r < PFC_OUPUT_VOLTAGE_REFERENCE -> rampRate p = 0 ->
          r' = r + RAMP_COUNT
          /\ r' < PFC_OUPUT_VOLTAGE_REFERENCE + RAMP_COUNT
          /\ rampRate p' = RAMP_RATE)
      /\ (PFC_OUPUT_VOLTAGE_REFERENCE <= r ->
          r' = PFC_OUPUT_VOLTAGE_REFERENCE))
  /\ (forall (n : nat) (p p' : PFC_T),
         fault_free_run n p p' ->
         int16_range (PI.reference (piVoltage p)) ->
         uint16_range (rampRate p) ->
         PI.reference (piVoltage p) < PFC_OUPUT_VOLTAGE_REFERENCE ->
         Z.of_nat n <= rampRate p ->
         PI.reference (piVoltage p') = PI.reference (piVoltage p)
         /\ rampRate p' = rampRate p - Z.of_nat n)
  /\ (forall (n : nat) (p p' : PFC_T),
         fault_free_run (S n) p p' ->
         int16_range (PI.reference (piVoltage p)) ->
         uint16_range (rampRate p) ->
         PFC_OUPUT_VOLTAGE_REFERENCE <= PI.reference (piVoltage p) ->
         PI.reference (piVoltage p') = PFC_OUPUT_VOLTAGE_REFERENCE).
Proof.
  intros HPI HT HC HTC HR.
  assert (Hstep : forall p p' : PFC_T,
             fault_free_cycle p p' ->
             int16_range (PI.reference (piVoltage p)) ->
             uint16_range (rampRate p) ->
             let r := PI.reference (piVoltage p) in
             let r' := PI.reference (piVoltage p') in
             (r < PFC_OUPUT_VOLTAGE_REFERENCE -> rampRate p <> 0 ->
              r' = r /\ rampRate p' = rampRate p - 1)
             /\ (r < PFC_OUPUT_VOLTAGE_REFERENCE -> rampRate p = 0 ->
                 r' = r + RAMP_COUNT
                 /\ r' < PFC_OUPUT_VOLTAGE_REFERENCE + RAMP_COUNT
                 /\ rampRate p' = RAMP_RATE)
             /\ (PFC_OUPUT_VOLTAGE_REFERENCE <= r ->
                 r' = PFC_OUPUT_VOLTAGE_REFERENCE /\ rampRate p' = rampRate p)
             /\ int16_range r' /\ uint16_range (rampRate p')).
  { intros p p' Hcyc Hr Hk.
    destruct (fault_free_cycle_soft_start p p' HPI Hcyc) as [-> ->].
    exact (PFC_SoftStart_cases p HT HC HTC HR Hr Hk). }
  split; [|split].
  - intros p p' Hcyc Hr Hk. cbv zeta.
    destruct (Hstep p p' Hcyc Hr Hk) as (A & B & C & _).
    split; [exact A|]. split; [exact B|]. intros Hge. now destruct (C Hge).
  - intros n p p' Hrun. induction Hrun as [p|n p p1 p2 Hcyc Hrun IH];
      intros Hr Hk Hlt Hn.
    + split; [reflexivity|]. cbn. lia.
    + destruct (Hstep p p1 Hcyc Hr Hk) as (A & _ & _ & R1 & K1).
      cbv zeta in A, R1. rewrite Nat2Z.inj_succ in Hn |- *.
      destruct A as [A1 A2]; [exact Hlt|lia|].
      rewrite A1 in R1.
      destruct IH as [I1 I2]; [rewrite A1; exact Hr|exact K1
                              |rewrite A1; exact Hlt|lia|].
      split; [now rewrite I1|lia].
  - assert (Hhold : forall (n : nat) (p p' : PFC_T),
               fault_free_run n p p' ->
               uint16_range (rampRate p) ->
               PI.reference (piVoltage p) = PFC_OUPUT_VOLTAGE_REFERENCE ->
               PI.reference (piVoltage p') = PFC_OUPUT_VOLTAGE_REFERENCE).
    { intros n p p' Hrun. induction Hrun as [p|n p p1 p2 Hcyc Hrun IH];
        intros Hk He; [exact He|].
      assert (Hr : int16_range (PI.reference (piVoltage p)))
        by (rewrite He; exact HT).
      destruct (Hstep p p1 Hcyc Hr Hk) as (_ & _ & C & _ & K1).
      cbv zeta in C. destruct C as [C1 C2]; [lia|].
      apply IH; [exact K1|exact C1]. }
    intros n p p' Hrun Hr Hk Hge. inversion Hrun as [|n' q p1 q' Hcyc Hrun']; subst.
    destruct (Hstep p p1 Hcyc Hr Hk) as (_ & _ & C & _ & K1).
    cbv zeta in C. destruct C as [C1 C2]; [exact Hge|].
    exact (Hhold n p1 p' Hrun' K1 C1).
Qed.

(** ** Further properties of the signal conditioning *)

(** Apart from the difference -32768, the rectifier returns the absolute
    value of the 16-bit difference vac - offsetVac, a value between 0 and
    32767; when the difference itself fits 16 bits it is |vac - offsetVac|. *)
Theorem PFC_SignalRectification_abs (pSignal : PFC_MEASURE_VOLTAGE_T) :
  (wrap16 (MEASV.vac pSignal - MEASV.offsetVac pSignal) <> -32768 ->
   PFC_SignalRectification pSignal
   = Z.abs (wrap16 (MEASV.vac pSignal - MEASV.offsetVac pSignal))
   /\ 0 <= PFC_SignalRectification pSignal <= 32767)
  /\ (-32767 <= MEASV.vac pSignal - MEASV.offsetVac pSignal <= 32767 ->
      PFC_SignalRectification pSignal
      = Z.abs (MEASV.vac pSignal - MEASV.offsetVac pSignal)).
Proof.
  assert (H : wrap16 (MEASV.vac pSignal - MEASV.offsetVac pSignal) <> -32768 ->
              PFC_SignalRectification pSignal
              = Z.abs (wrap16 (MEASV.vac pSignal - MEASV.offsetVac pSignal))
              /\ 0 <= PFC_SignalRectification pSignal <= 32767).
  { intros Hd. unfold PFC_SignalRectification.
    pose proof (wrap16_range (MEASV.vac pSignal - MEASV.offsetVac pSignal))
      as Hr. unfold int16_range in Hr.
    set (d := wrap16 (MEASV.vac pSignal - MEASV.offsetVac pSignal)) in *.
    destruct (d <? 0) eqn:C; bool2prop.
    - rewrite (wrap16_id (- d)) by (unfold int16_range; lia). lia.
    - lia. }
  split; [exact H|].
  intros Hr.
  assert (E : wrap16 (MEASV.vac pSignal - MEASV.offsetVac pSignal)
              = MEASV.vac pSignal - MEASV.offsetVac pSignal)
    by (apply wrap16_id; unfold int16_range; lia).
  destruct H as [H _]; [lia|]. now rewrite H, E.
Qed.

Lemma feed_samples_app {A : Type} (f : A -> Z -> M A) (xs ys : list Z) (a : A) :
  feed_samples f (xs ++ ys) a
  = bind (feed_samples f xs a) (fun a' => feed_samples f ys a').
Proof.
  revert a. induction xs as [|x xs IH]; intros a.
  - cbn [app feed_samples]. now rewrite bind_ret_l.
  - cbn [app feed_samples]. rewrite bind_assoc.
    unfold bind at 1 3. destruct (f a x) as [[a1 l1]|]; [|reflexivity].
    now rewrite IH.
Qed.

Lemma Zsum_app (xs ys : list Z) : Zsum (xs ++ ys) = Zsum xs + Zsum ys.
Proof.
  unfold Zsum. induction xs as [|x xs IH]; cbn [app fold_right]; lia.
Qed.

Lemma Zsum_bounds (xs : list Z) :
  Forall int16_range xs ->
  -32768 * Z.of_nat (length xs) <= Zsum xs <= 32767 * Z.of_nat (length xs).
Proof.
  unfold Zsum, int16_range. induction 1 as [|x xs Hx _ IH].
  - cbn. lia.
  - cbn [fold_right length]. rewrite Nat2Z.inj_succ. lia.
Qed.

(** A call on a filter inside a window: the 32-bit sum does not wrap,
    the counter stays below the window length, and the call that
    completes the window outputs the exact truncated mean. *)
Lemma PFC_Average_step (p : PFC_AVG_T) (x : Z) :
  avg_in_window p -> int16_range x ->
  (AVG.samples p + 1 < AVG.sampleLimit p ->
   PFC_Average p x
   = Some (AVG.set_samples (AVG.samples p + 1)
             (AVG.set_sum (AVG.sum p + x) p), []))
  /\ (AVG.samples p + 1 = AVG.sampleLimit p ->
      PFC_Average p x
      = Some (AVG.set_samples 0
                (AVG.set_sum 0
                   (AVG.set_status 1
                      (AVG.set_output
                         (Z.quot (AVG.sum p + x) (AVG.sampleLimit p))
                         (AVG.set_samples (AVG.samples p + 1)
                            (AVG.set_sum (AVG.sum p + x) p))))),
              [DivSD (AVG.sum p + x) (AVG.sampleLimit p)])
      /\ int16_range (Z.quot (AVG.sum p + x) (AVG.sampleLimit p))).
Proof.
  unfold avg_in_window, int16_range. intros (HN & Hn & Hs) Hx.
  assert (Hsum : -32768 * (AVG.samples p + 1) <= AVG.sum p + x
                 <= 32767 * (AVG.samples p + 1)) by lia.
  unfold PFC_Average. rsimpl.
  rewrite (wrap32_id (AVG.sum p + x)) by lia.
  rewrite (wrap16_id (AVG.samples p + 1)) by (unfold int16_range; lia).
  split.
  - intros Hlt.
    destruct (AVG.sampleLimit p <=? AVG.samples p + 1) eqn:C; bool2prop;
      [lia|reflexivity].
  - intros Heq.
    assert (Hq : -32768 <= Z.quot (AVG.sum p + x) (AVG.sampleLimit p)
                 <= 32767).
    { rewrite <- Heq in *. set (n := AVG.samples p + 1) in *.
      split.
      - apply Z.quot_le_lower_bound; lia.
      - apply Z.quot_le_upper_bound; lia. }
    destruct (AVG.sampleLimit p <=? AVG.samples p + 1) eqn:C; bool2prop;
      [|lia].
    rewrite builtin_divsd_Some by lia.
    rewrite (wrap16_id _ Hq). unfold bind, ret. cbn [app].
    rewrite (wrap16_id _ Hq). split; [reflexivity|exact Hq].
Qed.

(** A filter inside a window stays inside a window, over any 16-bit
    sample: the 32-bit sum never wraps around, the counter stays below the
    window length, and the window length is left alone.  The call either
    accumulates (output and status untouched) or completes the window with
    the exact truncated mean of its samples as output. *)
Theorem PFC_Average_keeps_window (p : PFC_AVG_T) (x : Z) :
  avg_in_window p -> int16_range x ->
  exists p' l,
    PFC_Average p x = Some (p', l)
    /\ avg_in_window p'
    /\ AVG.sampleLimit p' = AVG.sampleLimit p
    /\ ((AVG.samples p + 1 < AVG.sampleLimit p
         /\ AVG.sum p' = AVG.sum p + x
         /\ AVG.samples p' = AVG.samples p + 1
         /\ AVG.output p' = AVG.output p
         /\ AVG.status p' = AVG.status p
         /\ l = [])
        \/ (AVG.samples p + 1 = AVG.sampleLimit p
            /\ AVG.sum p' = 0 /\ AVG.samples p' = 0
            /\ AVG.output p' = Z.quot (AVG.sum p + x) (AVG.sampleLimit p)
            /\ int16_range (AVG.output p')
            /\ AVG.status p' = 1)).
Proof.
  intros Hw Hx. destruct (PFC_Average_step p x Hw Hx) as [S1 S2].
  pose proof Hw as (HN & Hn & Hs). unfold int16_range in Hx.
  destruct (Z.eq_dec (AVG.samples p + 1) (AVG.sampleLimit p)) as [e|n].
  - destruct (S2 e) as [E Hq]. do 2 eexists. split; [exact E|].
    rsimpl. split; [unfold avg_in_window; rsimpl; lia|].
    split; [reflexivity|]. right. repeat split; auto; apply Hq.
  - assert (Hlt : AVG.samples p + 1 < AVG.sampleLimit p) by lia.
    do 2 eexists. split; [exact (S1 Hlt)|].
    rsimpl. split; [unfold avg_in_window; rsimpl; lia|].
    split; [reflexivity|]. left. repeat split; auto; lia.
Qed.

Lemma PFC_Average_feed_partial (xs : list Z) (p : PFC_AVG_T) :
  avg_in_window p -> Forall int16_range xs ->
  AVG.samples p + Z.of_nat (length xs) < AVG.sampleLimit p ->
  feed_samples PFC_Average xs p
  = Some (AVG.set_samples (AVG.samples p + Z.of_nat (length xs))
            (AVG.set_sum (AVG.sum p + Zsum xs) p), []).
Proof.
  revert p. induction xs as [|x xs IH]; intros p Hw Hxs Hlen.
  - cbn [feed_samples length]. unfold ret, Zsum. cbn [fold_right].
    do 2 f_equal. unfold AVG.set_samples, AVG.set_sum. rsimpl.
    destruct p; rsimpl. f_equal; lia.
  - inversion Hxs as [|x' xs' Hx Hxs']; subst.
    cbn [length] in Hlen. rewrite Nat2Z.inj_succ in Hlen.
    destruct (PFC_Average_step p x Hw Hx) as [S1 _].
    cbn [feed_samples]. rewrite S1 by lia.
    unfold bind. rewrite IH.
    + cbn [app length]. rewrite Nat2Z.inj_succ. do 2 f_equal.
      unfold Zsum. cbn [fold_right].
      unfold AVG.set_samples, AVG.set_sum. rsimpl. f_equal; lia.
    + pose proof Hw as (HN & Hn & Hs). unfold int16_range in Hx.
      unfold avg_in_window. rsimpl. lia.
    + exact Hxs'.
    + rsimpl. lia.
Qed.

(** A window of N 16-bit samples fed to a filter at the start of a
    window (sum and counter at 0): the last call divides their sum by N,
    the output is the truncated mean, status is 1, and sum and counter
    are back at 0 for the next window. *)
Theorem PFC_Average_window_mean (p : PFC_AVG_T) (xs : list Z) :
  1 <= AVG.sampleLimit p <= 32767 ->
  AVG.sum p = 0 -> AVG.samples p = 0 ->
  Z.of_nat (length xs) = AVG.sampleLimit p ->
  Forall int16_range xs ->
  exists p',
    feed_samples PFC_Average xs p
    = Some (p', [DivSD (Zsum xs) (AVG.sampleLimit p)])
    /\ AVG.output p' = Z.quot (Zsum xs) (AVG.sampleLimit p)
    /\ int16_range (AVG.output p')
    /\ AVG.status p' = 1 /\ AVG.sum p' = 0 /\ AVG.samples p' = 0
    /\ AVG.sampleLimit p' = AVG.sampleLimit p.
Proof.
  intros HN Hs Hn Hlen Hxs.
  assert (Hne : xs <> []) by (intros ->; cbn in Hlen; lia).
  destruct (exists_last Hne) as (ys & y & ->).
  rewrite length_app in Hlen. cbn [length] in Hlen.
  apply Forall_app in Hxs. destruct Hxs as [Hys Hy].
  inversion Hy as [|y' l' Hy' _]; subst.
  assert (Hw : avg_in_window p) by (unfold avg_in_window; lia).
  rewrite feed_samples_app, (PFC_Average_feed_partial ys p Hw Hys) by lia.
  set (p1 := AVG.set_samples _ _).
  assert (Hw1 : avg_in_window p1).
  { pose proof (Zsum_bounds ys Hys). unfold avg_in_window, p1. rsimpl. lia. }
  destruct (PFC_Average_step p1 y Hw1 Hy') as [_ S2].
  destruct S2 as [E Hq]; [unfold p1; rsimpl; lia|].
  unfold bind. cbn [feed_samples]. rewrite E. unfold bind, ret.
  cbn [app]. rewrite Zsum_app.
  assert (Esum : AVG.sum p1 + y = Zsum ys + Zsum [y]).
  { unfold p1. rsimpl. unfold Zsum. cbn. lia. }
  assert (Elim : AVG.sampleLimit p1 = AVG.sampleLimit p) by reflexivity.
  rewrite Esum, Elim in *.
  eexists. split; [reflexivity|]. rsimpl. repeat split; auto; apply Hq.
Qed.

(** ** Further properties of the control loops *)

(** Whatever the voltage loop and the reference shaping compute, the
    current reference that PFC_CurrentRefGenerate leaves is between 0
    and Q15(0.999). *)
Theorem PFC_CurrentRefGenerate_bounds (pData : PFC_T) :
  0 <= Q15_0_999 <= 32767 ->
  exists p' l,
    PFC_CurrentRefGenerate pData = Some (p', l)
    /\ 0 <= currentReference p' <= Q15_0_999.
Proof.
  intros HQ. unfold PFC_CurrentRefGenerate.
  set (p1 := if VOLTAGE_LOOP_EXE_RATE <? voltLoopExeRate pData then _ else _).
  clearbody p1.
  assert (H : ok (if PFC_POWER_CONTROL
                  then
                    tempResult <-
                      (if 0 <? RMS.sqrOutput (vacRMS p1)
                       then builtin_divf
                              (wrap16
                                 (Z.shiftr
                                    (builtin_mulss (PI.output (piVoltage p1))
                                       (rectifiedVac p1)) 18))
                              (RMS.sqrOutput (vacRMS p1))
                       else ret
                              (wrap16
                                 (Z.shiftr
                                    (builtin_mulss (PI.output (piVoltage p1))
                                       (rectifiedVac p1)) 18))) ;;
                    ret (set_currentReference
                           (wrap16 (Z.shiftr (builtin_mulss tempResult KMUL)
                                      12)) p1)
                  else ret p1) (fun _ => True)).
  { destruct PFC_POWER_CONTROL; [|now apply ok_ret].
    eapply ok_bind with (Q1 := fun _ => True).
    - case_if; [|now apply ok_ret].
      apply Z.ltb_lt in C. eapply ok_weaken; [apply ok_divf; exact C|auto].
    - intros t _. now apply ok_ret. }
  destruct H as (p2 & l2 & E & _ & _).
  cbv zeta. rewrite E. unfold bind.
  destruct (Q15_0_999 <? currentReference p2) eqn:C1; bool2prop.
  - do 2 eexists. split; [reflexivity|]. rsimpl.
    rewrite wrap16_id by (unfold int16_range; lia). lia.
  - destruct (currentReference p2 <? 0) eqn:C2; bool2prop;
      do 2 eexists; (split; [reflexivity|]); rsimpl; lia.
Qed.

(** One call of PFC_CurrentRefGenerate, by the value of the counter of
    the voltage loop. *)
Lemma PFC_CurrentRefGenerate_step (pData : PFC_T) :
  0 <= voltLoopExeRate pData <= 65534 ->
  exists p' l,
    PFC_CurrentRefGenerate pData = Some (p', l)
    /\ (voltLoopExeRate pData <= VOLTAGE_LOOP_EXE_RATE ->
        piVoltage p' = piVoltage pData
        /\ voltLoopExeRate p' = voltLoopExeRate pData + 1)
    /\ (VOLTAGE_LOOP_EXE_RATE < voltLoopExeRate pData ->
        let e := wrap16 (PI.reference (piVoltage pData)
                         - AVG.output (vdcAVG pData)) in
        let ki := if (700 <? e) || (e <? -700)
                  then wrap16 (Z.shiftr KI_V 1) else wrap16 KI_V in
        piVoltage p'
        = PFC_PIController
            (PI.set_ki ki (PI.set_error e (piVoltage pData))) e
        /\ voltLoopExeRate p' = 0).
Proof.
  intros Hc.
  destruct (PFC_CurrentRefGenerate_ok pData) as (p' & l & E & _ & Hfr & _).
  exists p', l. split; [exact E|].
  unfold PFC_CurrentRefGenerate in E.
  set (p1 := if VOLTAGE_LOOP_EXE_RATE <? voltLoopExeRate pData then _ else _)
    in E.
  assert (H1 : piVoltage p' = piVoltage p1
               /\ voltLoopExeRate p' = voltLoopExeRate p1).
  { apply bind_inv in E. destruct E as (p2 & l1 & l2 & E1 & E2 & _).
    assert (H2 : piVoltage p2 = piVoltage p1
                 /\ voltLoopExeRate p2 = voltLoopExeRate p1).
    { destruct PFC_POWER_CONTROL.
      - apply bind_inv in E1. destruct E1 as (t & l3 & l4 & _ & E1 & _).
        apply ret_inv in E1. destruct E1 as [-> _]. split; reflexivity.
      - apply ret_inv in E1. destruct E1 as [-> _]. split; reflexivity. }
    destruct H2 as [<- <-].
    repeat case_if_in E2; apply ret_inv in E2; destruct E2 as [-> _];
      split; reflexivity. }
  destruct H1 as [-> ->]. unfold p1. split.
  - intros Hle.
    destruct (VOLTAGE_LOOP_EXE_RATE <? voltLoopExeRate pData) eqn:C;
      bool2prop; [lia|]. rsimpl. split; [reflexivity|].
    apply wrapU16_id. unfold uint16_range. lia.
  - intros Hlt. cbv zeta.
    destruct (VOLTAGE_LOOP_EXE_RATE <? voltLoopExeRate pData) eqn:C;
      bool2prop; [|lia]. rsimpl.
    split; [|reflexivity].
    destruct ((700 <? wrap16 (PI.reference (piVoltage pData)
                              - AVG.output (vdcAVG pData)))
              || (wrap16 (PI.reference (piVoltage pData)
                          - AVG.output (vdcAVG pData)) <? -700));
      reflexivity.
Qed.

Lemma PFC_CurrentRefGenerate_idle (n : nat) (p : PFC_T) :
  0 <= voltLoopExeRate p ->
  voltLoopExeRate p + Z.of_nat n <= VOLTAGE_LOOP_EXE_RATE + 1 ->
  VOLTAGE_LOOP_EXE_RATE <= 65533 ->
  exists p' l,
    repeat_M PFC_CurrentRefGenerate n p = Some (p', l)
    /\ piVoltage p' = piVoltage p
    /\ voltLoopExeRate p' = voltLoopExeRate p + Z.of_nat n.
Proof.
  revert p. induction n as [|n IH]; intros p H0 Hn HR.
  - exists p, []. cbn [repeat_M]. split; [reflexivity|].
    split; [reflexivity|]. cbn. lia.
  - rewrite Nat2Z.inj_succ in Hn.
    destruct (PFC_CurrentRefGenerate_step p ltac:(lia))
      as (p1 & l1 & E1 & Hidle & _).
    destruct Hidle as [V1 C1]; [lia|].
    destruct (IH p1) as (p' & l & E & V & C); [lia|lia|exact HR|].
    exists p', (l1 ++ l). split.
    + cbn [repeat_M]. now apply bind_Some with (a := p1).
    + rewrite V, V1, C, C1, Nat2Z.inj_succ. split; [reflexivity|lia].
Qed.

(** The decimation of the voltage loop.  From a counter at 0, the next
    VOLTAGE_LOOP_EXE_RATE + 1 calls of PFC_CurrentRefGenerate leave the
    voltage PI structure untouched; the call after them runs the voltage
    PI once, on the error reference - DC-bus average, with the integral
    gain KI_V halved when the error is beyond 700 in magnitude, and
    restarts the counter at 0. *)
Theorem PFC_CurrentRefGenerate_decimation (pData : PFC_T) :
  0 <= VOLTAGE_LOOP_EXE_RATE <= 65533 ->
  voltLoopExeRate pData = 0 ->
  (forall n : nat,
      Z.of_nat n <= VOLTAGE_LOOP_EXE_RATE + 1 ->
      exists p' l,
        repeat_M PFC_CurrentRefGenerate n pData = Some (p', l)
        /\ piVoltage p' = piVoltage pData
        /\ voltLoopExeRate p' = Z.of_nat n)
  /\ exists p1 l1 p2 l2,
       repeat_M PFC_CurrentRefGenerate
         (Z.to_nat (VOLTAGE_LOOP_EXE_RATE + 1)) pData = Some (p1, l1)
       /\ PFC_CurrentRefGenerate p1 = Some (p2, l2)
       /\ voltLoopExeRate p2 = 0
       /\ (let e := wrap16 (PI.reference (piVoltage pData)
                            - AVG.output (vdcAVG p1)) in
           let ki := if (700 <? e) || (e <? -700)
                     then wrap16 (Z.shiftr KI_V 1) else wrap16 KI_V in
           piVoltage p2
           = PFC_PIController
               (PI.set_ki ki (PI.set_error e (piVoltage pData))) e).
Proof.
  intros HR H0.
  assert (Hidle : forall n : nat,
             Z.of_nat n <= VOLTAGE_LOOP_EXE_RATE + 1 ->
             exists p' l,
               repeat_M PFC_CurrentRefGenerate n pData = Some (p', l)
               /\ piVoltage p' = piVoltage pData
               /\ voltLoopExeRate p' = Z.of_nat n).
  { intros n Hn.
    destruct (PFC_CurrentRefGenerate_idle n pData) as (p' & l & E & V & C);
      [lia|lia|lia|].
    exists p', l. rewrite C, H0. auto. }
  split; [exact Hidle|].
  destruct (Hidle (Z.to_nat (VOLTAGE_LOOP_EXE_RATE + 1)))
    as (p1 & l1 & E1 & V1 & C1); [lia|].
  rewrite Z2Nat.id in C1 by lia.
  destruct (PFC_CurrentRefGenerate_step p1 ltac:(lia))
    as (p2 & l2 & E2 & _ & Hrun).
  destruct Hrun as [V2 C2]; [lia|].
  exists p1, l1, p2, l2. rewrite <- V1. auto.
Qed.

Lemma scale_down_range (i r : Z) :
  0 <= i <= 32767 -> 0 < r <= 32767 ->
  0 <= wrap16 (Z.shiftr (builtin_mulss i r) 15) <= i.
Proof.
  intros Hi Hr. unfold builtin_mulss.
  rewrite (wrap16_id i), (wrap16_id r) by (unfold int16_range; lia).
  rewrite Z.shiftr_div_pow2 by lia. change (2 ^ 15) with 32768.
  assert (H0 : 0 <= i * r) by (apply Z.mul_nonneg_nonneg; lia).
  assert (H1 : i * r <= i * 32768) by (apply Z.mul_le_mono_nonneg_l; lia).
  assert (Hq : 0 <= i * r / 32768 <= i).
  { split; [apply Z.div_pos; lia|].
    apply Z.div_le_upper_bound; lia. }
  rewrite wrap16_id by (unfold int16_range; lia). exact Hq.
Qed.

Lemma PFC_CurrentSampleCorrection_range (pData : PFC_T) :
  int16_range Q15_0_9999 -> 0 <= iL pData <= 32767 ->
  exists v l,
    PFC_CurrentSampleCorrection pData = Some (v, l)
    /\ 0 <= v <= iL pData.
Proof.
  intros HQ Hi. unfold PFC_CurrentSampleCorrection.
  assert (H : ok (if 0 <? boostDutyRatio pData
                  then builtin_divf (PI.output (piCurrent pData))
                         (boostDutyRatio pData)
                  else ret Q15_0_9999) int16_range).
  { case_if.
    - apply Z.ltb_lt in C. eapply ok_weaken; [apply ok_divf; exact C|].
      intros q ->. apply wrap16_range.
    - now apply ok_ret. }
  destruct H as (r & l & E & _ & Hr). rewrite E. unfold bind.
  unfold int16_range in Hr.
  destruct (0 <? r) eqn:C; bool2prop; unfold ret;
    do 2 eexists; (split; [reflexivity|]).
  - apply scale_down_range; lia.
  - lia.
Qed.

(** The sample correction never traps and scales a non-negative current
    down: its result is between 0 and the measured current, whatever the
    boost duty ratio and the PI output are; with a boost duty ratio that
    is not positive the factor is Q15_0_9999. *)
Theorem PFC_CurrentSampleCorrection_bounds (pData : PFC_T) :
  int16_range Q15_0_9999 -> 0 <= iL pData <= 32767 ->
  exists v l,
    PFC_CurrentSampleCorrection pData = Some (v, l)
    /\ 0 <= v <= iL pData
    /\ (boostDutyRatio pData <= 0 ->
        l = []
        /\ v = (if 0 <? Q15_0_9999
                then wrap16 (Z.shiftr (builtin_mulss (iL pData) Q15_0_9999) 15)
                else iL pData)).
Proof.
  intros HQ Hi.
  destruct (PFC_CurrentSampleCorrection_range pData HQ Hi)
    as (v & l & E & Hv).
  exists v, l. split; [exact E|]. split; [exact Hv|].
  intros Hb. unfold PFC_CurrentSampleCorrection in E.
  destruct (0 <? boostDutyRatio pData) eqn:C; bool2prop; [lia|].
  unfold bind, ret in E.
  destruct (0 <? Q15_0_9999); inversion E; subst; auto.
Qed.

Lemma PFC_CurrentControlLoop_uncorrected (pData p' : PFC_T)
      (l : list event) :
  PFC_CurrentControlLoop pData = Some (p', l) ->
  sampleCorrectionEnable pData <> 1 ->
  averageCurrent p' = iL p' /\ l = [].
Proof.
  intros E n. unfold PFC_CurrentControlLoop in E.
  set (p1 := if iL pData <? 0 then set_iL 1 pData else pData) in E.
  assert (Hs1 : sampleCorrectionEnable p1 = sampleCorrectionEnable pData)
    by (unfold p1; destruct (iL pData <? 0); reflexivity).
  apply bind_inv in E. destruct E as (p2 & l1 & l2 & E1 & E2 & ->).
  rewrite Hs1 in E1.
  destruct (sampleCorrectionEnable pData =? 1) eqn:C; bool2prop;
    [contradiction|].
  apply ret_inv in E1. destruct E1 as [-> ->].
  repeat case_if_in E2; apply ret_inv in E2; destruct E2 as [-> ->];
    split; reflexivity.
Qed.

(** After PFC_CurrentControlLoop the current of the context is never
    negative (a negative measurement is replaced by 1, a non-negative one
    is kept), and the average current handed to the current PI lies
    between 0 and that current, with or without sample correction. *)
Theorem PFC_CurrentControlLoop_current (pData : PFC_T) :
  int16_range Q15_0_9999 -> iL pData <= 32767 ->
  exists p' l,
    PFC_CurrentControlLoop pData = Some (p', l)
    /\ iL p' = (if iL pData <? 0 then 1 else iL pData)
    /\ 0 <= iL p'
    /\ 0 <= averageCurrent p' <= iL p'
    /\ (sampleCorrectionEnable pData <> 1 -> averageCurrent p' = iL p').
Proof.
  intros HQ Hi.
  destruct (PFC_CurrentControlLoop_ok pData)
    as (p' & l & E & _ & Hfr & _ & _ & _ & HiL & Hsc).
  exists p', l. split; [exact E|]. split; [exact HiL|].
  assert (H0 : 0 <= iL p' <= 32767).
  { rewrite HiL. destruct (iL pData <? 0) eqn:C; bool2prop; lia. }
  split; [lia|].
  destruct (Z.eq_dec (sampleCorrectionEnable pData) 1) as [e|n].
  - destruct (Hsc e) as [lq Hlq].
    destruct (PFC_CurrentSampleCorrection_range (set_iL (iL p') pData) HQ)
      as (v & lv & Ev & Hv); [exact H0|].
    rewrite Hlq in Ev. inversion Ev; subst.
    split; [exact Hv|]. intros Hn. contradiction.
  - destruct (PFC_CurrentControlLoop_uncorrected _ _ _ E n) as [Ha _].
    split; [lia|]. intros _. exact Ha.
Qed.

(** ** Further properties of the fault detector *)

Lemma fault_union_bit_op_ov (a b c : bool) :
  fault_bits_disjoint -> 0 < PFC_FAULT_OP_OV ->
  (Z.land (fault_union a b c) PFC_FAULT_OP_OV <> 0 <-> a = true).
Proof.
  intros (_ & _ & _ & _ & _ & D1 & D2 & D3) Hp. unfold fault_union.
  rewrite !Z.land_lor_distr_l.
  assert (Hb : Z.land (if b then PFC_FAULT_IP_UV else 0) PFC_FAULT_OP_OV = 0)
    by (destruct b; [now rewrite Z.land_comm|apply Z.land_0_l]).
  assert (Hc : Z.land (if c then PFC_FAULT_IP_OV else 0) PFC_FAULT_OP_OV = 0)
    by (destruct c; [now rewrite Z.land_comm|apply Z.land_0_l]).
  rewrite Hb, Hc, !Z.lor_0_r.
  destruct a; [rewrite Z.land_diag|rewrite Z.land_0_l];
    split; intros H; try lia; try reflexivity; try discriminate;
    contradiction.
Qed.

Lemma fault_union_bit_ip_uv (a b c : bool) :
  fault_bits_disjoint -> 0 < PFC_FAULT_IP_UV ->
  (Z.land (fault_union a b c) PFC_FAULT_IP_UV <> 0 <-> b = true).
Proof.
  intros (_ & _ & _ & _ & _ & D1 & D2 & D3) Hp. unfold fault_union.
  rewrite !Z.land_lor_distr_l.
  assert (Ha : Z.land (if a then PFC_FAULT_OP_OV else 0) PFC_FAULT_IP_UV = 0)
    by (destruct a; [assumption|apply Z.land_0_l]).
  assert (Hc : Z.land (if c then PFC_FAULT_IP_OV else 0) PFC_FAULT_IP_UV = 0)
    by (destruct c; [now rewrite Z.land_comm|apply Z.land_0_l]).
  rewrite Ha, Hc, Z.lor_0_l, Z.lor_0_r.
  destruct b; [rewrite Z.land_diag|rewrite Z.land_0_l];
    split; intros H; try lia; try reflexivity; try discriminate;
    contradiction.
Qed.

Lemma fault_union_bit_ip_ov (a b c : bool) :
  fault_bits_disjoint -> 0 < PFC_FAULT_IP_OV ->
  (Z.land (fault_union a b c) PFC_FAULT_IP_OV <> 0 <-> c = true).
Proof.
  intros (_ & _ & _ & _ & _ & D1 & D2 & D3) Hp. unfold fault_union.
  rewrite !Z.land_lor_distr_l.
  assert (Ha : Z.land (if a then PFC_FAULT_OP_OV else 0) PFC_FAULT_IP_OV = 0)
    by (destruct a; [assumption|apply Z.land_0_l]).
  assert (Hb : Z.land (if b then PFC_FAULT_IP_UV else 0) PFC_FAULT_IP_OV = 0)
    by (destruct b; [assumption|apply Z.land_0_l]).
  rewrite Ha, Hb, !Z.lor_0_l.
  destruct c; [rewrite Z.land_diag|rewrite Z.land_0_l];
    split; intros H; try lia; try reflexivity; try discriminate;
    contradiction.
Qed.

(** Called with an empty fault status, PFC_FaultCheck sets each fault
    bit exactly when its condition holds (DC-bus average at or above the
    over-voltage limit, RMS-squared below the under-voltage limit,
    RMS-squared at or above the over-voltage limit), and leaves the
    status empty exactly when all three measurements are within limits. *)
Theorem PFC_FaultCheck_detects (pData : PFC_T) :
  fault_bits_disjoint ->
  0 < PFC_FAULT_OP_OV -> 0 < PFC_FAULT_IP_UV -> 0 < PFC_FAULT_IP_OV ->
  faultStatus pData = PFC_FAULT_NONE ->
  (fault_bit_set PFC_FAULT_OP_OV (PFC_FaultCheck pData) <->
   PFC_OUTPUT_OVER_VOLTAGE_LIMIT <= AVG.output (vdcAVG pData))
  /\ (fault_bit_set PFC_FAULT_IP_UV (PFC_FaultCheck pData) <->
      RMS.sqrOutput (vacRMS pData) < PFC_INPUT_UNDER_VOLTAGE_LIMIT_LO)
  /\ (fault_bit_set PFC_FAULT_IP_OV (PFC_FaultCheck pData) <->
      PFC_INPUT_OVER_VOLTAGE_LIMIT_HI <= RMS.sqrOutput (vacRMS pData))
  /\ (faultStatus (PFC_FaultCheck pData) = PFC_FAULT_NONE <->
      AVG.output (vdcAVG pData) < PFC_OUTPUT_OVER_VOLTAGE_LIMIT
      /\ PFC_INPUT_UNDER_VOLTAGE_LIMIT_LO <= RMS.sqrOutput (vacRMS pData)
      /\ RMS.sqrOutput (vacRMS pData) < PFC_INPUT_OVER_VOLTAGE_LIMIT_HI).
Proof.
  intros Hd H1 H2 H3 Hfs. unfold fault_bit_set.
  rewrite (PFC_FaultCheck_union pData Hd Hfs).
  rewrite (fault_union_bit_op_ov _ _ _ Hd H1).
  rewrite (fault_union_bit_ip_uv _ _ _ Hd H2).
  rewrite (fault_union_bit_ip_ov _ _ _ Hd H3).
  rewrite Z.leb_le, Z.ltb_lt, Z.leb_le.
  split; [reflexivity|]. split; [reflexivity|]. split; [reflexivity|].
  rewrite <- (fault_union_sum _ _ _ Hd).
  destruct Hd as (H0 & _). rewrite H0.
  destruct (PFC_OUTPUT_OVER_VOLTAGE_LIMIT <=? AVG.output (vdcAVG pData)) eqn:C1;
    destruct (RMS.sqrOutput (vacRMS pData)
              <? PFC_INPUT_UNDER_VOLTAGE_LIMIT_LO) eqn:C2;
    destruct (PFC_INPUT_OVER_VOLTAGE_LIMIT_HI
              <=? RMS.sqrOutput (vacRMS pData)) eqn:C3;
    bool2prop; lia.
Qed.

(** PFC_FaultCheck accumulates by addition and is not idempotent: called
    a second time while the output over-voltage condition (alone) still
    holds, it turns the status PFC_FAULT_OP_OV into twice that value. *)
Theorem PFC_FaultCheck_accumulates (pData : PFC_T) :
  fault_bits_disjoint ->
  0 < PFC_FAULT_OP_OV -> 2 * PFC_FAULT_OP_OV <= 65535 ->
  faultStatus pData = PFC_FAULT_NONE ->
  PFC_OUTPUT_OVER_VOLTAGE_LIMIT <= AVG.output (vdcAVG pData) ->
  PFC_INPUT_UNDER_VOLTAGE_LIMIT_LO <= RMS.sqrOutput (vacRMS pData) ->
  RMS.sqrOutput (vacRMS pData) < PFC_INPUT_OVER_VOLTAGE_LIMIT_HI ->
  faultStatus (PFC_FaultCheck pData) = PFC_FAULT_OP_OV
  /\ faultStatus (PFC_FaultCheck (PFC_FaultCheck pData))
     = 2 * PFC_FAULT_OP_OV
  /\ faultStatus (PFC_FaultCheck (PFC_FaultCheck pData))
     <> faultStatus (PFC_FaultCheck pData).
Proof.
  intros Hd Hp H2 Hfs C1 C2 C3.
  assert (Hstep : forall q : PFC_T,
             vdcAVG q = vdcAVG pData -> vacRMS q = vacRMS pData ->
             faultStatus (PFC_FaultCheck q)
             = wrapU16 (faultStatus q + PFC_FAULT_OP_OV)).
  { intros q E1 E2. unfold PFC_FaultCheck. cbv zeta. rewrite E1.
    destruct (PFC_OUTPUT_OVER_VOLTAGE_LIMIT <=? AVG.output (vdcAVG pData))
      eqn:B1; bool2prop; [|lia]. rsimpl. rewrite E2.
    destruct (RMS.sqrOutput (vacRMS pData)
              <? PFC_INPUT_UNDER_VOLTAGE_LIMIT_LO) eqn:B2; bool2prop; [lia|].
    rsimpl. rewrite E2.
    destruct (PFC_INPUT_OVER_VOLTAGE_LIMIT_HI
              <=? RMS.sqrOutput (vacRMS pData)) eqn:B3; bool2prop; [lia|].
    reflexivity. }
  assert (F1 : faultStatus (PFC_FaultCheck pData) = PFC_FAULT_OP_OV).
  { rewrite (Hstep pData eq_refl eq_refl), Hfs.
    destruct Hd as (H0 & _). rewrite H0.
    apply wrapU16_id. unfold uint16_range. lia. }
  assert (F2 : faultStatus (PFC_FaultCheck (PFC_FaultCheck pData))
               = 2 * PFC_FAULT_OP_OV).
  { rewrite Hstep, F1.
    - rewrite wrapU16_id by (unfold uint16_range; lia). lia.
    - rewrite PFC_FaultCheck_frame. reflexivity.
    - rewrite PFC_FaultCheck_frame. reflexivity. }
  rewrite F1, F2. repeat split; lia.
Qed.

(** ** Further properties of the state machine *)

Lemma divisions_only_ret {A : Type} (a : A) : divisions_only (ret a).
Proof. intros b l H. apply ret_inv in H. destruct H as [_ ->]. reflexivity. Qed.

Lemma divisions_only_bind {A B : Type} (m : M A) (f : A -> M B) :
  divisions_only m -> (forall a, divisions_only (f a)) ->
  divisions_only (bind m f).
Proof.
  intros Hm Hf b l H. apply bind_inv in H.
  destruct H as (a & l1 & l2 & E1 & E2 & ->).
  rewrite forallb_app, (Hm _ _ E1), (Hf _ _ _ E2). reflexivity.
Qed.

Lemma divisions_only_divf (n d : Z) : divisions_only (builtin_divf n d).
Proof.
  intros q l H. apply builtin_divf_inv in H. destruct H as (_ & _ & ->).
  reflexivity.
Qed.

Lemma divisions_only_divsd (n d : Z) : divisions_only (builtin_divsd n d).
Proof.
  intros q l H. apply builtin_divsd_inv in H. destruct H as (_ & _ & ->).
  reflexivity.
Qed.

Lemma divisions_only_if {A : Type} (b : bool) (m1 m2 : M A) :
  divisions_only m1 -> divisions_only m2 ->
  divisions_only (if b then m1 else m2).
Proof. destruct b; auto. Qed.

(** Build the proof that a computation only divides. *)
Ltac divisions :=
  repeat first
    [ apply divisions_only_ret
    | apply divisions_only_divf
    | apply divisions_only_divsd
    | apply divisions_only_bind; [|intro]
    | apply divisions_only_if ].

Lemma PFC_SignalConditioning_divisions (p : PFC_T) :
  divisions_only (PFC_SignalConditioning p).
Proof.
  unfold PFC_SignalConditioning, PFC_Average, PFC_SquaredRMSCalculate.
  divisions.
Qed.

Lemma PFC_CurrentControlLoop_divisions (p : PFC_T) :
  divisions_only (PFC_CurrentControlLoop p).
Proof.
  unfold PFC_CurrentControlLoop, PFC_CurrentSampleCorrection. divisions.
Qed.

Lemma PFC_RunNoFault_divisions (p : PFC_T) :
  divisions_only (PFC_RunNoFault p).
Proof.
  unfold PFC_RunNoFault, PFC_CurrentRefGenerate. divisions.
Qed.

Lemma PFC_CaseCtrlRun_divisions (p : PFC_T) :
  divisions_only (PFC_CaseCtrlRun p).
Proof.
  unfold PFC_CaseCtrlRun. divisions.
Qed.

Lemma divisions_no_calls (l : list event) :
  forallb is_division l = true ->
  power_stage_calls l = [] /\ pdc_writes l = []
  /\ ~ In HAL_PFCPWMEnableOutputs l /\ ~ In HAL_PFCPWMDisableOutputs l.
Proof.
  induction l as [|e l IH]; cbn [forallb].
  - intros _. repeat split; auto.
  - intros H. apply andb_prop in H. destruct H as [He Hl].
    destruct (IH Hl) as (I1 & I2 & I3 & I4).
    destruct e; try discriminate He;
      (split; [exact I1|]); (split; [exact I2|]);
      split; intros [H|H]; try discriminate; contradiction.
Qed.

Lemma PFC_StateMachine_cycle (p p' : PFC_T) (l : list event) :
  PFC_StateMachine p = Some (p', l) ->
  exists pc l1 r l2,
    PFC_SignalConditioning p = Some (pc, l1)
    /\ conditioning_frame p pc
    /\ forallb is_division l1 = true
    /\ PFC_StateSwitch (state p) pc = Some (r, l2)
    /\ p' = set_state (snd r) (fst r) /\ l = l1 ++ l2.
Proof.
  intros H.
  destruct (PFC_StateMachine_inv _ _ _ H)
    as (pc & l1 & r & l2 & E1 & E2 & Hp & Hl).
  exists pc, l1, r, l2. split; [exact E1|].
  split.
  - unfold PFC_SignalConditioning in E1.
    apply bind_inv in E1. destruct E1 as (a1 & k1 & k1' & _ & E1 & _).
    apply bind_inv in E1. destruct E1 as (a2 & k2 & k2' & _ & E1 & _).
    apply bind_inv in E1. destruct E1 as (a3 & k3 & k3' & _ & E1 & _).
    apply ret_inv in E1. destruct E1 as [-> _].
    unfold conditioning_frame. frame_eq p.
  - split; [exact (PFC_SignalConditioning_divisions p _ _ E1)|]. auto.
Qed.

Lemma PFC_StateSwitch_init (pc : PFC_T) :
  PFC_StateSwitch PFC_INIT pc
  = Some ((set_pfcCurrent (PFC_MeasureCurrentInit (pfcCurrent pc))
             (PFC_ResetParams pc), PFC_OFFSET_MEAS),
          [HAL_PFCPWMDisableOutputs]).
Proof. reflexivity. Qed.

Lemma PFC_StateSwitch_offset_meas (pc : PFC_T) :
  PFC_StateSwitch PFC_OFFSET_MEAS pc
  = Some
      (if (MEASI.status (PFC_MeasureCurrentOffset (pfcCurrent pc)) =? 1)
          && (AVG.status (vacAVG pc) =? 1)
       then
         (set_pfcVoltage
            (MEASV.set_offsetVac (AVG.output (vacAVG pc)) (pfcVoltage pc))
            (set_piVoltage
               (PI.set_reference (AVG.output (vdcAVG pc)) (piVoltage pc))
               (set_pfcCurrent (PFC_MeasureCurrentOffset (pfcCurrent pc))
                  pc)), PFC_WAIT_1CYCLE)
       else
         (set_pfcCurrent (PFC_MeasureCurrentOffset (pfcCurrent pc)) pc,
          PFC_OFFSET_MEAS), []).
Proof.
  cbn [PFC_StateSwitch]. rsimpl.
  destruct ((MEASI.status (PFC_MeasureCurrentOffset (pfcCurrent pc)) =? 1)
            && (AVG.status (vacAVG pc) =? 1)); reflexivity.
Qed.

Lemma PFC_StateSwitch_wait_1cycle (pc : PFC_T) :
  PFC_StateSwitch PFC_WAIT_1CYCLE pc
  = if RMS.status (vacRMS pc) =? 1
    then Some ((pc, PFC_CTRL_RUN), [HAL_PFCPWMEnableOutputs])
    else Some ((pc, PFC_WAIT_1CYCLE), []).
Proof.
  cbn [PFC_StateSwitch]. destruct (RMS.status (vacRMS pc) =? 1); reflexivity.
Qed.

(** Case PFC_CTRL_RUN: the next state is PFC_CTRL_RUN exactly when
    PFC_FaultCheck finds no fault; when it finds one, nothing but the
    fault status (and the offset-corrected current) is written. *)
Lemma PFC_CaseCtrlRun_cases (p : PFC_T) (r : PFC_T * PFC_STATE_T)
      (l : list event) :
  PFC_CaseCtrlRun p = Some (r, l) ->
  forallb is_division l = true
  /\ ((snd r = PFC_CTRL_RUN /\ faultStatus (fst r) = PFC_FAULT_NONE
       /\ exists p0, p0 = set_faultStatus (faultStatus p0) (set_iL (iL p0) p)
                     /\ PFC_RunNoFault p0 = Some (fst r, l))
      \/ (snd r = PFC_FAULT /\ faultStatus (fst r) <> PFC_FAULT_NONE
          /\ fst r = set_faultStatus (faultStatus (fst r))
                       (set_iL (iL (fst r)) p)
          /\ l = [])).
Proof.
  intros H. split; [exact (PFC_CaseCtrlRun_divisions p _ _ H)|].
  unfold PFC_CaseCtrlRun in H.
  set (p0 := if ENABLE_PFC_CURRENT_OFFSET_CORRECTION then _ else p) in H.
  assert (H0 : p0 = set_iL (iL p0) p).
  { unfold p0. case_if; frame_eq p. }
  clearbody p0.
  pose proof (PFC_FaultCheck_frame p0) as Hf.
  set (pf := PFC_FaultCheck p0) in *.
  assert (Hpf : pf = set_faultStatus (faultStatus pf) (set_iL (iL pf) p)).
  { rewrite Hf, H0. frame_eq p. }
  clearbody pf.
  destruct (faultStatus pf =? PFC_FAULT_NONE) eqn:C; bool2prop.
  - apply bind_inv in H. destruct H as (q & l1 & l2 & E & H & ->).
    apply ret_inv in H. destruct H as [-> ->]. rewrite app_nil_r.
    left. split; [reflexivity|].
    destruct (ok_inv _ _ _ _ (PFC_RunNoFault_ok pf) E) as [(Hq & _) _].
    unfold run_frame in Hq. split.
    + rsimpl. rewrite Hq. fnorm. exact C.
    + exists pf. split; [exact Hpf|exact E].
  - apply ret_inv in H. destruct H as [-> ->].
    right. rsimpl. auto.
Qed.

Lemma PFC_StateSwitch_summary (st : PFC_STATE_T) (pc : PFC_T)
      (r : PFC_T * PFC_STATE_T) (l : list event) :
  PFC_StateSwitch st pc = Some (r, l) ->
  allowed_transition st (snd r) = true
  /\ (In HAL_PFCPWMEnableOutputs l <->
      (st = PFC_WAIT_1CYCLE \/ st = PFC_FAULT) /\ snd r = PFC_CTRL_RUN)
  /\ (In HAL_PFCPWMDisableOutputs l <-> st = PFC_INIT \/ st = PFC_FAULT)
  /\ pdc_writes l = [].
Proof.
  intros H. destruct st.
  - rewrite PFC_StateSwitch_init in H. inversion H; subst. cbn.
    intuition (try discriminate; try congruence).
  - rewrite PFC_StateSwitch_offset_meas in H. inversion H; subst.
    case_if; cbn; intuition (try discriminate; try congruence).
  - rewrite PFC_StateSwitch_wait_1cycle in H.
    case_if_in H; inversion H; subst; cbn;
      intuition (try discriminate; try congruence).
  - cbn [PFC_StateSwitch] in H.
    destruct (PFC_CaseCtrlRun_cases _ _ _ H) as [Hd Hc].
    destruct (divisions_no_calls _ Hd) as (_ & W & NE & ND).
    assert (Hs : snd r = PFC_CTRL_RUN \/ snd r = PFC_FAULT)
      by (destruct Hc as [(S & _)|(S & _)]; auto).
    destruct Hs as [-> | ->]; cbn;
      intuition (try discriminate; try congruence).
  - cbn [PFC_StateSwitch] in H.
    destruct (PFC_CaseFault_spec pc)
      as (q & s & lf & E & _ & _ & _ & Hclr & Hnot).
    rewrite E in H. inversion H; subst. rsimpl.
    destruct (Z.eq_dec (faultStatus q) PFC_FAULT_NONE) as [e|n].
    + destruct (Hclr e) as (-> & -> & _). cbn.
      intuition (try discriminate; try congruence).
    + destruct (Hnot n) as (-> & ->). cbn.
      intuition (try discriminate; try congruence).
  - cbn [PFC_StateSwitch] in H. apply ret_inv in H. destruct H as [-> ->].
    cbn. intuition (try discriminate; try congruence).
Qed.

(** One cycle changes the state along the edges INIT -> OFFSET_MEAS ->
    WAIT_1CYCLE -> CTRL_RUN <-> FAULT only (or stays where it is), and a
    context reachable from PFC_ParamsInit never holds a state value
    outside the five states. *)
Theorem PFC_StateMachine_transitions :
  (forall (p p' : PFC_T) (l : list event),
      PFC_StateMachine p = Some (p', l) ->
      allowed_transition (state p) (state p') = true)
  /\ (forall p : PFC_T, reachable p -> state p <> PFC_STATE_OTHER).
Proof.
  assert (Hstep : forall (p p' : PFC_T) (l : list event),
             PFC_StateMachine p = Some (p', l) ->
             allowed_transition (state p) (state p') = true).
  { intros p p' l H.
    destruct (PFC_StateMachine_cycle _ _ _ H)
      as (pc & l1 & r & l2 & _ & _ & _ & E2 & -> & _).
    destruct (PFC_StateSwitch_summary _ _ _ _ E2) as [Ha _]. exact Ha. }
  split; [exact Hstep|].
  intros p Hr. induction Hr as [p0|p adc p' l Hr IH E].
  - discriminate.
  - destruct (PFC_ADCInterrupt_inv _ _ _ _ E) as (q & lq & Eq & Hp').
    pose proof (Hstep _ _ _ Eq) as Ha.
    change (state (PFC_LoadSamples adc p)) with (state p) in Ha.
    rewrite Hp'. change (state (set_duty (duty p') q)) with (state q).
    destruct (state p), (state q); try discriminate; congruence.
Qed.

(** The calls to the power stage in one cycle of the state machine:
    HAL_PFCPWMEnableOutputs is called exactly in the cycles that enter
    PFC_CTRL_RUN from PFC_WAIT_1CYCLE or from PFC_FAULT,
    HAL_PFCPWMDisableOutputs exactly in the cycles that start in PFC_INIT
    or in PFC_FAULT, and the state machine itself never writes the duty
    register. *)
Theorem PFC_StateMachine_power_stage_calls (p : PFC_T) :
  filters_configured p ->
  exists p' l,
    PFC_StateMachine p = Some (p', l)
    /\ (In HAL_PFCPWMEnableOutputs l <->
        (state p = PFC_WAIT_1CYCLE \/ state p = PFC_FAULT)
        /\ state p' = PFC_CTRL_RUN)
    /\ (In HAL_PFCPWMDisableOutputs l <->
        state p = PFC_INIT \/ state p = PFC_FAULT)
    /\ pdc_writes l = [].
Proof.
  intros Hc. destruct (PFC_StateMachine_ok p Hc) as (p' & l & H & _).
  exists p', l. split; [exact H|].
  destruct (PFC_StateMachine_cycle _ _ _ H)
    as (pc & l1 & r & l2 & _ & _ & Hd & E2 & -> & ->).
  destruct (divisions_no_calls _ Hd) as (_ & W1 & NE & ND).
  destruct (PFC_StateSwitch_summary _ _ _ _ E2) as (_ & He & Hdis & W2).
  change (state (set_state (snd r) (fst r))) with (snd r).
  split; [|split].
  - rewrite in_app_iff, He. tauto.
  - rewrite in_app_iff, Hdis. tauto.
  - unfold pdc_writes in *. rewrite flat_map_app, W1, W2. reflexivity.
Qed.

Lemma PFC_Average_status_kept (p p' : PFC_AVG_T) (x : Z) (l : list event) :
  PFC_Average p x = Some (p', l) ->
  AVG.status p = 1 -> AVG.status p' = 1.
Proof.
  unfold PFC_Average. rsimpl. intros H Hs.
  case_if_in H.
  - apply bind_inv in H. destruct H as (q & l1 & l2 & _ & H & _).
    apply ret_inv in H. destruct H as [-> _]. reflexivity.
  - apply ret_inv in H. destruct H as [-> _]. exact Hs.
Qed.

(** The cycle in PFC_INIT: the state becomes PFC_OFFSET_MEAS whatever
    the samples are, the power stage is disabled, the duty and both PI
    integrals are 0, and the sums, counters and ready flags of the DC-bus
    filter and of the mean-square accumulator are 0, so the samples of
    this cycle are dropped.  The AC filter has its sum and counter
    cleared but keeps its ready flag; the fault status and the window
    lengths are left alone. *)
Theorem PFC_StateMachine_init_cycle (p : PFC_T) :
  state p = PFC_INIT -> filters_configured p ->
  exists p' l,
    PFC_StateMachine p = Some (p', l)
    /\ state p' = PFC_OFFSET_MEAS
    /\ power_stage_calls l = [HAL_PFCPWMDisableOutputs]
    /\ duty p' = 0
    /\ PI.integralOut (piVoltage p') = 0
    /\ PI.integralOut (piCurrent p') = 0
    /\ (AVG.sum (vdcAVG p') = 0 /\ AVG.samples (vdcAVG p') = 0
        /\ AVG.status (vdcAVG p') = 0)
    /\ (AVG.sum (vacAVG p') = 0 /\ AVG.samples (vacAVG p') = 0)
    /\ (RMS.sum (vacRMS p') = 0 /\ RMS.samples (vacRMS p') = 0
        /\ RMS.peak (vacRMS p') = 0 /\ RMS.status (vacRMS p') = 0)
    /\ (AVG.status (vacAVG p) = 1 -> AVG.status (vacAVG p') = 1)
    /\ pfcCurrent p' = PFC_MeasureCurrentInit (pfcCurrent p)
    /\ faultStatus p' = faultStatus p
    /\ window_lengths p' = window_lengths p.
Proof.
  intros Hst Hc. destruct (PFC_StateMachine_ok p Hc) as (p' & l & H & _).
  exists p', l. split; [exact H|].
  destruct (PFC_StateMachine_cycle _ _ _ H)
    as (pc & l1 & r & l2 & E1 & Hfr & Hd & E2 & -> & ->).
  destruct (divisions_no_calls _ Hd) as (C1 & _).
  rewrite Hst, PFC_StateSwitch_init in E2. inversion E2; subst r l2.
  rewrite power_stage_calls_app, C1.
  assert (Hsticky : AVG.status (vacAVG p) = 1 -> AVG.status (vacAVG pc) = 1).
  { unfold PFC_SignalConditioning in E1.
    apply bind_inv in E1. destruct E1 as (a1 & k1 & k1' & _ & E1 & _).
    apply bind_inv in E1. destruct E1 as (a2 & k2 & k2' & Ea & E1 & _).
    apply bind_inv in E1. destruct E1 as (a3 & k3 & k3' & _ & E1 & _).
    apply ret_inv in E1. destruct E1 as [-> _]. rsimpl.
    exact (PFC_Average_status_kept _ _ _ _ Ea). }
  assert (Hw : window_lengths pc = window_lengths p).
  { destruct (ok_inv _ _ _ _ (PFC_StateSwitch_ok PFC_INIT pc) E2) as [Hw _].
    destruct (ok_inv _ _ _ _ (PFC_StateMachine_ok p Hc) H) as [_ _].
    unfold PFC_SignalConditioning in E1.
    apply bind_inv in E1. destruct E1 as (a1 & k1 & k1' & Ea1 & E1 & _).
    apply bind_inv in E1. destruct E1 as (a2 & k2 & k2' & Ea2 & E1 & _).
    apply bind_inv in E1. destruct E1 as (a3 & k3 & k3' & Ea3 & E1 & _).
    apply ret_inv in E1. destruct E1 as [-> _].
    destruct Hc as (H1 & H2 & H3).
    destruct (ok_inv _ _ _ _ (PFC_Average_ok _ _ H1) Ea1) as [L1 _].
    destruct (ok_inv _ _ _ _ (PFC_Average_ok _ _ H2) Ea2) as [L2 _].
    destruct (ok_inv _ _ _ _ (PFC_SquaredRMSCalculate_ok _ _ H3) Ea3)
      as [L3 _].
    unfold window_lengths. rsimpl. cbv beta in L1, L2, L3.
    rsimpl_in L2. rsimpl_in L3. rewrite L1, L2, L3. reflexivity. }
  unfold conditioning_frame in Hfr.
  unfold PFC_ResetParams. rsimpl. cbn [app].
  repeat split; try reflexivity.
  - exact Hsticky.
  - rewrite Hfr. reflexivity.
  - rewrite Hfr. reflexivity.
  - rewrite <- Hw. reflexivity.
Qed.

(** The cycle in PFC_OFFSET_MEAS: no call to the power stage, duty and PI
    integrals untouched.  The state becomes PFC_WAIT_1CYCLE exactly when
    the calibration routine reports ready and the AC filter has its ready
    flag set, and then the voltage reference is seeded with the DC-bus
    average of this cycle; otherwise the state and the voltage PI
    structure stay as they are. *)
Theorem PFC_StateMachine_offset_meas_cycle (p : PFC_T) :
  state p = PFC_OFFSET_MEAS -> filters_configured p ->
  exists p' l,
    PFC_StateMachine p = Some (p', l)
    /\ power_stage_calls l = []
    /\ duty p' = duty p
    /\ PI.integralOut (piVoltage p') = PI.integralOut (piVoltage p)
    /\ piCurrent p' = piCurrent p
    /\ pfcCurrent p' = PFC_MeasureCurrentOffset (pfcCurrent p)
    /\ (MEASI.status (pfcCurrent p') = 1 /\ AVG.status (vacAVG p') = 1 ->
        state p' = PFC_WAIT_1CYCLE
        /\ PI.reference (piVoltage p') = AVG.output (vdcAVG p'))
    /\ (~ (MEASI.status (pfcCurrent p') = 1 /\ AVG.status (vacAVG p') = 1) ->
        state p' = PFC_OFFSET_MEAS /\ piVoltage p' = piVoltage p).
Proof.
  intros Hst Hc. destruct (PFC_StateMachine_ok p Hc) as (p' & l & H & _).
  exists p', l. split; [exact H|].
  destruct (PFC_StateMachine_cycle _ _ _ H)
    as (pc & l1 & r & l2 & E1 & Hfr & Hd & E2 & -> & ->).
  destruct (divisions_no_calls _ Hd) as (C1 & _).
  rewrite Hst, PFC_StateSwitch_offset_meas in E2.
  unfold conditioning_frame in Hfr.
  assert (Hcur : pfcCurrent pc = pfcCurrent p) by (rewrite Hfr; by_fields).
  assert (Hpiv : piVoltage pc = piVoltage p) by (rewrite Hfr; by_fields).
  assert (Hpic : piCurrent pc = piCurrent p) by (rewrite Hfr; by_fields).
  assert (Hdu : duty pc = duty p) by (rewrite Hfr; by_fields).
  inversion E2; subst r l2. rewrite power_stage_calls_app, C1.
  destruct ((MEASI.status (PFC_MeasureCurrentOffset (pfcCurrent pc)) =? 1)
            && (AVG.status (vacAVG pc) =? 1)) eqn:C; rsimpl.
  - apply andb_prop in C. destruct C as [Ca Cb]. bool2prop.
    rewrite Hcur in *. rewrite Hpiv, Hpic, Hdu.
    do 5 (split; [reflexivity|]). split.
    + intros _. split; reflexivity.
    + intros Hn. exfalso. apply Hn. split; assumption.
  - apply andb_false_iff in C.
    rewrite Hcur in *. rewrite Hpiv, Hpic, Hdu.
    do 5 (split; [reflexivity|]). split.
    + intros [Ha Hb]. destruct C as [C|C]; bool2prop; contradiction.
    + intros _. split; reflexivity.
Qed.

(** The cycle in PFC_WAIT_1CYCLE: when the mean-square accumulator has
    its ready flag set after the signal conditioning of this cycle, the
    power stage is enabled and the state becomes PFC_CTRL_RUN; otherwise
    nothing is called and the state stays.  Duty, PI structures and fault
    status are left alone either way. *)
Theorem PFC_StateMachine_wait_1cycle (p : PFC_T) :
  state p = PFC_WAIT_1CYCLE -> filters_configured p ->
  exists p' l,
    PFC_StateMachine p = Some (p', l)
    /\ duty p' = duty p /\ piVoltage p' = piVoltage p
    /\ piCurrent p' = piCurrent p /\ faultStatus p' = faultStatus p
    /\ (RMS.status (vacRMS p') = 1 ->
        state p' = PFC_CTRL_RUN
        /\ power_stage_calls l = [HAL_PFCPWMEnableOutputs])
    /\ (RMS.status (vacRMS p') <> 1 ->
        state p' = PFC_WAIT_1CYCLE /\ power_stage_calls l = []).
Proof.
  intros Hst Hc. destruct (PFC_StateMachine_ok p Hc) as (p' & l & H & _).
  exists p', l. split; [exact H|].
  destruct (PFC_StateMachine_cycle _ _ _ H)
    as (pc & l1 & r & l2 & E1 & Hfr & Hd & E2 & -> & ->).
  destruct (divisions_no_calls _ Hd) as (C1 & _).
  rewrite Hst, PFC_StateSwitch_wait_1cycle in E2.
  unfold conditioning_frame in Hfr.
  assert (Hpiv : piVoltage pc = piVoltage p) by (rewrite Hfr; by_fields).
  assert (Hpic : piCurrent pc = piCurrent p) by (rewrite Hfr; by_fields).
  assert (Hdu : duty pc = duty p) by (rewrite Hfr; by_fields).
  assert (Hfs : faultStatus pc = faultStatus p) by (rewrite Hfr; by_fields).
  rewrite power_stage_calls_app, C1.
  destruct (RMS.status (vacRMS pc) =? 1) eqn:C; bool2prop;
    inversion E2; subst r l2; rsimpl;
    repeat split; auto; intros; contradiction.
Qed.

(** The cycle of PFC_CTRL_RUN that detects a fault only records it: the
    state becomes PFC_FAULT, but the duty and both PI structures keep
    their values and the power stage is not called; forcing the duty to
    0 and disabling the power stage is left to the next cycle, in
    PFC_FAULT. *)
Theorem PFC_StateMachine_fault_detection_cycle (p : PFC_T) :
  state p = PFC_CTRL_RUN -> filters_configured p ->
  exists p' l,
    PFC_StateMachine p = Some (p', l)
    /\ (state p' = PFC_FAULT <-> faultStatus p' <> PFC_FAULT_NONE)
    /\ (state p' = PFC_FAULT ->
        duty p' = duty p /\ piVoltage p' = piVoltage p
        /\ piCurrent p' = piCurrent p /\ rampRate p' = rampRate p
        /\ power_stage_calls l = []).
Proof.
  intros Hst Hc. destruct (PFC_StateMachine_ok p Hc) as (p' & l & H & _).
  exists p', l. split; [exact H|].
  destruct (PFC_StateMachine_cycle _ _ _ H)
    as (pc & l1 & r & l2 & E1 & Hfr & Hd & E2 & -> & ->).
  destruct (divisions_no_calls _ Hd) as (C1 & _).
  rewrite Hst in E2. cbn [PFC_StateSwitch] in E2.
  destruct (PFC_CaseCtrlRun_cases _ _ _ E2) as [Hd2 Hcase].
  destruct (divisions_no_calls _ Hd2) as (C2 & _).
  unfold conditioning_frame in Hfr. rsimpl.
  rewrite power_stage_calls_app, C1, C2.
  destruct Hcase as [(S & F & _)|(S & F & Hr & _)]; rewrite S.
  - split; [split; [discriminate|intros Hn; contradiction]|discriminate].
  - split; [split; auto|]. intros _.
    rewrite Hr, Hfr. repeat split; by_fields.
Qed.

Lemma PFC_RunNoFault_duty (p0 q : PFC_T) (l : list event) :
  PFC_RunNoFault p0 = Some (q, l) -> duty_limits_ordered ->
  (PI.output (piVoltage q) < PFC_MIN_CURRENTREF_PEAK_Q15 ->
   duty q = 0 /\ PI.integralOut (piCurrent q) = 0)
  /\ (PFC_MIN_CURRENTREF_PEAK_Q15 <= PI.output (piVoltage q) ->
      PFC_MIN_DUTY <= duty q <= PFC_MAX_DUTY)
  /\ duty_admissible (duty q).
Proof.
  intros E (Hmin & Hle & Hmax). unfold PFC_RunNoFault in E.
  apply bind_inv in E. destruct E as (p2 & k1 & k1' & _ & E & _).
  apply bind_inv in E. destruct E as (p3 & k2 & k2' & _ & E & _).
  apply bind_inv in E. destruct E as (p4 & k3 & k3' & E4 & E & _).
  destruct (ok_inv _ _ _ _ (PFC_CurrentControlLoop_ok p3) E4)
    as [(Hfr4 & Hduty & _) _].
  specialize (Hduty Hmin Hle Hmax).
  unfold duty_admissible.
  destruct (PI.output (piVoltage p4) <? PFC_MIN_CURRENTREF_PEAK_Q15) eqn:C;
    bool2prop; apply ret_inv in E; destruct E as [-> _]; rsimpl.
  - split; [auto|]. split; [lia|]. now left.
  - split; [lia|]. split; [auto|]. now right.
Qed.

(** A fault-free cycle of PFC_CTRL_RUN ends with duty 0 and an empty
    current-loop integral when the voltage PI output is below
    PFC_MIN_CURRENTREF_PEAK_Q15, and with a duty within
    [PFC_MIN_DUTY, PFC_MAX_DUTY] otherwise. *)
Theorem PFC_StateMachine_run_duty (p : PFC_T) :
  state p = PFC_CTRL_RUN -> filters_configured p -> duty_limits_ordered ->
  exists p' l,
    PFC_StateMachine p = Some (p', l)
    /\ (state p' = PFC_CTRL_RUN ->
        (PI.output (piVoltage p') < PFC_MIN_CURRENTREF_PEAK_Q15 ->
         duty p' = 0 /\ PI.integralOut (piCurrent p') = 0)
        /\ (PFC_MIN_CURRENTREF_PEAK_Q15 <= PI.output (piVoltage p') ->
            PFC_MIN_DUTY <= duty p' <= PFC_MAX_DUTY)).
Proof.
  intros Hst Hc Hlim.
  destruct (PFC_StateMachine_ok p Hc) as (p' & l & H & _).
  exists p', l. split; [exact H|].
  destruct (PFC_StateMachine_cycle _ _ _ H)
    as (pc & l1 & r & l2 & E1 & Hfr & Hd & E2 & -> & ->).
  rewrite Hst in E2. cbn [PFC_StateSwitch] in E2.
  destruct (PFC_CaseCtrlRun_cases _ _ _ E2) as [_ Hcase].
  rsimpl. intros Hs.
  destruct Hcase as [(_ & _ & p0 & _ & E)|(S & _)];
    [|rewrite S in Hs; discriminate].
  destruct (PFC_RunNoFault_duty _ _ _ E Hlim) as (A & B & _). auto.
Qed.

(** ** Further properties of the interrupt and of the reachable contexts *)

Lemma PFC_LoadSamples_conditioning (adc : ADCBUF) (p pc : PFC_T) :
  conditioning_frame (PFC_LoadSamples adc p) pc ->
  pc = set_vacRMS (vacRMS pc)
         (set_rectifiedVac (rectifiedVac pc)
            (set_pfcVoltage (pfcVoltage pc)
               (set_vacAVG (vacAVG pc)
                  (set_vdcAVG (vdcAVG pc)
                     (set_pfcCurrent (pfcCurrent pc) p))))).
Proof.
  unfold conditioning_frame. intros H.
  rewrite H, PFC_LoadSamples_frame. frame_eq p.
Qed.

Lemma PFC_ADCInterrupt_cycle (adc : ADCBUF) (p p' : PFC_T) (l : list event) :
  PFC_ADCInterrupt adc p = Some (p', l) ->
  exists pc r l1 l2,
    PFC_SignalConditioning (PFC_LoadSamples adc p) = Some (pc, l1)
    /\ pc = set_vacRMS (vacRMS pc)
              (set_rectifiedVac (rectifiedVac pc)
                 (set_pfcVoltage (pfcVoltage pc)
                    (set_vacAVG (vacAVG pc)
                       (set_vdcAVG (vdcAVG pc)
                          (set_pfcCurrent (pfcCurrent pc) p)))))
    /\ forallb is_division l1 = true
    /\ PFC_StateSwitch (state p) pc = Some (r, l2)
    /\ ((DEBUG_BOOST = false
         /\ p' = set_state (snd r) (fst r)
         /\ l = (l1 ++ l2) ++ [PFC_PWM_PDC_write (duty p')])
        \/ (DEBUG_BOOST = true
            /\ p' = set_duty (wrapU16 DEBUG_PFC_DUTY)
                      (set_state (snd r) (fst r))
            /\ l = (l1 ++ l2)
                   ++ [PFC_ENABLE_SIGNAL_high; PFC_PWM_PDC_write (duty p')])).
Proof.
  unfold PFC_ADCInterrupt. intros H.
  apply bind_inv in H. destruct H as (q & lq & k1 & Eq & H & ->).
  apply bind_inv in H. destruct H as (q' & k2 & k3 & Ed & H & ->).
  apply bind_inv in H. destruct H as (u & k4 & k5 & Ee & H & ->).
  apply ret_inv in H. destruct H as [-> ->].
  apply emit_inv in Ee. subst k4.
  destruct (PFC_StateMachine_cycle _ _ _ Eq)
    as (pc & l1 & r & l2 & E1 & Hfr & Hd & E2 & -> & ->).
  exists pc, r, l1, l2. split; [exact E1|].
  split; [exact (PFC_LoadSamples_conditioning _ _ _ Hfr)|].
  split; [exact Hd|]. split; [exact E2|].
  destruct DEBUG_BOOST.
  - right. apply bind_inv in Ed. destruct Ed as (u' & k6 & k7 & Es & Ed & ->).
    apply emit_inv in Es. subst k6.
    apply ret_inv in Ed. destruct Ed as [-> ->].
    split; [reflexivity|]. split; [reflexivity|].
    cbn [app]. reflexivity.
  - left. apply ret_inv in Ed. destruct Ed as [-> ->].
    split; [reflexivity|]. split; [reflexivity|].
    cbn [app]. reflexivity.
Qed.

Lemma pdc_writes_app (l1 l2 : list event) :
  pdc_writes (l1 ++ l2) = pdc_writes l1 ++ pdc_writes l2.
Proof. apply flat_map_app. Qed.

Lemma PFC_ADCInterrupt_writes (adc : ADCBUF) (p p' : PFC_T) (l : list event) :
  PFC_ADCInterrupt adc p = Some (p', l) -> pdc_writes l = [duty p'].
Proof.
  intros H.
  destruct (PFC_ADCInterrupt_cycle _ _ _ _ H)
    as (pc & r & l1 & l2 & _ & _ & Hd & E2 & Hcase).
  destruct (divisions_no_calls _ Hd) as (_ & W1 & _).
  destruct (PFC_StateSwitch_summary _ _ _ _ E2) as (_ & _ & _ & W2).
  destruct Hcase as [(_ & _ & ->)|(_ & _ & ->)];
    rewrite !pdc_writes_app, W1, W2; reflexivity.
Qed.

Lemma PFC_StateSwitch_duty (st : PFC_STATE_T) (pc : PFC_T)
      (r : PFC_T * PFC_STATE_T) (l : list event) :
  PFC_StateSwitch st pc = Some (r, l) -> duty_limits_ordered ->
  st = PFC_INIT \/ duty_admissible (duty pc) ->
  duty_admissible (duty (fst r)).
Proof.
  intros H Hlim Hinv. destruct st.
  - rewrite PFC_StateSwitch_init in H. inversion H; subst.
    unfold PFC_ResetParams. rsimpl. now left.
  - destruct Hinv as [Hinv|Hinv]; [discriminate|].
    rewrite PFC_StateSwitch_offset_meas in H. inversion H; subst.
    case_if; rsimpl; exact Hinv.
  - destruct Hinv as [Hinv|Hinv]; [discriminate|].
    rewrite PFC_StateSwitch_wait_1cycle in H.
    case_if_in H; inversion H; subst; exact Hinv.
  - destruct Hinv as [Hinv|Hinv]; [discriminate|].
    cbn [PFC_StateSwitch] in H.
    destruct (PFC_CaseCtrlRun_cases _ _ _ H) as [_ Hc].
    destruct Hc as [(_ & _ & p0 & _ & E)|(_ & _ & Hfr & _)].
    + destruct (PFC_RunNoFault_duty _ _ _ E Hlim) as (_ & _ & A). exact A.
    + rewrite Hfr. fnorm. exact Hinv.
  - cbn [PFC_StateSwitch] in H.
    destruct (PFC_CaseFault_spec pc) as (q & s & lf & E & _ & Hq & _).
    rewrite E in H. inversion H; subst. rsimpl. left. exact Hq.
  - destruct Hinv as [Hinv|Hinv]; [discriminate|].
    cbn [PFC_StateSwitch] in H. apply ret_inv in H. destruct H as [-> _].
    exact Hinv.
Qed.

Lemma reachable_duty (p : PFC_T) :
  duty_limits_ordered -> DEBUG_BOOST = false -> reachable p ->
  state p = PFC_INIT \/ duty_admissible (duty p).
Proof.
  intros Hlim Hdbg H. induction H as [p0|p adc p' l Hr IH E].
  - left. reflexivity.
  - right.
    destruct (PFC_ADCInterrupt_cycle _ _ _ _ E)
      as (pc & r & l1 & l2 & _ & Hpc & _ & E2 & Hcase).
    destruct Hcase as [(_ & -> & _)|(Ht & _)]; [|congruence].
    rsimpl. apply (PFC_StateSwitch_duty _ _ _ _ E2 Hlim).
    rewrite Hpc. fnorm. exact IH.
Qed.

(** Every interrupt from a context reachable from PFC_ParamsInit returns
    and writes the duty register exactly once, with the duty it leaves in
    the context; in a build without DEBUG_BOOST that duty is 0 or within
    [PFC_MIN_DUTY, PFC_MAX_DUTY], and with DEBUG_BOOST it is the debug
    duty. *)
Theorem PFC_ADCInterrupt_duty_write (p : PFC_T) (adc : ADCBUF) :
  windows_positive -> duty_limits_ordered -> reachable p ->
  exists p' l,
    PFC_ADCInterrupt adc p = Some (p', l)
    /\ pdc_writes l = [duty p']
    /\ (if DEBUG_BOOST then duty p' = wrapU16 DEBUG_PFC_DUTY
        else duty_admissible (duty p')).
Proof.
  intros Hw Hlim Hr.
  pose proof (reachable_filters_configured p Hw Hr) as Hc.
  destruct (PFC_ADCInterrupt_ok adc p Hc) as (p' & l & E & _).
  exists p', l. split; [exact E|].
  split; [exact (PFC_ADCInterrupt_writes _ _ _ _ E)|].
  destruct DEBUG_BOOST eqn:Hdbg.
  - destruct (PFC_ADCInterrupt_cycle _ _ _ _ E)
      as (pc & r & l1 & l2 & _ & _ & _ & _ & Hcase).
    destruct Hcase as [(Hf & _)|(_ & -> & _)]; [congruence|]. reflexivity.
  - pose proof (reachable_cycle p adc p' l Hr E) as Hr'.
    destruct (reachable_duty p' Hlim Hdbg Hr') as [Hs|Ha]; [|exact Ha].
    exfalso.
    destruct (PFC_ADCInterrupt_cycle _ _ _ _ E)
      as (pc & r & l1 & l2 & _ & _ & _ & E2 & Hcase).
    destruct (PFC_StateSwitch_summary _ _ _ _ E2) as (Hal & _).
    destruct Hcase as [(_ & Hp' & _)|(Hf & _)]; [|congruence].
    rewrite Hp' in Hs. rsimpl_in Hs. rewrite Hs in Hal.
    destruct (state p); discriminate.
Qed.

(** ** The latched output over-voltage fault *)

Lemma PFC_ADCInterrupt_fault_step (adc : ADCBUF) (p p' : PFC_T)
      (l : list event) :
  fault_bits_disjoint -> state p = PFC_FAULT ->
  uint16_range (faultStatus p) -> fault_bit_set PFC_FAULT_OP_OV p ->
  PFC_ADCInterrupt adc p = Some (p', l) ->
  state p' = PFC_FAULT
  /\ uint16_range (faultStatus p')
  /\ fault_bit_set PFC_FAULT_OP_OV p'
  /\ ~ In HAL_PFCPWMEnableOutputs l
  /\ (DEBUG_BOOST = false -> pdc_writes l = [0]).
Proof.
  intros (Hnone & _ & _ & _ & _ & Huv & Hov & _) Hst Hrng Hbit H.
  pose proof (PFC_ADCInterrupt_writes _ _ _ _ H) as Hw.
  destruct (PFC_ADCInterrupt_cycle _ _ _ _ H)
    as (pc & r & l1 & l2 & _ & Hpc & Hd & E2 & Hcase).
  destruct (divisions_no_calls _ Hd) as (_ & _ & NE1 & _).
  rewrite Hst in E2. cbn [PFC_StateSwitch] in E2.
  destruct (PFC_CaseFault_spec pc)
    as (q & s & lf & E & _ & Hq & Hfs & _ & Hnot).
  rewrite E in E2. inversion E2; subst r l2. clear E2.
  assert (Hfpc : faultStatus pc = faultStatus p) by (rewrite Hpc; by_fields).
  rewrite Hfpc in Hfs. cbv zeta in Hfs.
  unfold fault_bit_set in *.
  assert (Hkeep : uint16_range (faultStatus q)
                  /\ Z.land (faultStatus q) PFC_FAULT_OP_OV
                     = Z.land (faultStatus p) PFC_FAULT_OP_OV).
  { rewrite Hfs.
    destruct (PFC_INPUT_UNDER_VOLTAGE_LIMIT_HI <=? RMS.sqrOutput (vacRMS pc)),
      (RMS.sqrOutput (vacRMS pc) <? PFC_INPUT_OVER_VOLTAGE_LIMIT_LO);
      (split; [try apply wrapU16_range; try exact Hrng|]);
      rewrite ?(wrapU16_land_lnot (faultStatus p)) by exact Hrng.
    - rewrite wrapU16_land_lnot
        by (pose proof (land_lnot_range (faultStatus p) PFC_FAULT_IP_UV);
            unfold uint16_range in *; lia).
      now rewrite !land_clear_other by assumption.
    - now rewrite land_clear_other by assumption.
    - now rewrite land_clear_other by assumption.
    - reflexivity. }
  destruct Hkeep as [Hr' Hk].
  assert (Hne : faultStatus q <> PFC_FAULT_NONE).
  { intros e. rewrite e, Hnone, Z.land_0_l in Hk. congruence. }
  destruct (Hnot Hne) as [-> ->].
  assert (Hcommon : state p' = PFC_FAULT /\ faultStatus p' = faultStatus q
                    /\ ~ In HAL_PFCPWMEnableOutputs l
                    /\ (DEBUG_BOOST = false -> duty p' = 0)).
  { destruct Hcase as [(_ & Hp' & Hl)|(Ht & Hp' & Hl)].
    - split; [rewrite Hp'; reflexivity|].
      split; [rewrite Hp'; reflexivity|]. split.
      + rewrite Hl. rewrite !in_app_iff. cbn [In].
        intros [[A|[A|[]]]|[A|[]]]; try discriminate. exact (NE1 A).
      + intros _. rewrite Hp'. exact Hq.
    - split; [rewrite Hp'; reflexivity|].
      split; [rewrite Hp'; reflexivity|]. split.
      + rewrite Hl. rewrite !in_app_iff. cbn [In].
        intros [[A|[A|[]]]|[A|[A|[]]]]; try discriminate. exact (NE1 A).
      + intros Hf. congruence. }
  destruct Hcommon as (C1 & C2 & C3 & C4).
  split; [exact C1|]. rewrite C2, Hk.
  split; [exact Hr'|]. split; [exact Hbit|]. split; [exact C3|].
  intros Hf. rewrite Hw, (C4 Hf). reflexivity.
Qed.

(** The output over-voltage fault is latched: case PFC_FAULT clears the
    two input-voltage bits only, so from a context in PFC_FAULT whose
    fault status holds the PFC_FAULT_OP_OV bit every sequence of
    interrupts, whatever the samples, stays in PFC_FAULT with that bit
    set and never enables the PWM outputs; without DEBUG_BOOST the duty
    register is written 0 in each of them. *)
Theorem output_over_voltage_latched (adcs : list ADCBUF) (p : PFC_T) :
  fault_bits_disjoint -> filters_configured p ->
  state p = PFC_FAULT -> uint16_range (faultStatus p) ->
  fault_bit_set PFC_FAULT_OP_OV p ->
  exists p' l,
    PFC_Cycles adcs p = Some (p', l)
    /\ state p' = PFC_FAULT
    /\ fault_bit_set PFC_FAULT_OP_OV p'
    /\ ~ In HAL_PFCPWMEnableOutputs l
    /\ (DEBUG_BOOST = false -> pdc_writes l = repeat 0 (length adcs)).
Proof.
  intros Hd. revert p.
  induction adcs as [|adc adcs IH]; intros p Hc Hst Hrng Hbit.
  - exists p, []. cbn. repeat split; auto.
  - destruct (PFC_ADCInterrupt_ok adc p Hc) as (p1 & l1 & E1 & _ & Hc1).
    destruct (PFC_ADCInterrupt_fault_step _ _ _ _ Hd Hst Hrng Hbit E1)
      as (S1 & R1 & B1 & N1 & W1).
    destruct (IH p1 Hc1 S1 R1 B1) as (p' & l' & E' & S' & B' & N' & W').
    exists p', (l1 ++ l'). cbn [PFC_Cycles].
    split; [exact (bind_Some _ _ _ _ _ _ E1 E')|].
    split; [exact S'|]. split; [exact B'|]. split.
    + rewrite in_app_iff. tauto.
    + intros Hf. rewrite pdc_writes_app, (W1 Hf), (W' Hf). reflexivity.
Qed.

(** ** The configuration written by PFC_ParamsInit *)

Lemma PFC_SignalConditioning_window (p pc : PFC_T) (l : list event) :
  filters_configured p ->
  PFC_SignalConditioning p = Some (pc, l) ->
  window_lengths pc = window_lengths p
  /\ AVG.scaler (vdcAVG pc) = AVG.scaler (vdcAVG p).
Proof.
  intros (H1 & H2 & H3) E1. unfold PFC_SignalConditioning in E1.
  apply bind_inv in E1. destruct E1 as (a1 & k1 & k1' & Ea1 & E1 & _).
  apply bind_inv in E1. destruct E1 as (a2 & k2 & k2' & Ea2 & E1 & _).
  apply bind_inv in E1. destruct E1 as (a3 & k3 & k3' & Ea3 & E1 & _).
  apply ret_inv in E1. destruct E1 as [-> _].
  destruct (ok_inv _ _ _ _ (PFC_Average_ok _ _ H1) Ea1) as [L1 _].
  destruct (ok_inv _ _ _ _ (PFC_Average_ok _ _ H2) Ea2) as [L2 _].
  destruct (ok_inv _ _ _ _ (PFC_SquaredRMSCalculate_ok _ _ H3) Ea3)
    as [L3 _].
  unfold window_lengths. rsimpl. cbv beta in L1, L2, L3.
  rsimpl_in L2. rsimpl_in L3. rewrite L1, L2, L3. split; [reflexivity|].
  unfold PFC_Average in Ea1.
  repeat case_if_in Ea1;
    try (apply ret_inv in Ea1; destruct Ea1 as [-> _]; reflexivity).
  apply bind_inv in Ea1. destruct Ea1 as (q & m1 & m2 & _ & Ea1 & _).
  apply ret_inv in Ea1. destruct Ea1 as [-> _]. reflexivity.
Qed.

Lemma PFC_RunNoFault_uncorrected (p0 q : PFC_T) (l : list event) :
  PFC_RunNoFault p0 = Some (q, l) ->
  sampleCorrectionEnable p0 <> 1 ->
  averageCurrent q = iL q /\ 0 <= iL q.
Proof.
  intros E n. unfold PFC_RunNoFault in E.
  apply bind_inv in E. destruct E as (p2 & k1 & k1' & E2 & E & _).
  apply bind_inv in E. destruct E as (p3 & k2 & k2' & E3 & E & _).
  apply bind_inv in E. destruct E as (p4 & k3 & k3' & E4 & E & _).
  destruct (ok_inv _ _ _ _ (PFC_CurrentRefGenerate_ok _) E2) as [(Hfr2 & _) _].
  assert (H2 : sampleCorrectionEnable p2 = sampleCorrectionEnable p0).
  { unfold current_ref_frame in Hfr2. rewrite Hfr2, PFC_SoftStart_frame.
    by_fields. }
  assert (H3 : sampleCorrectionEnable p3 = sampleCorrectionEnable p2).
  { case_if_in E3.
    - apply bind_inv in E3. destruct E3 as (d & m1 & m2 & _ & E3 & _).
      apply ret_inv in E3. destruct E3 as [-> _]. reflexivity.
    - apply ret_inv in E3. destruct E3 as [-> _]. reflexivity. }
  assert (n3 : sampleCorrectionEnable p3 <> 1) by congruence.
  destruct (PFC_CurrentControlLoop_uncorrected _ _ _ E4 n3) as [Ha _].
  destruct (ok_inv _ _ _ _ (PFC_CurrentControlLoop_ok p3) E4)
    as [(_ & _ & _ & _ & HiL & _) _].
  assert (H0 : 0 <= iL p4)
    by (rewrite HiL; destruct (iL p3 <? 0) eqn:C; bool2prop; lia).
  case_if_in E; apply ret_inv in E; destruct E as [-> _]; rsimpl; auto.
Qed.

Lemma PFC_StateSwitch_correction_flag (st : PFC_STATE_T) (pc : PFC_T)
      (r : PFC_T * PFC_STATE_T) (l : list event) :
  PFC_StateSwitch st pc = Some (r, l) ->
  sampleCorrectionEnable (fst r) = sampleCorrectionEnable pc.
Proof.
  intros H. destruct st.
  - rewrite PFC_StateSwitch_init in H. inversion H; subst. reflexivity.
  - rewrite PFC_StateSwitch_offset_meas in H. inversion H; subst.
    case_if; reflexivity.
  - rewrite PFC_StateSwitch_wait_1cycle in H.
    case_if_in H; inversion H; subst; reflexivity.
  - cbn [PFC_StateSwitch] in H.
    destruct (PFC_CaseCtrlRun_cases _ _ _ H) as [_ Hc].
    destruct Hc as [(_ & _ & p0 & Hp0 & E)|(_ & _ & Hfr & _)].
    + destruct (ok_inv _ _ _ _ (PFC_RunNoFault_ok p0) E) as [(Hq & _) _].
      unfold run_frame in Hq. rewrite Hq, Hp0. by_fields.
    + rewrite Hfr. by_fields.
  - cbn [PFC_StateSwitch] in H.
    destruct (PFC_CaseFault_spec pc) as (q & s & lf & E & Hfr & _).
    rewrite E in H. inversion H; subst. unfold fault_frame in Hfr.
    rsimpl. rewrite Hfr. by_fields.
  - cbn [PFC_StateSwitch] in H. apply ret_inv in H. destruct H as [-> _].
    reflexivity.
Qed.

Lemma PFC_ADCInterrupt_configuration (adc : ADCBUF) (p p' : PFC_T)
      (l : list event) :
  filters_configured p ->
  PFC_ADCInterrupt adc p = Some (p', l) ->
  sampleCorrectionEnable p' = sampleCorrectionEnable p
  /\ window_lengths p' = window_lengths p.
Proof.
  intros Hc H.
  destruct (PFC_ADCInterrupt_cycle _ _ _ _ H)
    as (pc & r & l1 & l2 & E1 & Hpc & _ & E2 & Hcase).
  assert (Hc' : filters_configured (PFC_LoadSamples adc p)).
  { apply (filters_configured_window p); [|exact Hc].
    rewrite PFC_LoadSamples_frame. by_fields. }
  destruct (PFC_SignalConditioning_window _ _ _ Hc' E1) as [Hw1 _].
  destruct (ok_inv _ _ _ _ (PFC_StateSwitch_ok (state p) pc) E2) as [Hw2 _].
  pose proof (PFC_StateSwitch_correction_flag _ _ _ _ E2) as Hs.
  assert (Hspc : sampleCorrectionEnable pc = sampleCorrectionEnable p)
    by (rewrite Hpc; by_fields).
  assert (Hwl : window_lengths (PFC_LoadSamples adc p) = window_lengths p)
    by (rewrite PFC_LoadSamples_frame; by_fields).
  assert (Hp' : sampleCorrectionEnable p' = sampleCorrectionEnable (fst r)
                /\ window_lengths p' = window_lengths (fst r)).
  { destruct Hcase as [(_ & -> & _)|(_ & -> & _)]; split; reflexivity. }
  destruct Hp' as [-> ->]. split; congruence.
Qed.

(** The configuration written by PFC_ParamsInit is never changed again:
    in every context reachable from it the three window lengths are the
    configured ones and the sample correction is switched off. *)
Theorem PFC_ParamsInit_configuration_kept (p : PFC_T) :
  windows_positive -> reachable p ->
  sampleCorrectionEnable p = 0
  /\ window_lengths p
     = (wrap16 (Z.shiftl 1 (wrap16 PFC_AVG_SCALER)),
        wrap16 PFC_INPUT_FREQUENCY_COUNTER,
        wrap16 PFC_RMS_SQUARE_COUNTMAX).
Proof.
  intros Hw Hr. induction Hr as [p0|p adc p' l Hr IH E].
  - split; reflexivity.
  - pose proof (reachable_filters_configured p Hw Hr) as Hc.
    destruct (PFC_ADCInterrupt_configuration _ _ _ _ Hc E) as [-> ->].
    exact IH.
Qed.

Lemma reachable_correction_off (p : PFC_T) :
  reachable p -> sampleCorrectionEnable p = 0.
Proof.
  intros Hr. induction Hr as [p0|p adc p' l Hr IH E].
  - reflexivity.
  - destruct (PFC_ADCInterrupt_cycle _ _ _ _ E)
      as (pc & r & l1 & l2 & _ & Hpc & _ & E2 & Hcase).
    pose proof (PFC_StateSwitch_correction_flag _ _ _ _ E2) as Hs.
    assert (Hspc : sampleCorrectionEnable pc = sampleCorrectionEnable p)
      by (rewrite Hpc; by_fields).
    assert (Hp' : sampleCorrectionEnable p' = sampleCorrectionEnable (fst r)).
    { destruct Hcase as [(_ & -> & _)|(_ & -> & _)]; reflexivity. }
    congruence.
Qed.

(** The sample correction is dead code for the contexts reachable from
    PFC_ParamsInit: in every cycle that starts and ends in PFC_CTRL_RUN
    the current PI is fed the measured current itself, which is never
    negative. *)
Theorem sample_correction_never_applied (p : PFC_T) (adc : ADCBUF) :
  windows_positive -> reachable p -> state p = PFC_CTRL_RUN ->
  exists p' l,
    PFC_ADCInterrupt adc p = Some (p', l)
    /\ (state p' = PFC_CTRL_RUN ->
        averageCurrent p' = iL p' /\ 0 <= iL p').
Proof.
  intros Hw Hr Hst.
  pose proof (reachable_filters_configured p Hw Hr) as Hc.
  destruct (PFC_ADCInterrupt_ok adc p Hc) as (p' & l & E & _).
  exists p', l. split; [exact E|]. intros Hs'.
  destruct (PFC_ADCInterrupt_cycle _ _ _ _ E)
    as (pc & r & l1 & l2 & _ & Hpc & _ & E2 & Hcase).
  assert (Hp' : state p' = snd r /\ averageCurrent p' = averageCurrent (fst r)
                /\ iL p' = iL (fst r)).
  { destruct Hcase as [(_ & -> & _)|(_ & -> & _)]; repeat split. }
  destruct Hp' as (S1 & -> & ->). rewrite S1 in Hs'.
  rewrite Hst in E2. cbn [PFC_StateSwitch] in E2.
  destruct (PFC_CaseCtrlRun_cases _ _ _ E2) as [_ Hcc].
  destruct Hcc as [(_ & _ & p0 & Hp0 & E0)|(S & _)]; [|congruence].
  apply (PFC_RunNoFault_uncorrected _ _ _ E0).
  assert (H0 : sampleCorrectionEnable p0 = sampleCorrectionEnable p)
    by (rewrite Hp0, Hpc; by_fields).
  rewrite H0, (reachable_correction_off p Hr). discriminate.
Qed.

(** ** Start-up *)

Lemma PFC_StateSwitch_startup (st : PFC_STATE_T) (pc : PFC_T)
      (r : PFC_T * PFC_STATE_T) (l : list event) :
  PFC_StateSwitch st pc = Some (r, l) ->
  st = PFC_INIT
  \/ ((st = PFC_OFFSET_MEAS \/ st = PFC_WAIT_1CYCLE)
      /\ duty pc = 0
      /\ PI.integralOut (piVoltage pc) = 0
      /\ PI.integralOut (piCurrent pc) = 0) ->
  duty (fst r) = 0
  /\ PI.integralOut (piVoltage (fst r)) = 0
  /\ PI.integralOut (piCurrent (fst r)) = 0.
Proof.
  intros H [->|([-> | ->] & Hd & Hv & Hi)].
  - rewrite PFC_StateSwitch_init in H. inversion H; subst.
    unfold PFC_ResetParams. rsimpl. auto.
  - rewrite PFC_StateSwitch_offset_meas in H. inversion H; subst.
    case_if; rsimpl; auto.
  - rewrite PFC_StateSwitch_wait_1cycle in H.
    case_if_in H; inversion H; subst; auto.
Qed.

Lemma reachable_startup (p : PFC_T) :
  DEBUG_BOOST = false -> reachable p ->
  state p = PFC_OFFSET_MEAS \/ state p = PFC_WAIT_1CYCLE ->
  duty p = 0
  /\ PI.integralOut (piVoltage p) = 0
  /\ PI.integralOut (piCurrent p) = 0.
Proof.
  intros Hdbg Hr. induction Hr as [p0|p adc p' l Hr IH E]; intros Hst.
  - destruct Hst as [Hst|Hst]; discriminate.
  - destruct (PFC_ADCInterrupt_cycle _ _ _ _ E)
      as (pc & r & l1 & l2 & _ & Hpc & _ & E2 & Hcase).
    destruct Hcase as [(_ & Hp' & _)|(Ht & _)]; [|congruence].
    destruct (PFC_StateSwitch_summary _ _ _ _ E2) as (Hal & _).
    rewrite Hp' in Hst |- *. rsimpl. rsimpl_in Hst.
    apply (PFC_StateSwitch_startup _ _ _ _ E2).
    assert (Hf : duty pc = duty p /\ piVoltage pc = piVoltage p
                 /\ piCurrent pc = piCurrent p)
      by (rewrite Hpc; repeat split).
    destruct Hf as (-> & -> & ->).
    destruct (state p) eqn:Sp.
    + now left.
    + right. split; [now left|]. apply IH. now left.
    + right. split; [now right|]. apply IH. now right.
    + destruct Hst as [Hst|Hst]; rewrite Hst in Hal; discriminate.
    + destruct Hst as [Hst|Hst]; rewrite Hst in Hal; discriminate.
    + destruct Hst as [Hst|Hst]; rewrite Hst in Hal; discriminate.
Qed.

(** Start-up is clean: while a context reachable from PFC_ParamsInit is
    in PFC_OFFSET_MEAS or PFC_WAIT_1CYCLE (build without DEBUG_BOOST) the
    duty and both PI integrators are 0 and the duty register is written
    0; the PWM outputs are enabled exactly in the cycle that enters
    PFC_CTRL_RUN, still with duty 0 and empty integrators. *)
Theorem startup_enables_at_zero_duty (p : PFC_T) (adc : ADCBUF) :
  windows_positive -> DEBUG_BOOST = false -> reachable p ->
  state p = PFC_OFFSET_MEAS \/ state p = PFC_WAIT_1CYCLE ->
  exists p' l,
    PFC_ADCInterrupt adc p = Some (p', l)
    /\ pdc_writes l = [0]
    /\ duty p' = 0
    /\ PI.integralOut (piVoltage p') = 0
    /\ PI.integralOut (piCurrent p') = 0
    /\ (In HAL_PFCPWMEnableOutputs l <-> state p' = PFC_CTRL_RUN).
Proof.
  intros Hw Hdbg Hr Hst.
  pose proof (reachable_filters_configured p Hw Hr) as Hc.
  destruct (PFC_ADCInterrupt_ok adc p Hc) as (p' & l & E & _).
  exists p', l. split; [exact E|].
  pose proof (PFC_ADCInterrupt_writes _ _ _ _ E) as Hwr.
  destruct (reachable_startup p Hdbg Hr Hst) as (Hd & Hv & Hi).
  destruct (PFC_ADCInterrupt_cycle _ _ _ _ E)
    as (pc & r & l1 & l2 & _ & Hpc & Hdiv & E2 & Hcase).
  destruct Hcase as [(_ & Hp' & Hl)|(Ht & _)]; [|congruence].
  destruct (PFC_StateSwitch_summary _ _ _ _ E2) as (Hal & Hen & _).
  destruct (divisions_no_calls _ Hdiv) as (_ & _ & NE1 & _).
  assert (Hf : duty pc = duty p /\ piVoltage pc = piVoltage p
               /\ piCurrent pc = piCurrent p)
    by (rewrite Hpc; repeat split).
  destruct Hf as (Hf1 & Hf2 & Hf3).
  assert (Hz : duty (fst r) = 0
               /\ PI.integralOut (piVoltage (fst r)) = 0
               /\ PI.integralOut (piCurrent (fst r)) = 0).
  { apply (PFC_StateSwitch_startup _ _ _ _ E2). right.
    rewrite Hf1, Hf2, Hf3. auto. }
  destruct Hz as (Z1 & Z2 & Z3).
  assert (Hp'f : duty p' = duty (fst r) /\ piVoltage p' = piVoltage (fst r)
                 /\ piCurrent p' = piCurrent (fst r) /\ state p' = snd r)
    by (rewrite Hp'; repeat split).
  destruct Hp'f as (F1 & F2 & F3 & F4).
  rewrite Hwr, F1, F2, F3, F4, Z1, Z2, Z3.
  do 4 (split; [reflexivity|]).
  rewrite Hl, !in_app_iff. cbn [In]. rewrite Hen. split.
  - intros [[A|A]|[A|[]]]; [contradiction|tauto|discriminate].
  - intros Hs. left. right. split; [|exact Hs].
    rewrite Hs in Hal.
    destruct Hst as [Hst|Hst]; rewrite Hst in Hal |- *;
      [discriminate|now left].
Qed.

(** ** The squared-RMS accumulator on arbitrary samples *)

Lemma scaled_square_signed (x : Z) :
  -32767 <= x <= 32767 ->
  0 <= wrap16 (Z.shiftr (builtin_mulss x x) 15) <= 32766.
Proof.
  intros Hx. unfold builtin_mulss.
  rewrite (wrap16_id x) by (unfold int16_range; lia).
  rewrite Z.shiftr_div_pow2 by lia. change (2 ^ 15) with 32768.
  assert (H : 0 <= x * x <= 32767 * 32767) by nia.
  assert (Hq : 0 <= x * x / 32768 <= 32766).
  { split; [apply Z.div_pos; lia|].
    apply Z.lt_succ_r. apply Z.div_lt_upper_bound; lia. }
  rewrite wrap16_id by (unfold int16_range; lia). exact Hq.
Qed.

(** An accumulator inside a window stays inside a window over any sample
    but -32768: the 32-bit sum never wraps around and the window length
    and the peak are left alone.  The call accumulates while the counter
    is below the window length, and completes the window when the counter
    has reached it, so that a window takes sampleLimit + 1 calls and its
    sum is divided by sampleLimit. *)
Theorem PFC_SquaredRMSCalculate_keeps_window (p : PFC_RMS_SQUARE_T) (x : Z) :
  rms_in_window p -> -32767 <= x <= 32767 ->
  let sq := wrap16 (Z.shiftr (builtin_mulss x x) 15) in
  exists p' l,
    PFC_SquaredRMSCalculate p x = Some (p', l)
    /\ rms_in_window p'
    /\ RMS.sampleLimit p' = RMS.sampleLimit p
    /\ RMS.peak p' = RMS.peak p
    /\ ((RMS.samples p < RMS.sampleLimit p
         /\ RMS.sum p' = RMS.sum p + sq
         /\ RMS.samples p' = RMS.samples p + 1
         /\ RMS.sqrOutput p' = RMS.sqrOutput p
         /\ RMS.status p' = RMS.status p
         /\ l = [])
        \/ (RMS.samples p = RMS.sampleLimit p
            /\ RMS.sum p' = 0 /\ RMS.samples p' = 0
            /\ RMS.sqrOutput p'
               = wrap16 (Z.quot (RMS.sum p + sq) (RMS.sampleLimit p))
            /\ RMS.status p' = 1
            /\ l = [DivSD (RMS.sum p + sq) (RMS.sampleLimit p)])).
Proof.
  intros (HN & Hn & Hs) Hx sq.
  pose proof (scaled_square_signed x Hx) as Hq. fold sq in Hq.
  unfold PFC_SquaredRMSCalculate. fold sq. rsimpl.
  rewrite (wrap32_id (RMS.sum p + sq)) by lia.
  destruct (RMS.samples p <? RMS.sampleLimit p) eqn:C; bool2prop.
  - rewrite (wrap16_id (RMS.samples p + 1)) by (unfold int16_range; lia).
    do 2 eexists. split; [reflexivity|].
    unfold rms_in_window. rsimpl.
    split; [lia|]. do 2 (split; [reflexivity|]).
    left. repeat split; auto.
  - rewrite builtin_divsd_Some by lia. unfold bind, ret. cbn [app].
    do 2 eexists. split; [reflexivity|].
    unfold rms_in_window. rsimpl.
    split; [lia|]. do 2 (split; [reflexivity|]).
    right. split; [lia|]. do 2 (split; [reflexivity|]).
    split; [|split; reflexivity].
    apply wrap16_id, wrap16_range.
Qed.

Lemma PFC_Cycles_reachable (adcs : list ADCBUF) (p : PFC_T) :
  windows_positive -> reachable p ->
  exists p' l, PFC_Cycles adcs p = Some (p', l) /\ reachable p'.
Proof.
  intros Hw. revert p. induction adcs as [|adc adcs IH]; intros p Hr.
  - exists p, []. split; [reflexivity|exact Hr].
  - pose proof (reachable_filters_configured p Hw Hr) as Hc.
    destruct (PFC_ADCInterrupt_ok adc p Hc) as (p1 & l1 & E1 & _).
    destruct (IH p1 (reachable_cycle p adc p1 l1 Hr E1))
      as (p' & l' & E' & Hr').
    exists p', (l1 ++ l'). split; [|exact Hr'].
    cbn [PFC_Cycles]. exact (bind_Some _ _ _ _ _ _ E1 E').
Qed.

(** ** Stale boost duty ratio *)

Lemma PFC_CurrentSampleCorrection_value (p : PFC_T) :
  PFC_CurrentSampleCorrection p
  = Some
      (let factor :=
         if 0 <? boostDutyRatio p
         then wrap16 (Z.quot (PI.output (piCurrent p) * 32768)
                        (boostDutyRatio p))
         else Q15_0_9999 in
       if 0 <? factor
       then wrap16 (Z.shiftr (builtin_mulss (iL p) factor) 15)
       else iL p,
       if 0 <? boostDutyRatio p
       then [DivF (PI.output (piCurrent p)) (boostDutyRatio p)]
       else []).
Proof.
  unfold PFC_CurrentSampleCorrection. cbv zeta.
  destruct (0 <? boostDutyRatio p) eqn:C; bool2prop.
  - rewrite builtin_divf_Some by lia. unfold bind, ret.
    match goal with |- context [0 <? ?x] => destruct (0 <? x) end;
      reflexivity.
  - unfold bind, ret. destruct (0 <? Q15_0_9999); reflexivity.
Qed.

Lemma PFC_CurrentControlLoop_corrected (pData p' : PFC_T) (l : list event) :
  PFC_CurrentControlLoop pData = Some (p', l) ->
  sampleCorrectionEnable pData = 1 ->
  PFC_CurrentSampleCorrection (set_iL (iL p') pData)
  = Some (averageCurrent p', l).
Proof.
  intros E Hen. unfold PFC_CurrentControlLoop in E.
  set (p1 := if iL pData <? 0 then set_iL 1 pData else pData) in E.
  assert (Hp1 : p1 = set_iL (iL p1) pData).
  { unfold p1. destruct (iL pData <? 0); [reflexivity|frame_eq pData]. }
  assert (Hs1 : sampleCorrectionEnable p1 = sampleCorrectionEnable pData)
    by (rewrite Hp1; reflexivity).
  clearbody p1.
  apply bind_inv in E. destruct E as (p2 & l1 & l2 & E1 & E2 & ->).
  rewrite Hs1, Hen in E1. cbn [Z.eqb Pos.eqb] in E1.
  apply bind_inv in E1. destruct E1 as (avg & m1 & m2 & Esc & Er & ->).
  apply ret_inv in Er. destruct Er as [-> ->].
  assert (Hp' : iL p' = iL p1 /\ averageCurrent p' = avg /\ l2 = []).
  { repeat case_if_in E2; apply ret_inv in E2; destruct E2 as [-> ->];
      repeat split. }
  destruct Hp' as (-> & -> & ->).
  rewrite !app_nil_r, <- Esc.
  apply PFC_CurrentSampleCorrection_ext; rewrite Hp1; reflexivity.
Qed.

Lemma PFC_RunNoFault_stale_ratio (p0 q : PFC_T) (l : list event) :
  PFC_RunNoFault p0 = Some (q, l) ->
  MEASV.vdc (pfcVoltage p0) <= 0 ->
  boostDutyRatio q = boostDutyRatio p0
  /\ (sampleCorrectionEnable p0 = 1 ->
      exists l0 lq,
        l = l0 ++ lq
        /\ PFC_CurrentSampleCorrection (set_iL (iL q) p0)
           = Some (averageCurrent q, lq)).
Proof.
  intros E Hv. unfold PFC_RunNoFault in E.
  apply bind_inv in E. destruct E as (p2 & k1 & k1' & E2 & E & ->).
  apply bind_inv in E. destruct E as (p3 & k2 & k2' & E3 & E & ->).
  apply bind_inv in E. destruct E as (p4 & k3 & k3' & E4 & E & ->).
  destruct (ok_inv _ _ _ _ (PFC_CurrentRefGenerate_ok _) E2) as [(Hfr2 & _) _].
  unfold current_ref_frame in Hfr2.
  assert (H2 : p2 = set_currentReference (currentReference p2)
                      (set_voltLoopExeRate (voltLoopExeRate p2)
                         (set_piVoltage (piVoltage p2)
                            (set_rampRate (rampRate p2) p0)))).
  { rewrite Hfr2, PFC_SoftStart_frame. frame_eq p0. }
  assert (Hv2 : (0 <? MEASV.vdc (pfcVoltage p2)) = false).
  { rewrite H2. fnorm. apply Z.ltb_ge. exact Hv. }
  rewrite Hv2 in E3. apply ret_inv in E3. destruct E3 as [-> ->].
  destruct (ok_inv _ _ _ _ (PFC_CurrentControlLoop_ok p2) E4)
    as [(Hfr4 & _) _].
  unfold current_loop_frame in Hfr4.
  assert (Hq : boostDutyRatio q = boostDutyRatio p4
               /\ iL q = iL p4 /\ averageCurrent q = averageCurrent p4
               /\ k3' = []).
  { case_if_in E; apply ret_inv in E; destruct E as [-> ->]; repeat split. }
  destruct Hq as (-> & -> & -> & ->).
  split.
  - rewrite Hfr4, H2. by_fields.
  - intros Hen.
    assert (Hen2 : sampleCorrectionEnable p2 = 1)
      by (rewrite H2; exact Hen).
    exists k1, k3. split; [now rewrite !app_nil_r, app_nil_l|].
    rewrite <- (PFC_CurrentControlLoop_corrected _ _ _ E4 Hen2).
    apply PFC_CurrentSampleCorrection_ext; rewrite H2; reflexivity.
Qed.

(** C9. In a cycle that starts and ends in PFC_CTRL_RUN (no fault is
    detected) with a DC-bus sample Vdc <= 0, boostDutyRatio keeps its
    previous value and no division by Vdc is made.  When sample
    correction is enabled, the average current of the cycle is this
    cycle's current scaled by the quotient of the previous current PI
    output by that stale ratio (by Q15_0_9999 when the stale ratio is not
    positive), and the division by the stale ratio is in the log of the
    cycle; when it is not enabled, the average current is the current
    itself. *)
Theorem boost_duty_ratio_stale (pfcData : PFC_T) :
  state pfcData = PFC_CTRL_RUN ->
  filters_configured pfcData ->
  MEASV.vdc (pfcVoltage pfcData) <= 0 ->
  exists p' l,
    PFC_StateMachine pfcData = Some (p', l)
    /\ (state p' = PFC_CTRL_RUN ->
        boostDutyRatio p' = boostDutyRatio pfcData
        /\ (forall n : Z,
               ~ In (DivF n (MEASV.vdc (pfcVoltage pfcData))) l)
        /\ (sampleCorrectionEnable pfcData = 1 ->
            let ratio := boostDutyRatio pfcData in
            let factor :=
              if 0 <? ratio
              then wrap16 (Z.quot (PI.output (piCurrent pfcData) * 32768)
                             ratio)
              else Q15_0_9999 in
            averageCurrent p'
            = (if 0 <? factor
               then wrap16 (Z.shiftr (builtin_mulss (iL p') factor) 15)
               else iL p')
            /\ (0 < ratio ->
                In (DivF (PI.output (piCurrent pfcData)) ratio) l))
        /\ (sampleCorrectionEnable pfcData <> 1 ->
            averageCurrent p' = iL p')).
Proof.
  intros Hst Hc Hv.
  destruct (PFC_StateMachine_ok pfcData Hc) as (p' & l & E & Hpos & _).
  exists p', l. split; [exact E|]. intros Hrun.
  destruct (PFC_StateMachine_cycle _ _ _ E)
    as (pc & l1 & r & l2 & _ & Hfr & _ & E2 & Hp' & Hl).
  unfold conditioning_frame in Hfr.
  rewrite Hst in E2. cbn [PFC_StateSwitch] in E2.
  destruct (PFC_CaseCtrlRun_cases _ _ _ E2) as [_ Hcase].
  assert (Hr : state p' = snd r /\ boostDutyRatio p' = boostDutyRatio (fst r)
               /\ iL p' = iL (fst r)
               /\ averageCurrent p' = averageCurrent (fst r))
    by (rewrite Hp'; repeat split).
  destruct Hr as (R1 & R2 & R3 & R4).
  destruct Hcase as [(_ & _ & p0 & Hp0 & E0)|(S & _)]; [|congruence].
  assert (H0 : p0 = set_faultStatus (faultStatus p0)
                      (set_iL (iL p0)
                         (set_vacRMS (vacRMS pc)
                            (set_rectifiedVac (rectifiedVac pc)
                               (set_pfcVoltage
                                  (MEASV.set_offsetVac
                                     (MEASV.offsetVac (pfcVoltage pc))
                                     (pfcVoltage pfcData))
                                  (set_vacAVG (vacAVG pc)
                                     (set_vdcAVG (vdcAVG pc) pfcData))))))).
  { rewrite Hp0, Hfr. frame_eq pfcData. }
  assert (Hv0 : MEASV.vdc (pfcVoltage p0) <= 0) by (rewrite H0; exact Hv).
  destruct (PFC_RunNoFault_stale_ratio _ _ _ E0 Hv0) as [B1 B2].
  assert (Hb : boostDutyRatio p0 = boostDutyRatio pfcData)
    by (rewrite H0; reflexivity).
  assert (Hpi : piCurrent p0 = piCurrent pfcData)
    by (rewrite H0; reflexivity).
  assert (Hsc : sampleCorrectionEnable p0 = sampleCorrectionEnable pfcData)
    by (rewrite H0; reflexivity).
  rewrite R2, R3, R4.
  split; [congruence|]. split.
  - intros n Hin. rewrite Forall_forall in Hpos.
    specialize (Hpos _ Hin). cbn in Hpos. lia.
  - split.
    + intros Hen. cbv zeta.
      destruct B2 as (l0 & lq & Hl2 & Esc); [congruence|].
      rewrite PFC_CurrentSampleCorrection_value in Esc.
      cbv zeta in Esc.
      change (boostDutyRatio (set_iL (iL (fst r)) p0))
        with (boostDutyRatio p0) in Esc.
      change (piCurrent (set_iL (iL (fst r)) p0)) with (piCurrent p0) in Esc.
      change (iL (set_iL (iL (fst r)) p0)) with (iL (fst r)) in Esc.
      rewrite Hb, Hpi in Esc.
      assert (Ha : averageCurrent (fst r)
                   = fst (averageCurrent (fst r), lq)) by reflexivity.
      assert (Hlq : lq = snd (averageCurrent (fst r), lq)) by reflexivity.
      split.
      * rewrite Ha. injection Esc as <- _. reflexivity.
      * intros Hpos'. rewrite Hl, Hl2, !in_app_iff. right. right.
        apply Z.ltb_lt in Hpos'. rewrite Hpos' in Esc.
        injection Esc as _ <-. now left.
    + intros Hne.
      apply (PFC_RunNoFault_uncorrected _ _ _ E0). congruence.
Qed.

End Properties.

(** ** The properties at the example configuration *)

Lemma PFC_CurrentControlLoop_duty_limits_witness :
  exists p' l,
    @PFC_CurrentControlLoop example_config
      (example_run 24995 0 8000 20000 0) = Some (p', l)
    /\ 0 <= duty p' <= 1900.
Proof.
  destruct (@PFC_CurrentControlLoop_duty_limits example_config
              (example_run 24995 0 8000 20000 0))
    as (p' & l & E & _ & Hd & _); cbn; try lia.
  exists p', l. split; [exact E | exact Hd].
Defined.

Lemma example_fault_bits_disjoint : @fault_bits_disjoint example_config.
Proof.
  unfold fault_bits_disjoint. cbn. repeat split; try reflexivity; lia.
Qed.

Lemma example_keeps_reference : @PIController_keeps_reference example_config.
Proof. intros q e. reflexivity. Qed.

Lemma example_windows_positive : @windows_positive example_config.
Proof. unfold windows_positive. cbn. repeat split; reflexivity. Qed.

Lemma example_run_configured (ref rr bdr vdc_s sce : Z) :
  filters_configured (example_run ref rr bdr vdc_s sce).
Proof. unfold filters_configured. cbn. lia. Qed.

Lemma example_fault_configured (fs sq : Z) :
  filters_configured (example_fault fs sq).
Proof. unfold filters_configured. cbn. lia. Qed.

(** C4 (as stated, refuted).  Target 25000, RAMP_COUNT 10: from the
    reference 24995 with the ramp counter at 0, a first fault-free cycle
    steps the reference to 25005, above the target, and the second
    fault-free cycle brings it down to 25000: the reference passes the
    target without holding it and then decreases. *)
Lemma soft_start_overshoots_target :
  @PFC_OUPUT_VOLTAGE_REFERENCE example_config = 25000
  /\ state (example_run 24995 0 8000 20000 0) = PFC_CTRL_RUN
  /\ PI.reference (piVoltage (example_run 24995 0 8000 20000 0)) = 24995
  /\ state_and_reference
       (@PFC_Cycles example_config [example_adc]
          (example_run 24995 0 8000 20000 0))
     = Some (PFC_CTRL_RUN, 25005)
  /\ state_and_reference
       (@PFC_Cycles example_config [example_adc; example_adc]
          (example_run 24995 0 8000 20000 0))
     = Some (PFC_CTRL_RUN, 25000).
Proof. repeat split; vm_compute; reflexivity. Qed.

Lemma example_fault_free_cycle :
  @fault_free_cycle example_config
    (example_run 24000 0 8000 20000 0) example_run_next.
Proof.
  split; [reflexivity|]. split; [reflexivity|].
  exists example_adc. eexists. vm_compute. reflexivity.
Qed.

Lemma soft_start_ramp_witness :
  PI.reference (piVoltage example_run_next) = 24000 + 10
  /\ rampRate example_run_next = 50.
Proof.
  pose proof (@soft_start_ramp example_config example_keeps_reference
                ltac:(unfold int16_range; cbn; lia) ltac:(cbn; lia)
                ltac:(cbn; lia) ltac:(unfold uint16_range; cbn; lia))
    as [Hstep _].
  pose proof (Hstep _ _ example_fault_free_cycle
                ltac:(unfold int16_range; cbn; lia)
                ltac:(unfold uint16_range; cbn; lia)) as (_ & B & _).
  cbv zeta in B.
  destruct B as (B1 & _ & B3); [cbn; lia|reflexivity|].
  split; [exact B1|exact B3].
Defined.

Lemma PFC_StateMachine_fault_state_witness :
  exists p' l,
    @PFC_StateMachine example_config (example_fault 2 5000) = Some (p', l)
    /\ duty p' = 0
    /\ hd_error (power_stage_calls l) = Some HAL_PFCPWMDisableOutputs
    /\ (fault_bit_set 2 p' <->
        fault_bit_set 2 (example_fault 2 5000)
        /\ RMS.sqrOutput (vacRMS p') < 400).
Proof.
  destruct (@PFC_StateMachine_fault_state example_config
              (example_fault 2 5000))
    as (p' & l & E & D & C & U & _).
  - reflexivity.
  - apply example_fault_configured.
  - unfold uint16_range. cbn. lia.
  - reflexivity.
  - exists p', l. auto.
Defined.

Lemma example_started_reachable (n : nat) :
  @reachable example_config (example_started n).
Proof.
  unfold example_started.
  destruct (@PFC_Cycles_reachable example_config
              (repeat example_adc_start n)
              (@PFC_ParamsInit example_config (example_fault 0 5000))
              example_windows_positive (reachable_init _))
    as (p' & l & E & Hr).
  rewrite E. exact Hr.
Qed.

(** C3 (as stated, refuted).  The divisions by the window length in
    PFC_Average and PFC_SquaredRMSCalculate have no guard: on a filter
    whose window length is 0 the call that completes the window divides
    by 0, and with the window length of the AC-input filter configured
    as 0 the first interrupt after PFC_ParamsInit traps. *)
Lemma filter_divisions_unguarded :
  PFC_Average (AVG.mk 0 0 0 0 0 0) 5 = None
  /\ PFC_SquaredRMSCalculate (RMS.mk 0 0 0 0 0 0) 5 = None
  /\ AVG.sampleLimit
       (vacAVG (@PFC_ParamsInit zero_window_config (example_fault 0 5000)))
     = 0
  /\ @PFC_ADCInterrupt zero_window_config example_adc
       (@PFC_ParamsInit zero_window_config (example_fault 0 5000))
     = None.
Proof. repeat split; vm_compute; reflexivity. Qed.

Lemma divisions_guarded_witness :
  (exists v,
      @PFC_CurrentSampleCorrection example_config
        (example_run 24000 0 8000 20000 1)
      = Some (v, [DivF 4000 8000]))
  /\ exists p',
       @PFC_ADCInterrupt example_config example_adc_start
         (example_started 800)
       = Some (p', [DivSD 320000 16; DivSD 9753600 400; DivF 0 1948;
                    DivF 20000 20000; PFC_PWM_PDC_write 0])
       /\ Forall positive_divisor
            [DivSD 320000 16; DivSD 9753600 400; DivF 0 1948;
             DivF 20000 20000; PFC_PWM_PDC_write 0].
Proof.
  destruct (@divisions_guarded example_config) as (H1 & _ & _ & H4).
  split.
  - destruct (H1 (example_run 24000 0 8000 20000 1)) as (v & l & E & _).
    exists v. rewrite E.
    vm_compute in E. injection E as _ <-. reflexivity.
  - destruct (H4 example_windows_positive (example_started 800)
                (example_started_reachable 800) example_adc_start)
      as (p' & l & E & Hl).
    exists p'. pose proof E as E'. vm_compute in E'.
    injection E' as _ El. rewrite <- El in E, Hl.
    split; [exact E|exact Hl].
Defined.

Lemma fault_status_is_union_witness :
  state (example_started 802) = PFC_CTRL_RUN
  /\ faultStatus (example_started 802) = 0
  /\ exists p' l,
       @PFC_ADCInterrupt example_config example_adc_start
         (example_started 802) = Some (p', l)
       /\ state p' = PFC_FAULT
       /\ faultStatus p' = @fault_union example_config false true false
       /\ faultStatus p' = 2.
Proof.
  assert (Hs : state (example_started 802) = PFC_CTRL_RUN)
    by (vm_compute; reflexivity).
  destruct (@fault_status_is_union example_config (example_started 802)
              example_fault_bits_disjoint (example_started_reachable 802))
    as (H1 & _ & _ & H4).
  split; [exact Hs|]. split; [exact (H1 Hs)|].
  destruct (@PFC_ADCInterrupt example_config example_adc_start
              (example_started 802)) as [[p' l]|] eqn:E;
    [|vm_compute in E; discriminate].
  exists p', l. split; [reflexivity|].
  pose proof (H4 example_adc_start p' l Hs E) as Hu.
  pose proof E as E'. vm_compute in E'. injection E' as Ep _.
  rewrite <- Ep in Hu |- *.
  split; [reflexivity|]. split; [exact Hu|reflexivity].
Defined.

Lemma boost_duty_ratio_stale_witness :
  exists p' l,
    @PFC_StateMachine example_config (example_run 24000 0 8000 (-5) 1)
    = Some (p', l)
    /\ state p' = PFC_CTRL_RUN
    /\ boostDutyRatio p' = 8000
    /\ iL p' = 1100
    /\ averageCurrent p' = 550
    /\ In (DivF 4000 8000) l.
Proof.
  destruct (@boost_duty_ratio_stale example_config
              (example_run 24000 0 8000 (-5) 1))
    as (p' & l & E & H).
  - reflexivity.
  - apply example_run_configured.
  - cbn. lia.
  - exists p', l. split; [exact E|].
    pose proof E as E'. vm_compute in E'. injection E' as Ep _.
    assert (Hs : state p' = PFC_CTRL_RUN) by (rewrite <- Ep; reflexivity).
    assert (Hi : iL p' = 1100) by (rewrite <- Ep; reflexivity).
    destruct (H Hs) as (B & _ & S & _).
    destruct (S eq_refl) as [A L]. cbv zeta in A, L.
    split; [exact Hs|]. split; [exact B|]. split; [exact Hi|].
    split.
    + rewrite A, Hi. vm_compute. reflexivity.
    + apply L. cbn. lia.
Defined.

(** ** Further properties at the example configuration *)

Lemma PFC_SignalRectification_abs_witness :
  PFC_SignalRectification (MEASV.mk 20000 10000 16384) = 6384.
Proof.
  destruct (PFC_SignalRectification_abs (MEASV.mk 20000 10000 16384))
    as [_ H].
  rewrite H by (cbn; lia). reflexivity.
Defined.

Lemma PFC_Average_keeps_window_witness :
  exists p' l,
    PFC_Average (AVG.mk 100 2 4 7 0 2) 50 = Some (p', l)
    /\ avg_in_window p'
    /\ AVG.sampleLimit p' = 4.
Proof.
  destruct (PFC_Average_keeps_window (AVG.mk 100 2 4 7 0 2) 50)
    as (p' & l & E & W & L & _).
  - unfold avg_in_window. cbn. lia.
  - unfold int16_range. lia.
  - exists p', l. split; [exact E|]. split; [exact W|exact L].
Defined.

Lemma PFC_Average_window_mean_witness :
  exists p',
    feed_samples PFC_Average [10; 20; 30; 41] (avg_reset 4 0 2)
    = Some (p', [DivSD 101 4])
    /\ AVG.output p' = 25 /\ AVG.status p' = 1.
Proof.
  destruct (PFC_Average_window_mean (avg_reset 4 0 2) [10; 20; 30; 41])
    as (p' & E & O & _ & S & _).
  - cbn. lia.
  - reflexivity.
  - reflexivity.
  - reflexivity.
  - repeat constructor; unfold int16_range; lia.
  - exists p'. split; [exact E|]. split; [exact O|exact S].
Defined.

Lemma PFC_CurrentRefGenerate_bounds_witness :
  exists p' l,
    @PFC_CurrentRefGenerate example_config
      (example_run 24000 0 8000 20000 0) = Some (p', l)
    /\ 0 <= currentReference p' <= 32734.
Proof.
  apply (@PFC_CurrentRefGenerate_bounds example_config
           (example_run 24000 0 8000 20000 0)).
  cbn. lia.
Defined.

Lemma PFC_CurrentRefGenerate_decimation_witness :
  exists p1 l1 p2 l2,
    repeat_M (@PFC_CurrentRefGenerate example_config) 21
      (set_voltLoopExeRate 0 (example_run 24000 0 8000 20000 0))
    = Some (p1, l1)
    /\ @PFC_CurrentRefGenerate example_config p1 = Some (p2, l2)
    /\ voltLoopExeRate p1 = 21
    /\ voltLoopExeRate p2 = 0.
Proof.
  destruct (@PFC_CurrentRefGenerate_decimation example_config
              (set_voltLoopExeRate 0 (example_run 24000 0 8000 20000 0)))
    as (Hidle & p1 & l1 & p2 & l2 & E1 & E2 & V & _).
  - cbn. lia.
  - reflexivity.
  - destruct (Hidle 21%nat) as (q & lq & Eq & _ & Vq); [cbn; lia|].
    exists p1, l1, p2, l2. split; [exact E1|]. split; [exact E2|].
    split; [|exact V].
    change (Z.to_nat (@VOLTAGE_LOOP_EXE_RATE example_config + 1))
      with 21%nat in E1.
    rewrite E1 in Eq. inversion Eq; subst. exact Vq.
Defined.

Lemma PFC_CurrentSampleCorrection_bounds_witness :
  exists v l,
    @PFC_CurrentSampleCorrection example_config
      (example_run 24000 0 8000 20000 1) = Some (v, l)
    /\ 0 <= v <= 1100.
Proof.
  destruct (@PFC_CurrentSampleCorrection_bounds example_config
              (example_run 24000 0 8000 20000 1))
    as (v & l & E & Hv & _).
  - unfold int16_range. cbn. lia.
  - cbn. lia.
  - exists v, l. split; [exact E|exact Hv].
Defined.

Lemma PFC_CurrentControlLoop_current_witness :
  exists p' l,
    @PFC_CurrentControlLoop example_config
      (example_run 24000 0 8000 20000 1) = Some (p', l)
    /\ iL p' = 1100
    /\ 0 <= averageCurrent p' <= iL p'.
Proof.
  destruct (@PFC_CurrentControlLoop_current example_config
              (example_run 24000 0 8000 20000 1))
    as (p' & l & E & Hi & _ & Ha & _).
  - unfold int16_range. cbn. lia.
  - cbn. lia.
  - exists p', l. split; [exact E|]. split; [exact Hi|exact Ha].
Defined.

Lemma PFC_FaultCheck_detects_witness :
  faultStatus (@PFC_FaultCheck example_config
                 (example_run 24000 0 8000 20000 0)) = 0.
Proof.
  destruct (@PFC_FaultCheck_detects example_config
              (example_run 24000 0 8000 20000 0)
              example_fault_bits_disjoint
              ltac:(cbn; lia) ltac:(cbn; lia) ltac:(cbn; lia) eq_refl)
    as (_ & _ & _ & H).
  apply H. cbn. lia.
Defined.

Lemma PFC_FaultCheck_accumulates_witness :
  faultStatus
    (@PFC_FaultCheck example_config
       (@PFC_FaultCheck example_config
          (set_vdcAVG (AVG.mk 0 0 16 29000 1 4)
             (example_run 24000 0 8000 20000 0)))) = 2.
Proof.
  destruct (@PFC_FaultCheck_accumulates example_config
              (set_vdcAVG (AVG.mk 0 0 16 29000 1 4)
                 (example_run 24000 0 8000 20000 0))
              example_fault_bits_disjoint
              ltac:(cbn; lia) ltac:(cbn; lia) eq_refl
              ltac:(cbn; lia) ltac:(cbn; lia) ltac:(cbn; lia))
    as (_ & H & _).
  exact H.
Defined.

Lemma PFC_StateMachine_transitions_witness :
  state (example_started 402) <> PFC_STATE_OTHER.
Proof.
  destruct (@PFC_StateMachine_transitions example_config) as [_ H].
  exact (H _ (example_started_reachable 402)).
Defined.

Lemma PFC_StateMachine_power_stage_calls_witness :
  exists p' l,
    @PFC_StateMachine example_config (example_fault 2 5000) = Some (p', l)
    /\ In HAL_PFCPWMDisableOutputs l
    /\ pdc_writes l = [].
Proof.
  destruct (@PFC_StateMachine_power_stage_calls example_config
              (example_fault 2 5000) (example_fault_configured 2 5000))
    as (p' & l & E & _ & D & W).
  exists p', l. split; [exact E|]. split; [|exact W].
  apply D. right. reflexivity.
Defined.

Lemma example_state_configured (st : PFC_STATE_T) :
  filters_configured (set_state st (example_run 24000 0 8000 20000 0)).
Proof. unfold filters_configured. cbn. lia. Qed.

Lemma PFC_StateMachine_init_cycle_witness :
  exists p' l,
    @PFC_StateMachine example_config
      (set_state PFC_INIT (example_run 24000 0 8000 20000 0)) = Some (p', l)
    /\ state p' = PFC_OFFSET_MEAS
    /\ power_stage_calls l = [HAL_PFCPWMDisableOutputs]
    /\ duty p' = 0.
Proof.
  destruct (@PFC_StateMachine_init_cycle example_config
              (set_state PFC_INIT (example_run 24000 0 8000 20000 0))
              eq_refl (example_state_configured PFC_INIT))
    as (p' & l & E & S & C & D & _).
  exists p', l. auto.
Defined.

Lemma PFC_StateMachine_offset_meas_cycle_witness :
  exists p' l,
    @PFC_StateMachine example_config
      (set_state PFC_OFFSET_MEAS (example_run 24000 0 8000 20000 0))
    = Some (p', l)
    /\ power_stage_calls l = []
    /\ duty p' = 700.
Proof.
  destruct (@PFC_StateMachine_offset_meas_cycle example_config
              (set_state PFC_OFFSET_MEAS (example_run 24000 0 8000 20000 0))
              eq_refl (example_state_configured PFC_OFFSET_MEAS))
    as (p' & l & E & C & D & _).
  exists p', l. auto.
Defined.

Lemma PFC_StateMachine_wait_1cycle_witness :
  exists p' l,
    @PFC_StateMachine example_config
      (set_state PFC_WAIT_1CYCLE (example_run 24000 0 8000 20000 0))
    = Some (p', l)
    /\ duty p' = 700
    /\ faultStatus p' = 0.
Proof.
  destruct (@PFC_StateMachine_wait_1cycle example_config
              (set_state PFC_WAIT_1CYCLE (example_run 24000 0 8000 20000 0))
              eq_refl (example_state_configured PFC_WAIT_1CYCLE))
    as (p' & l & E & D & _ & _ & F & _).
  exists p', l. auto.
Defined.

Lemma PFC_StateMachine_fault_detection_cycle_witness :
  exists p' l,
    @PFC_StateMachine example_config (example_run 24000 0 8000 20000 0)
    = Some (p', l)
    /\ (state p' = PFC_FAULT <-> faultStatus p' <> 0).
Proof.
  destruct (@PFC_StateMachine_fault_detection_cycle example_config
              (example_run 24000 0 8000 20000 0)
              eq_refl (example_run_configured 24000 0 8000 20000 0))
    as (p' & l & E & H & _).
  exists p', l. auto.
Defined.

Lemma example_duty_limits_ordered : @duty_limits_ordered example_config.
Proof. unfold duty_limits_ordered. cbn. lia. Qed.

Lemma PFC_StateMachine_run_duty_witness :
  exists p' l,
    @PFC_StateMachine example_config (example_run 24000 0 8000 20000 0)
    = Some (p', l)
    /\ (state p' = PFC_CTRL_RUN ->
        100 <= PI.output (piVoltage p') -> 0 <= duty p' <= 1900).
Proof.
  destruct (@PFC_StateMachine_run_duty example_config
              (example_run 24000 0 8000 20000 0)
              eq_refl (example_run_configured 24000 0 8000 20000 0)
              example_duty_limits_ordered)
    as (p' & l & E & H).
  exists p', l. split; [exact E|]. intros Hs Ho.
  destruct (H Hs) as [_ B]. exact (B Ho).
Defined.

Lemma PFC_ADCInterrupt_duty_write_witness :
  exists p' l,
    @PFC_ADCInterrupt example_config example_adc_start (example_started 402)
    = Some (p', l)
    /\ pdc_writes l = [duty p']
    /\ @duty_admissible example_config (duty p').
Proof.
  destruct (@PFC_ADCInterrupt_duty_write example_config
              (example_started 402) example_adc_start
              example_windows_positive example_duty_limits_ordered
              (example_started_reachable 402))
    as (p' & l & E & W & A).
  exists p', l. split; [exact E|]. split; [exact W|exact A].
Defined.

Lemma output_over_voltage_latched_witness :
  exists p' l,
    @PFC_Cycles example_config [example_adc; example_adc_start]
      (example_fault 1 5000) = Some (p', l)
    /\ state p' = PFC_FAULT
    /\ fault_bit_set 1 p'
    /\ ~ In HAL_PFCPWMEnableOutputs l
    /\ pdc_writes l = [0; 0].
Proof.
  destruct (@output_over_voltage_latched example_config
              [example_adc; example_adc_start] (example_fault 1 5000)
              example_fault_bits_disjoint (example_fault_configured 1 5000)
              eq_refl)
    as (p' & l & E & S & B & N & W).
  - unfold uint16_range. cbn. lia.
  - unfold fault_bit_set. cbn. lia.
  - exists p', l. split; [exact E|]. split; [exact S|]. split; [exact B|].
    split; [exact N|]. exact (W eq_refl).
Defined.

Lemma PFC_ParamsInit_configuration_kept_witness :
  sampleCorrectionEnable (example_started 402) = 0
  /\ window_lengths (example_started 402) = (16, 400, 400).
Proof.
  exact (@PFC_ParamsInit_configuration_kept example_config
           (example_started 402) example_windows_positive
           (example_started_reachable 402)).
Defined.

Lemma sample_correction_never_applied_witness :
  exists p' l,
    @PFC_ADCInterrupt example_config example_adc_start (example_started 402)
    = Some (p', l)
    /\ state p' = PFC_CTRL_RUN
    /\ averageCurrent p' = iL p'.
Proof.
  destruct (@sample_correction_never_applied example_config
              (example_started 402) example_adc_start
              example_windows_positive (example_started_reachable 402))
    as (p' & l & E & H).
  - vm_compute. reflexivity.
  - assert (Hs : state p' = PFC_CTRL_RUN).
    { vm_compute in E. inversion E. reflexivity. }
    exists p', l. split; [exact E|]. split; [exact Hs|].
    exact (proj1 (H Hs)).
Defined.

Lemma startup_enables_at_zero_duty_witness :
  exists p' l,
    @PFC_ADCInterrupt example_config example_adc_start (example_started 1)
    = Some (p', l)
    /\ pdc_writes l = [0]
    /\ duty p' = 0
    /\ PI.integralOut (piVoltage p') = 0
    /\ PI.integralOut (piCurrent p') = 0.
Proof.
  destruct (@startup_enables_at_zero_duty example_config
              (example_started 1) example_adc_start
              example_windows_positive eq_refl
              (example_started_reachable 1))
    as (p' & l & E & W & D & V & C & _).
  - left. vm_compute. reflexivity.
  - exists p', l. auto 6.
Defined.

Lemma PFC_SquaredRMSCalculate_keeps_window_witness :
  exists p' l,
    PFC_SquaredRMSCalculate (RMS.mk 5000 0 200 400 1 1000000) (-1500)
    = Some (p', l)
    /\ rms_in_window p'
    /\ RMS.sum p' = 1000068.
Proof.
  destruct (PFC_SquaredRMSCalculate_keeps_window
              (RMS.mk 5000 0 200 400 1 1000000) (-1500))
    as (p' & l & E & W & _ & _ & [(_ & S & _)|(C & _)]).
  - unfold rms_in_window. cbn. lia.
  - lia.
  - exists p', l. split; [exact E|]. split; [exact W|]. rewrite S.
    reflexivity.
  - cbn in C. lia.
Defined.
